(** * The word2vec tutorial notebook (docs/notebooks/word2vec.ipynb)

  A shallow embedding of the code cells of the notebook: the toy corpus
  fixtures, the data-creation cell, the two sentence iterators
  [MySentences] and [MyText], the file names of the Lee corpus, and the
  order in which the cells call the word2vec library.

  The notebook runs on Python 3; its values are modelled as follows.
  - A [str] is a [string]; a character stands for the code point of the same
    number, so the model covers text whose code points are below 256.
  - A generator is a state machine with a [next] function; [list(...)]
    drives it until [StopIteration].
  - The interpreter state (heap of instances, the global
    [lee_train_file], the file system) is threaded through a state and
    exception monad.
  - The file system is a tree of directories and regular files, with POSIX
    path resolution. *)

From Stdlib Require Import Ascii String NArith List Lia.
From stdpp Require Import base option list strings gmap.

Local Open Scope N_scope.

(** ** Python strings *)

Module PyStr.

Definition ord (c : ascii) : N := N_of_ascii c.

(** [str.isspace] on one character: the code points below 256 that Python 3
    classifies as whitespace (U+0009..U+000D, U+001C..U+0020, U+0085,
    U+00A0). This is the test [str.split()] uses. *)
Definition isspace (c : ascii) : bool :=
  let n := ord c in
  ((9 <=? n) && (n <=? 13)) || ((28 <=? n) && (n <=? 32))
  || (n =? 133) || (n =? 160).

(** [str.lower] on one character: A-Z and the upper-case letters of the
    Latin-1 block (U+00C0..U+00DE except the multiplication sign U+00D7)
    move up by 32; every other character is unchanged. *)
Definition lower_char (c : ascii) : ascii :=
  let n := ord c in
  if ((65 <=? n) && (n <=? 90))
     || ((192 <=? n) && (n <=? 222) && negb (n =? 215))
  then ascii_of_N (n + 32) else c.

(** [s.lower()] *)
Fixpoint lower (s : string) : string :=
  match s with
  | EmptyString => EmptyString
  | String c s' => String (lower_char c) (lower s')
  end.

(** The string held in a reversed accumulator of characters. *)
Fixpoint rev_to_string (acc : list ascii) (tail : string) : string :=
  match acc with
  | [] => tail
  | c :: acc' => rev_to_string acc' (String c tail)
  end.

(** The token accumulated so far, if any, in front of the remaining ones. *)
Definition flush (tok : list ascii) (rest : list string) : list string :=
  match tok with
  | [] => rest
  | _ :: _ => rev_to_string tok EmptyString :: rest
  end.

(** The scanning loop of [s.split()] with no separator: runs of whitespace
    separate the tokens, leading and trailing whitespace yields no empty
    token. [tok] is the current token, last character first. *)
Fixpoint split_from (tok : list ascii) (s : string) : list string :=
  match s with
  | EmptyString => flush tok []
  | String c s' =>
      if isspace c then flush tok (split_from [] s')
      else split_from (c :: tok) s'
  end.

(** [s.split()] *)
Definition split (s : string) : list string := split_from [] s.

Definition LF : ascii := ascii_of_N 10.
Definition CR : ascii := ascii_of_N 13.

(** [f.readline()] on the unread text of a file opened in text mode with
    universal newlines: the line up to and including its terminator, and the
    text left. The terminators "\n", "\r" and "\r\n" are all returned as
    "\n"; a last line without terminator is returned as it is. *)
Fixpoint readline (s : string) : string * string :=
  match s with
  | EmptyString => (EmptyString, EmptyString)
  | String c s' =>
      if Ascii.eqb c LF then (String LF EmptyString, s')
      else if Ascii.eqb c CR then
        match s' with
        | String c' s'' =>
            if Ascii.eqb c' LF then (String LF EmptyString, s'')
            else (String LF EmptyString, s')
        | EmptyString => (String LF EmptyString, s')
        end
      else let (l, r) := readline s' in (String c l, r)
  end.

(** All the lines of a text, as iterating over the file object returns
    them. [cur] is the line being read, last character first. *)
Fixpoint lines_from (cur : list ascii) (s : string) : list string :=
  match s with
  | EmptyString => flush cur []
  | String c s' =>
      if Ascii.eqb c LF then
        rev_to_string cur (String LF EmptyString) :: lines_from [] s'
      else if Ascii.eqb c CR then
        match s' with
        | String c' s'' =>
            if Ascii.eqb c' LF then
              rev_to_string cur (String LF EmptyString) :: lines_from [] s''
            else
              rev_to_string cur (String LF EmptyString) :: lines_from [] s'
        | EmptyString => [rev_to_string cur (String LF EmptyString)]
        end
      else lines_from (c :: cur) s'
  end.

Definition lines (s : string) : list string := lines_from [] s.

(** The characters gathered for the current token hold no whitespace. *)
Definition clean (tok : list ascii) : Prop :=
  Forall (fun c => isspace c = false) tok.

(** Every character of the string is whitespace (so the empty string too). *)
Fixpoint all_space (s : string) : bool :=
  match s with
  | EmptyString => true
  | String c s' => isspace c && all_space s'
  end.

(** No character of the string is whitespace. *)
Fixpoint no_space (s : string) : bool :=
  match s with
  | EmptyString => true
  | String c s' => negb (isspace c) && no_space s'
  end.

(** A token: a nonempty string without whitespace. *)
Definition is_token (t : string) : bool :=
  match t with
  | EmptyString => false
  | String _ _ => no_space t
  end.

(** The text is empty or starts with a whitespace character. *)
Definition at_boundary (s : string) : bool :=
  match s with
  | EmptyString => true
  | String c _ => isspace c
  end.

(** The whitespace-separated tokens of a text, in the words of the
    specification: the text is whitespace, then a token that ends at a
    whitespace character or at the end of the text, then the rest, whose
    tokens follow. *)
Inductive whitespace_separated_tokens : string -> list string -> Prop :=
| tokens_none ws :
    all_space ws = true ->
    whitespace_separated_tokens ws []
| tokens_more ws t rest toks :
    all_space ws = true ->
    is_token t = true ->
    at_boundary rest = true ->
    whitespace_separated_tokens rest toks ->
    whitespace_separated_tokens (ws +:+ t +:+ rest) (t :: toks).

End PyStr.

(** ** Exceptions and outcomes *)

Inductive exn : Set :=
| FileNotFoundError
| NotADirectoryError
| IsADirectoryError
| FileExistsError
| BadFileDescriptor
| NameError
| AttributeError
| IndexError.

(** The subclasses of [OSError] among the exceptions above. *)
Definition is_OSError (e : exn) : bool :=
  match e with
  | FileNotFoundError | NotADirectoryError | IsADirectoryError
  | FileExistsError | BadFileDescriptor => true
  | NameError | AttributeError | IndexError => false
  end.

(** What running a piece of code gives: a value, an uncaught exception, or
    [Timeout] when the fuel given to a loop of the model ran out. *)
Inductive outcome (A : Type) : Type :=
| Ok (a : A)
| Raise (e : exn)
| Timeout.
Arguments Ok {A} a.
Arguments Raise {A} e.
Arguments Timeout {A}.

(** ** POSIX paths and the file system *)

Module Posix.

Definition SEP : ascii := ascii_of_N 47.

(** The components of a path, separated by "/". An absolute path has an
    empty first component, a path with a trailing "/" an empty last one. *)
Fixpoint components_from (cur : list ascii) (p : string) : list string :=
  match p with
  | EmptyString => [PyStr.rev_to_string cur EmptyString]
  | String c p' =>
      if Ascii.eqb c SEP
      then PyStr.rev_to_string cur EmptyString :: components_from [] p'
      else components_from (c :: cur) p'
  end.

Definition components (p : string) : list string := components_from [] p.

Definition is_absolute (p : string) : bool :=
  match p with
  | String c _ => Ascii.eqb c SEP
  | EmptyString => false
  end.

Fixpoint ends_with_sep (p : string) : bool :=
  match p with
  | EmptyString => false
  | String c EmptyString => Ascii.eqb c SEP
  | String _ p' => ends_with_sep p'
  end.

(** [os.path.join(a, b)] of posixpath. *)
Definition join (a b : string) : string :=
  if is_absolute b then b
  else if String.eqb a "" || ends_with_sep a then a +:+ b
  else a +:+ String SEP b.

(** A file system object: a regular file with its text, or a directory with
    its entries in the order a listing returns them. *)
#[warnings="-register-all"] Inductive node : Type :=
| File (content : string)
| Dir (entries : list (string * node)).

Fixpoint find_entry (name : string) (es : list (string * node)) : option node :=
  match es with
  | [] => None
  | (k, v) :: es' => if String.eqb k name then Some v else find_entry name es'
  end.

(** The object at a canonical path (a list of names) below [n]. *)
Fixpoint lookup_path (n : node) (p : list string) : option node :=
  match p with
  | [] => Some n
  | c :: cs =>
      match n with
      | Dir es =>
          match find_entry c es with
          | Some child => lookup_path child cs
          | None => None
          end
      | File _ => None
      end
  end.

(** Replaces the entry [name], or adds it after the existing entries. *)
Fixpoint set_entry (name : string) (f : option node -> node)
    (es : list (string * node)) : list (string * node) :=
  match es with
  | [] => [(name, f None)]
  | (k, v) :: es' =>
      if String.eqb k name then (k, f (Some v)) :: es'
      else (k, v) :: set_entry name f es'
  end.

(** Puts [new] at the canonical path [p] below [n]. *)
Fixpoint put_path (p : list string) (new : node) (n : node) : node :=
  match p with
  | [] => new
  | c :: cs =>
      match n with
      | Dir es =>
          Dir (set_entry c (fun o => put_path cs new (default (Dir []) o)) es)
      | File _ => n
      end
  end.

Definition is_dot (c : string) : bool := String.eqb c "" || String.eqb c ".".
Definition is_dotdot (c : string) : bool := String.eqb c "..".

(** Path resolution: walks the components from the canonical path [cur].
    Every component is looked up in a directory that exists; an empty
    component and "." stay, ".." goes to the parent. The last name need not
    exist. *)
Fixpoint walk (root : node) (cur : list string) (comps : list string)
    : outcome (list string) :=
  match comps with
  | [] => Ok cur
  | c :: cs =>
      match lookup_path root cur with
      | None => Raise FileNotFoundError
      | Some (File _) => Raise NotADirectoryError
      | Some (Dir _) =>
          if is_dot c then walk root cur cs
          else if is_dotdot c then walk root (removelast cur) cs
          else walk root (cur ++ [c]) cs
      end
  end.

(** Drops the empty components a trailing "/" leaves. *)
Fixpoint strip_trailing (comps : list string) : list string :=
  match comps with
  | [] => []
  | c :: cs =>
      match strip_trailing cs with
      | [] => if String.eqb c "" then [] else [c]
      | cs' => c :: cs'
      end
  end.

(** Directory creation along the components, as [mkdir -p] does: a missing
    name is created as an empty directory. The flag tells whether the last
    name walked was created here. *)
Fixpoint mkdirs_walk (root : node) (cur : list string) (comps : list string)
    (fresh : bool) : outcome (node * bool) :=
  match comps with
  | [] => Ok (root, fresh)
  | c :: cs =>
      match lookup_path root cur with
      | None => Raise FileNotFoundError
      | Some (File _) => Raise NotADirectoryError
      | Some (Dir _) =>
          if is_dot c then mkdirs_walk root cur cs fresh
          else if is_dotdot c then mkdirs_walk root (removelast cur) cs false
          else
            match lookup_path root (cur ++ [c]) with
            | Some _ => mkdirs_walk root (cur ++ [c]) cs false
            | None =>
                mkdirs_walk (put_path (cur ++ [c]) (Dir []) root)
                  (cur ++ [c]) cs true
            end
      end
  end.

End Posix.

(** ** Interpreter state *)

(** Instances of the two classes of the notebook. *)
Inductive instance : Type :=
| MySentences (dirname : string)
| MyText.

Record state : Type := mkState {
  heap : gmap nat instance;          (* the instances, by address *)
  lee_train_file : option string;    (* the global of that name, once bound *)
  root : Posix.node;                 (* the file system *)
  cwd : list string                  (* the working directory *)
}.

(** Code that reads and writes the state and may raise. *)
Definition Py (A : Type) : Type := state -> outcome A * state.

Definition ret {A} (a : A) : Py A := fun s => (Ok a, s).

Definition bind {A B} (m : Py A) (k : A -> Py B) : Py B :=
  fun s =>
    match m s with
    | (Ok a, s') => k a s'
    | (Raise e, s') => (Raise e, s')
    | (Timeout, s') => (Timeout, s')
    end.

Definition raise {A} (e : exn) : Py A := fun s => (Raise e, s).
Definition timeout {A} : Py A := fun s => (Timeout, s).

(** Lifts an outcome computed from the state without changing it. *)
Definition reading {A} (f : state -> outcome A) : Py A := fun s => (f s, s).

Notation "x <- c ;; k" := (bind c (fun x => k))
  (at level 100, c at next level, right associativity).
Notation "c ;;; k" := (bind c (fun _ => k))
  (at level 100, right associativity).

(** Code that leaves the state as it found it, whatever it returns. *)
Definition read_only {A} (m : Py A) : Prop := forall s, (m s).2 = s.

(** ** The operating-system calls the notebook makes *)

Module OS.
Import Posix.

Definition start (s : state) (p : string) : list string :=
  if is_absolute p then [] else cwd s.

(** The canonical path and the object a path names. *)
Definition resolve (s : state) (p : string) : outcome (list string * node) :=
  if String.eqb p "" then Raise FileNotFoundError
  else
    match walk (root s) (start s p) (components p) with
    | Ok cp =>
        match lookup_path (root s) cp with
        | Some n => Ok (cp, n)
        | None => Raise FileNotFoundError
        end
    | Raise e => Raise e
    | Timeout => Timeout
    end.

(** [os.listdir(p)] *)
Definition listdir (p : string) : Py (list string) :=
  reading (fun s =>
    match resolve s p with
    | Ok (_, Dir es) => Ok (map fst es)
    | Ok (_, File _) => Raise NotADirectoryError
    | Raise e => Raise e
    | Timeout => Timeout
    end).

(** [open(p)]: the text of the file, which the file object then hands out
    line by line. *)
Definition open (p : string) : Py string :=
  reading (fun s =>
    match resolve s p with
    | Ok (_, File c) => Ok c
    | Ok (_, Dir _) => Raise IsADirectoryError
    | Raise e => Raise e
    | Timeout => Timeout
    end).

(** [os.path.exists(p)] *)
Definition path_exists (p : string) : Py bool :=
  reading (fun s =>
    match resolve s p with
    | Ok _ => Ok true
    | _ => Ok false
    end).

Definition set_root (s : state) (r : node) : state :=
  mkState (heap s) (lee_train_file s) r (cwd s).

(** [os.makedirs(p)]: creates the directory and the missing ones above it;
    raises [FileExistsError] when the directory is already there. *)
Definition makedirs (p : string) : Py unit :=
  fun s =>
    if String.eqb p "" then (Raise FileNotFoundError, s)
    else
      match mkdirs_walk (root s) (start s p)
              (strip_trailing (components p)) false with
      | Ok (r, true) => (Ok tt, set_root s r)
      | Ok (_, false) => (Raise FileExistsError, s)
      | Raise e => (Raise e, s)
      | Timeout => (Timeout, s)
      end.

(** [smart_open.smart_open(p, 'w')] on a local path, as [open(p, 'w')]:
    creates the file or empties it. The file object is the canonical path of
    the file. *)
Definition smart_open (p : string) : Py (list string) :=
  fun s =>
    if String.eqb p "" then (Raise FileNotFoundError, s)
    else
      match walk (root s) (start s p) (components p) with
      | Ok cp =>
          match lookup_path (root s) cp with
          | Some (Dir _) => (Raise IsADirectoryError, s)
          | _ => (Ok cp, set_root s (put_path cp (File "") (root s)))
          end
      | Raise e => (Raise e, s)
      | Timeout => (Timeout, s)
      end.

(** [fout.write(data)]: appends to the file. *)
Definition write (fout : list string) (data : string) : Py unit :=
  fun s =>
    match lookup_path (root s) fout with
    | Some (File c) =>
        (Ok tt, set_root s (put_path fout (File (c +:+ data)) (root s)))
    | _ => (Raise BadFileDescriptor, s)
    end.

End OS.

(** ** The code cells of the notebook *)

Module Notebook.

Definition NL : string := String PyStr.LF EmptyString.

(** Cell 2: the toy corpus. *)
Definition sentences : list (list string) :=
  [["first"; "sentence"]; ["second"; "sentence"]].

(** Cell 3: [filenames]. *)
Definition filenames : list string := ["./data/f1.txt"; "./data/f2.txt"].

(** [l[i]] *)
Definition index {A} (l : list A) (i : nat) : Py A :=
  match l !! i with
  | Some x => ret x
  | None => raise IndexError
  end.

(** Cell 3, the inner loop:
    [for line in sentences[i]: fout.write(line + '\n')]. *)
Fixpoint write_lines (fout : list string) (ls : list string) : Py unit :=
  match ls with
  | [] => ret tt
  | line :: ls' => OS.write fout (line +:+ NL) ;;; write_lines fout ls'
  end.

(** Cell 3, the outer loop over [enumerate(filenames)], from index [i]. *)
Fixpoint write_files (i : nat) (fnames : list string)
    (sents : list (list string)) : Py unit :=
  match fnames with
  | [] => ret tt
  | fname :: rest =>
      fout <- OS.smart_open fname ;;
      sent <- index sents i ;;
      write_lines fout sent ;;;
      write_files (S i) rest sents
  end.

(** Cell 3: creates [./data/] when it does not exist, then writes one file per
    sentence. [sents] is the value of the global [sentences]. *)
Definition create_toy_data (sents : list (list string)) : Py unit :=
  e <- OS.path_exists "./data/" ;;
  (if e then ret tt else OS.makedirs "./data/") ;;;
  write_files 0 filenames sents.

(** What [next] gives: a yielded sentence and the suspended generator, or
    the end of the iteration. *)
Inductive step (G : Type) : Type :=
| Yield (sentence : list string) (g : G)
| StopIteration.
Arguments Yield {G} sentence g.
Arguments StopIteration {G}.

(** The generators of cells 4 and 9, by the point at which they are
    suspended. A generator of [MySentences.__iter__] holds [self], the names
    [os.listdir] returned that are still to visit, and the unread text of the
    open file; one of [MyText.__iter__] holds the unread text. *)
Inductive generator : Type :=
| MS_created (self : nat)
| MS_suspended (self : nat) (names : list string) (unread : string)
| MT_created
| MT_suspended (unread : string).

(** [self.dirname] *)
Definition get_dirname (self : nat) : Py string :=
  reading (fun s =>
    match heap s !! self with
    | Some (MySentences d) => Ok d
    | _ => Raise AttributeError
    end).

(** The global [lee_train_file]. *)
Definition get_lee_train_file : Py string :=
  reading (fun s =>
    match lee_train_file s with
    | Some p => Ok p
    | None => Raise NameError
    end).

(** One turn of [for line in f]: the next line and the text left, or the end
    of the file. *)
Definition file_next (unread : string) : option (string * string) :=
  match unread with
  | EmptyString => None
  | String _ _ => Some (PyStr.readline unread)
  end.

(** [MySentences.__iter__] at the head of its outer loop, with [names] left:
    opens one file after the other until a line can be yielded. *)
Fixpoint MS_outer (self : nat) (names : list string) : Py (step generator) :=
  match names with
  | [] => ret StopIteration
  | fname :: names' =>
      d <- get_dirname self ;;
      text <- OS.open (Posix.join d fname) ;;
      match file_next text with
      | Some (line, unread) =>
          ret (Yield (PyStr.split line) (MS_suspended self names' unread))
      | None => MS_outer self names'
      end
  end.

(** [MySentences.__iter__] at the head of its inner loop. *)
Definition MS_inner (self : nat) (names : list string) (unread : string)
    : Py (step generator) :=
  match file_next unread with
  | Some (line, unread') =>
      ret (Yield (PyStr.split line) (MS_suspended self names unread'))
  | None => MS_outer self names
  end.

(** [MyText.__iter__] at the head of its loop. *)
Definition MT_loop (unread : string) : Py (step generator) :=
  match file_next unread with
  | Some (line, unread') =>
      ret (Yield (PyStr.split (PyStr.lower line)) (MT_suspended unread'))
  | None => ret StopIteration
  end.

(** [next(g)]: runs the generator to its next [yield]. *)
Definition next (g : generator) : Py (step generator) :=
  match g with
  | MS_created self =>
      d <- get_dirname self ;;
      names <- OS.listdir d ;;
      MS_outer self names
  | MS_suspended self names unread => MS_inner self names unread
  | MT_created =>
      p <- get_lee_train_file ;;
      text <- OS.open p ;;
      MT_loop text
  | MT_suspended unread => MT_loop unread
  end.

(** [MySentences.__iter__(self)] and [MyText.__iter__(self)]: calling a
    generator function creates the generator and runs none of its body. *)
Definition MySentences__iter__ (self : nat) : generator := MS_created self.
Definition MyText__iter__ (self : nat) : generator := MT_created.

(** [iter(obj)] on the instance at address [self] calls the [__iter__] of its
    class. *)
Definition iter (self : nat) : Py generator :=
  reading (fun s =>
    match heap s !! self with
    | Some (MySentences _) => Ok (MySentences__iter__ self)
    | Some MyText => Ok (MyText__iter__ self)
    | None => Raise NameError
    end).

(** [cls(...)]: a new instance at a fresh address. *)
Definition new_instance (o : instance) : Py nat :=
  fun s =>
    let a := fresh (dom (heap s)) in
    (Ok a, mkState (<[a := o]> (heap s)) (lee_train_file s) (root s) (cwd s)).

(** Collects what a generator yields until it stops. *)
Fixpoint drain (fuel : nat) (g : generator) : Py (list (list string)) :=
  match fuel with
  | O => timeout
  | S fuel' =>
      st <- next g ;;
      match st with
      | StopIteration => ret []
      | Yield sentence g' =>
          r <- drain fuel' g' ;;
          ret (sentence :: r)
      end
  end.

(** The sentences of a text: one per line, each line split. *)
Definition sentences_of (text : string) : list (list string) :=
  map PyStr.split (PyStr.lines text).

(** The same for [MyText], which lowers each line first. *)
Definition lowered_sentences_of (text : string) : list (list string) :=
  map (fun line => PyStr.split (PyStr.lower line)) (PyStr.lines text).

(** In state [s], every name of the directory [d] opens as a file, with the
    text beside it. *)
Definition opened (s : state) (d : string) (names texts : list string) : Prop :=
  Forall2 (fun name text => OS.open (Posix.join d name) s = (Ok text, s))
    names texts.

(** Two states hold the same inputs of an iteration over the instance at
    [self]: the same instance there, the same global [lee_train_file], the
    same file system and working directory. They may differ elsewhere in the
    heap. *)
Definition same_inputs (self : nat) (s t : state) : Prop :=
  heap s !! self = heap t !! self
  /\ lee_train_file s = lee_train_file t
  /\ root s = root t /\ cwd s = cwd t.

(** [list(obj)] *)
Definition list_of (fuel : nat) (self : nat) : Py (list (list string)) :=
  g <- iter self ;;
  drain fuel g.

(** Cells 3 and 5 in a row: the toy data, then
    [sentences = MySentences('./data/')]. *)
Definition toy_corpus : Py nat :=
  create_toy_data sentences ;;;
  new_instance (MySentences "./data/").

(** The text that holds each of the strings on a line of its own, every line
    ended by a newline. *)
Fixpoint text_of_lines (ls : list string) : string :=
  match ls with
  | [] => ""
  | l :: ls' => l +:+ NL +:+ text_of_lines ls'
  end.

(** A path of the form [./data/name], for a proper name. *)
Definition in_data_dir (p name : string) : Prop :=
  String.eqb p "" = false /\ Posix.is_absolute p = false
  /\ Posix.components p = ["."; "data"; name]
  /\ Posix.is_dot name = false /\ Posix.is_dotdot name = false.

(** Something other than a directory, or nothing. *)
Definition not_dir (o : option Posix.node) : Prop :=
  match o with
  | Some (Posix.Dir _) => False
  | _ => True
  end.

(** The working directory exists, and [data] is absent from it or is a
    directory in which neither [f1.txt] nor [f2.txt] is a directory. *)
Definition can_create_toy_data (s : state) : Prop :=
  (exists es, Posix.lookup_path (root s) (cwd s) = Some (Posix.Dir es))
  /\ match Posix.lookup_path (root s) (cwd s ++ ["data"]) with
     | None => True
     | Some (Posix.File _) => False
     | Some (Posix.Dir _) =>
         not_dir (Posix.lookup_path (root s)
                    ((cwd s ++ ["data"]) ++ ["f1.txt"]))
         /\ not_dir (Posix.lookup_path (root s)
                       ((cwd s ++ ["data"]) ++ ["f2.txt"]))
     end.

(** The working directory is a directory and holds a directory [data]. *)
Definition has_data_dir (s : state) : Prop :=
  (exists es, Posix.lookup_path (root s) (cwd s) = Some (Posix.Dir es))
  /\ (exists es,
        Posix.lookup_path (root s) (cwd s ++ ["data"]) = Some (Posix.Dir es)).

(** [data] holds the regular file [name] with the text [text]. *)
Definition has_data_file (s : state) (name text : string) : Prop :=
  Posix.lookup_path (root s) ((cwd s ++ ["data"]) ++ [name])
  = Some (Posix.File text).

(** A state to run the cells from: no instance, no global, an empty working
    directory at the root of the file system. *)
Definition blank_state : state := mkState ∅ None (Posix.Dir []) [].

End Notebook.

(** ** Python data and the corpus fixtures *)

Module Fixtures.

(** The values the corpus literals are made of. *)
#[warnings="-register-all"] Inductive pyval : Type :=
| PStr (s : string)
| PList (items : list pyval).

Definition of_sentence (ws : list string) : pyval := PList (map PStr ws).
Definition of_sentences (ss : list (list string)) : pyval :=
  PList (map of_sentence ss).

(** Cell 2: [sentences = [['first', 'sentence'], ['second', 'sentence']]]. *)
Definition sentences : pyval :=
  PList [PList [PStr "first"; PStr "sentence"];
         PList [PStr "second"; PStr "sentence"]].

(** Cell 15: [more_sentences = ['Advanced', 'users', ...]]. *)
Definition more_sentences : pyval :=
  PList [PStr "Advanced"; PStr "users"; PStr "can"; PStr "load"; PStr "a";
         PStr "model"; PStr "and"; PStr "continue"; PStr "training";
         PStr "it"; PStr "with"; PStr "more"; PStr "sentences"].

Definition is_word (v : pyval) : bool :=
  match v with
  | PStr _ => true
  | PList _ => false
  end.

(** A tokenized sentence: a list of word strings. *)
Definition is_sentence (v : pyval) : bool :=
  match v with
  | PList ws => forallb is_word ws
  | PStr _ => false
  end.

(** A sequence of tokenized sentences: a list of token lists. *)
Definition is_corpus (v : pyval) : bool :=
  match v with
  | PList ss => forallb is_sentence ss
  | PStr _ => false
  end.

(** [for x in v]: a list gives its items, a string its characters, each as a
    string of length one. *)
Fixpoint chars (s : string) : list pyval :=
  match s with
  | EmptyString => []
  | String c s' => PStr (String c EmptyString) :: chars s'
  end.

Definition items_of (v : pyval) : list pyval :=
  match v with
  | PList l => l
  | PStr s => chars s
  end.

End Fixtures.

(** ** The statements of the code cells that touch the library *)

Module Cells.
Import Fixtures.

Inductive method : Set :=
| m_build_vocab | m_train | m_str | m_vocab | m_accuracy | m_save
| m_most_similar | m_doesnt_match | m_similarity | m_getitem.

Inductive expr : Type :=
| E_literal (v : pyval)                 (* a list literal *)
| E_MySentences (dirname : string)      (* MySentences(dirname) *)
| E_MyText                              (* MyText() *)
| E_Word2Vec (corpus : option string)   (* gensim.models.Word2Vec(...) *)
| E_load (path : string).               (* gensim.models.Word2Vec.load(path) *)

Inductive stmt : Type :=
| Assign (x : string) (e : expr)                       (* x = e *)
| Call (recv : string) (m : method) (arg : option string).  (* recv.m([arg]) *)

(** The code cells in execution order, by execution count, reduced to the
    statements that bind a corpus or a model or call a method of a model.
    [print(x.m)] is the call [x.m]. *)
Definition notebook : list (nat * stmt) :=
  [ (* sentences = [['first', 'sentence'], ['second', 'sentence']] *)
    (2, Assign "sentences" (E_literal sentences));
    (* model = gensim.models.Word2Vec(sentences, min_count=1) *)
    (2, Assign "model" (E_Word2Vec (Some "sentences")));
    (* sentences = MySentences('./data/') *)
    (5, Assign "sentences" (E_MySentences "./data/"));
    (* model = gensim.models.Word2Vec(sentences, min_count=1) *)
    (6, Assign "model" (E_Word2Vec (Some "sentences")));
    (* print(model); print(model.vocab) *)
    (6, Call "model" m_str None);
    (6, Call "model" m_vocab None);
    (* new_model = gensim.models.Word2Vec(min_count=1) *)
    (7, Assign "new_model" (E_Word2Vec None));
    (* new_model.build_vocab(sentences); new_model.train(sentences) *)
    (7, Call "new_model" m_build_vocab (Some "sentences"));
    (7, Call "new_model" m_train (Some "sentences"));
    (* print(new_model); print(model.vocab) *)
    (7, Call "new_model" m_str None);
    (7, Call "model" m_vocab None);
    (* sentences = MyText() *)
    (9, Assign "sentences" E_MyText);
    (* model = gensim.models.Word2Vec(sentences, min_count=10) *)
    (10, Assign "model" (E_Word2Vec (Some "sentences")));
    (* model = gensim.models.Word2Vec(sentences, size=200) *)
    (11, Assign "model" (E_Word2Vec (Some "sentences")));
    (* model = gensim.models.Word2Vec(sentences, workers=4) *)
    (12, Assign "model" (E_Word2Vec (Some "sentences")));
    (* model.accuracy('questions-words.txt') *)
    (13, Call "model" m_accuracy None);
    (* model.save('/tmp/mymodel') *)
    (14, Call "model" m_save None);
    (* new_model = gensim.models.Word2Vec.load('/tmp/mymodel') *)
    (14, Assign "new_model" (E_load "/tmp/mymodel"));
    (* model = gensim.models.Word2Vec.load('/tmp/mymodel') *)
    (15, Assign "model" (E_load "/tmp/mymodel"));
    (* more_sentences = ['Advanced', 'users', ...] *)
    (15, Assign "more_sentences" (E_literal more_sentences));
    (* model.train(more_sentences) *)
    (15, Call "model" m_train (Some "more_sentences"));
    (* model.most_similar(positive=[...], negative=[...], topn=1) *)
    (16, Call "model" m_most_similar None);
    (* model.doesnt_match(...) *)
    (17, Call "model" m_doesnt_match None);
    (* print(model.similarity(...)), twice *)
    (18, Call "model" m_similarity None);
    (18, Call "model" m_similarity None);
    (* model['tree'] *)
    (19, Call "model" m_getitem None) ]%nat.

(** What a global is bound to. *)
Inductive value : Type :=
| V_data (v : pyval)
| V_MySentences (dirname : string)
| V_MyText
| V_model.

(** The library calls, by kind. *)
Inductive kind : Set :=
| Construct      (* Word2Vec(...) *)
| BuildVocab
| Train
| Inspect        (* print(model), model.vocab *)
| Evaluate       (* model.accuracy(...) *)
| Save
| Load
| Query.         (* most_similar, doesnt_match, similarity, model[word] *)

Definition kind_of (m : method) : kind :=
  match m with
  | m_build_vocab => BuildVocab
  | m_train => Train
  | m_str | m_vocab => Inspect
  | m_accuracy => Evaluate
  | m_save => Save
  | m_most_similar | m_doesnt_match | m_similarity | m_getitem => Query
  end.

(** A library call as it happens: the cell, the kind, the variable of the
    model, and the value of the corpus argument when there is one. *)
Record event : Type := mkEvent {
  ev_cell : nat;
  ev_kind : kind;
  ev_model : string;
  ev_corpus : option value
}.

(** The value of an optional argument; a name that is not bound raises. *)
Definition eval_arg (env : gmap string value) (arg : option string)
    : outcome (option value) :=
  match arg with
  | None => Ok None
  | Some x =>
      match env !! x with
      | Some v => Ok (Some v)
      | None => Raise NameError
      end
  end.

(** Runs the statements in order from the globals [env], collecting the
    library calls. *)
Fixpoint run (env : gmap string value) (prog : list (nat * stmt))
    : outcome (list event) :=
  match prog with
  | [] => Ok []
  | (cell, Assign x e) :: rest =>
      match e with
      | E_literal v => run (<[x := V_data v]> env) rest
      | E_MySentences d => run (<[x := V_MySentences d]> env) rest
      | E_MyText => run (<[x := V_MyText]> env) rest
      | E_Word2Vec arg =>
          match eval_arg env arg with
          | Ok c =>
              match run (<[x := V_model]> env) rest with
              | Ok evs => Ok (mkEvent cell Construct x c :: evs)
              | o => o
              end
          | Raise e => Raise e
          | Timeout => Timeout
          end
      | E_load _ =>
          match run (<[x := V_model]> env) rest with
          | Ok evs => Ok (mkEvent cell Load x None :: evs)
          | o => o
          end
      end
  | (cell, Call recv m arg) :: rest =>
      match env !! recv with
      | Some V_model =>
          match eval_arg env arg with
          | Ok c =>
              match run env rest with
              | Ok evs => Ok (mkEvent cell (kind_of m) recv c :: evs)
              | o => o
              end
          | Raise e => Raise e
          | Timeout => Timeout
          end
      | Some _ => Raise AttributeError
      | None => Raise NameError
      end
  end.

Definition is_kind (k : kind) (e : event) : bool :=
  match k, ev_kind e with
  | Construct, Construct | BuildVocab, BuildVocab | Train, Train
  | Inspect, Inspect | Evaluate, Evaluate | Save, Save | Load, Load
  | Query, Query => true
  | _, _ => false
  end.

Definition is_save_load (e : event) : bool := is_kind Save e || is_kind Load e.

(** No call of kind [a] precedes a call of kind [b]. *)
Definition never_precedes (a b : event -> bool) (evs : list event) : Prop :=
  forall i j e1 e2,
    evs !! i = Some e1 -> evs !! j = Some e2 -> (i < j)%nat ->
    a e1 = true -> b e2 = false.

(** The same, decided: after a call of kind [a] comes no call of kind [b]. *)
Fixpoint none_precedes (a b : event -> bool) (evs : list event) : bool :=
  match evs with
  | [] => true
  | e :: rest =>
      (if a e then negb (existsb b rest) else true)
      && none_precedes a b rest
  end.

(** The corpus values passed to the construction and training calls. *)
Definition corpora (evs : list event) : list (nat * value) :=
  omap (fun e =>
    match ev_kind e, ev_corpus e with
    | (Construct | BuildVocab | Train), Some v => Some (ev_cell e, v)
    | _, _ => None
    end) evs.

(** A corpus value is a sequence of tokenized sentences: a list of token
    lists, or one of the two iterators, which yield token lists. *)
Definition well_formed_corpus (v : value) : bool :=
  match v with
  | V_data d => is_corpus d
  | V_MySentences _ | V_MyText => true
  | V_model => false
  end.

End Cells.

(** ** States to run the cells in *)

Module Examples.
Import Posix Notebook.

(** A directory [d] that lists a subdirectory before a one-line file. *)
Definition subdir_state : state :=
  mkState {[ 0%nat := MySentences "d" ]} None
    (Dir [("d", Dir [("sub", Dir []); ("a.txt", File ("x" +:+ NL))])]) [].

(** A training file with capital letters. *)
Definition capitals_state : state :=
  mkState {[ 0%nat := MyText ]} (Some "/corpus/lee.cor")
    (Dir [("corpus",
           Dir [("lee.cor",
                 File ("Hundreds of people" +:+ NL +:+ "in New South Wales"
                       +:+ NL))])]) [].

(** A file with an empty line and a line of blanks, read by both classes. *)
Definition blanks_state : state :=
  mkState {[ 0%nat := MySentences "docs"; 1%nat := MyText ]}
    (Some "docs/a.txt")
    (Dir [("docs",
           Dir [("a.txt",
                 File ("One two" +:+ NL +:+ NL +:+ "   " +:+ NL +:+ "three"))])])
    [].

(** Neither the directory nor the training file exists. *)
Definition missing_state : state :=
  mkState {[ 0%nat := MySentences "nowhere"; 1%nat := MyText ]}
    (Some "nowhere/lee.cor") (Dir []) [].

(** The state after cells 3 and 5 have run from the blank state, and the
    address of the instance [sentences] is then bound to. *)
Definition toy_state : state := (toy_corpus blank_state).2.
Definition toy_self : nat := 0.

(** The same state with one more instance in the heap. *)
Definition busy_state : state :=
  mkState (<[ 7%nat := MyText ]> (heap toy_state)) (lee_train_file toy_state)
    (root toy_state) (cwd toy_state).

(** The state after cell 3 alone has run from the blank state. *)
Definition data_state : state := (create_toy_data sentences blank_state).2.

End Examples.

(** ** Names and flat directories *)

Module Flat.
Import Posix.

(** The string holds no "/". *)
Fixpoint no_sep (name : string) : bool :=
  match name with
  | EmptyString => true
  | String c name' => negb (Ascii.eqb c SEP) && no_sep name'
  end.

(** A name a directory entry can bear: not empty, not "." nor "..", and
    without "/". *)
Definition plain_name (name : string) : bool :=
  no_sep name && negb (is_dot name) && negb (is_dotdot name).

(** The texts of the entries of a directory when all are regular files. *)
Fixpoint file_texts (es : list (string * node)) : option (list string) :=
  match es with
  | [] => Some []
  | (_, File text) :: es' =>
      match file_texts es' with
      | Some texts => Some (text :: texts)
      | None => None
      end
  | (_, Dir _) :: _ => None
  end.

End Flat.

(** ** More states to run the cells in *)

Module MoreExamples.
Import Posix Notebook.

(** A directory [d] that lists a two-line file, then a subdirectory, then
    another file. *)
Definition late_subdir_state : state :=
  mkState {[ 0%nat := MySentences "d" ]} None
    (Dir [("d", Dir [("a.txt", File ("x y" +:+ NL +:+ "z" +:+ NL));
                     ("sub", Dir []);
                     ("b.txt", File ("w" +:+ NL))])]) [].

(** The toy data, and two instances that name its directory without and with
    a trailing "/". *)
Definition two_names_state : state :=
  mkState {[ 0%nat := MySentences "./data"; 1%nat := MySentences "./data/" ]}
    None (root Examples.toy_state) [].

(** The package directory with its training file, and an instance of
    [MyText] made before the global [lee_train_file] is bound. *)
Definition package_state : state :=
  mkState {[ 0%nat := MyText ]} None
    (Dir [("site",
           Dir [("gensim",
                 Dir [("test",
                       Dir [("test_data",
                             Dir [("lee_background.cor",
                                   File ("Hundreds of people" +:+ NL))])])])])])
    [].

(** A file where a directory is expected and a directory where a file is:
    [MySentences] is given the name of a file, [lee_train_file] that of a
    directory. *)
Definition swapped_state : state :=
  mkState {[ 0%nat := MySentences "docs/a.txt"; 1%nat := MyText ]}
    (Some "docs")
    (Dir [("docs", Dir [("a.txt", File ("One two" +:+ NL))])]) [].

(** Files that are not of the data-creation cell: one beside [./data/], one
    in it. *)
Definition bystanders_state : state :=
  mkState ∅ None
    (Dir [("notes.txt", File "n");
          ("data", Dir [("keep.txt", File "k"); ("f1.txt", File "old")])])
    [].

(** What the directory of the package holds there. *)
Definition package_entries : list (string * node) :=
  [("test",
    Dir [("test_data",
          Dir [("lee_background.cor", File ("Hundreds of people" +:+ NL))])])].

End MoreExamples.

(** ** The files of the data-creation cell *)

Module ToyFiles.
Import Posix Notebook.

(** The canonical path of the name [name] in [./data/]. *)
Definition data_path (s : state) (name : string) : list string :=
  (cwd s ++ ["data"]) ++ [name].

(** The state in which the file [name] of [./data/] holds [text]. *)
Definition with_file (s : state) (name text : string) : state :=
  OS.set_root s (put_path (data_path s name) (File text) (root s)).

(** The state in which [./data/] has been created, empty. *)
Definition with_data_dir (s : state) : state :=
  OS.set_root s (put_path (cwd s ++ ["data"]) (Dir []) (root s)).

(** The canonical paths [p] and [q] part ways: after a common prefix each
    goes on with a name of its own, so neither is above the other. *)
Fixpoint diverge (p q : list string) : bool :=
  match p, q with
  | c :: p', c' :: q' => if String.eqb c c' then diverge p' q' else true
  | _, _ => false
  end.

(** The state [s'] is [s] but for what is at, above or below the paths
    [targets]: the same instances, the same global, the same working
    directory, and the same object at every path that parts ways with each
    of the targets. *)
Definition same_outside (targets : list (list string)) (s s' : state) : Prop :=
  heap s' = heap s /\ lee_train_file s' = lee_train_file s /\ cwd s' = cwd s
  /\ forall q, Forall (fun p => diverge p q = true) targets ->
       lookup_path (root s') q = lookup_path (root s) q.

End ToyFiles.

(** ** Cell 8: the file names of the Lee corpus *)

Module LeeCorpus.
Import Posix.

(** [os.sep] on a POSIX system. *)
Definition os_sep : string := String SEP "".

(** ['{}'.format(x)] for a string [x]: the format is one replacement field
    and nothing else, and [x] takes its place. *)
Definition format_field (x : string) : string := x.

(** [sep.join(parts)] *)
Fixpoint str_join (sep : string) (parts : list string) : string :=
  match parts with
  | [] => ""
  | p :: parts' =>
      match parts' with
      | [] => p
      | _ :: _ => p +:+ sep +:+ str_join sep parts'
      end
  end.

(** Cell 8, first line. [gensim_path] is [gensim.__path__[0]], the directory
    the package is installed in. *)
Definition test_data_dir (gensim_path : string) : string :=
  str_join (format_field os_sep) [gensim_path; "test"; "test_data"] +:+ os_sep.

(** Cell 8, second line: the value of [lee_train_file]. *)
Definition lee_train_file_value (gensim_path : string) : string :=
  test_data_dir gensim_path +:+ "lee_background.cor".

(** Cell 8 as it runs: binds the global [lee_train_file]. *)
Definition set_file_names (gensim_path : string) : Py unit :=
  fun s =>
    (Ok tt,
     mkState (heap s) (Some (lee_train_file_value gensim_path)) (root s)
       (cwd s)).

(** Cells 8 and 9 in a row: the file names, then [sentences = MyText()]. *)
Definition lee_corpus (gensim_path : string) : Py nat :=
  set_file_names gensim_path ;;;
  Notebook.new_instance MyText.

End LeeCorpus.


(** ** Calls of [next] in a row *)

Module Stepping.
Import Notebook.

(** [k] calls of [next(g)] in a row: the sentences they yield, in order, and
    the generator as the last call leaves it, or [None] once it has stopped.
    An exception raised by one of the calls ends them. *)
Fixpoint advance (k : nat) (g : generator)
    : Py (list (list string) * option generator) :=
  match k with
  | O => ret ([], Some g)
  | S k' =>
      st <- next g ;;
      match st with
      | StopIteration => ret ([], None)
      | Yield sentence g' =>
          r <- advance k' g' ;;
          ret (sentence :: r.1, r.2)
      end
  end.

End Stepping.

(** * Properties *)

(** ** Strings *)

Section StringFacts.
Import PyStr.

Lemma app_cons c s t : String c s +:+ t = String c (s +:+ t).
Proof. reflexivity. Qed.

Lemma app_empty_r s : s +:+ "" = s.
Proof. induction s as [|c s IH]; [done|]. by rewrite app_cons, IH. Qed.

Lemma app_assoc_str s t u : (s +:+ t) +:+ u = s +:+ t +:+ u.
Proof. induction s as [|c s IH]; [done|]. by rewrite !app_cons, IH. Qed.

Lemma rev_to_string_app acc tail :
  rev_to_string acc tail = rev_to_string acc "" +:+ tail.
Proof.
  revert tail. induction acc as [|c acc IH]; intros tail; simpl; [done|].
  rewrite (IH (String c tail)), (IH (String c "")).
  by rewrite app_assoc_str.
Qed.

Lemma rev_to_string_rev l tok tail :
  rev_to_string (rev l ++ tok) tail
  = rev_to_string tok (string_of_list_ascii l +:+ tail).
Proof.
  revert tok. induction l as [|c l IH]; intros tok; simpl; [done|].
  by rewrite <- app_assoc, IH.
Qed.

Lemma rev_to_string_nonempty acc c tail :
  rev_to_string acc (String c tail) <> "".
Proof.
  revert c tail. induction acc as [|a acc IH]; intros c tail; simpl; [done|].
  apply IH.
Qed.

Lemma no_space_rev_to_string tok tail :
  clean tok -> no_space tail = true -> no_space (rev_to_string tok tail) = true.
Proof.
  revert tail. induction tok as [|c tok IH]; intros tail Hc Ht; simpl; [done|].
  inversion Hc as [|? ? Hcs Hrest]; subst.
  apply IH; [done|]. simpl. by rewrite Hcs, Ht.
Qed.

Lemma is_token_flush c tok :
  clean (c :: tok) -> is_token (rev_to_string (c :: tok) "") = true.
Proof.
  intros Hc.
  pose proof (no_space_rev_to_string (c :: tok) "" Hc eq_refl) as Hns.
  simpl in *. destruct (rev_to_string tok (String c "")) eqn:E; [|done].
  by apply rev_to_string_nonempty in E.
Qed.

Lemma split_from_tokens s : forall tok,
  clean tok -> Forall (fun t => is_token t = true) (split_from tok s).
Proof.
  induction s as [|c s IH]; intros tok Hc; simpl.
  - destruct tok; [constructor|].
    constructor; [by apply is_token_flush | constructor].
  - destruct (isspace c) eqn:Hsp.
    + destruct tok; simpl.
      * apply IH. constructor.
      * constructor; [by apply is_token_flush | apply IH; constructor].
    + apply IH. by constructor.
Qed.

Lemma split_tokens s : Forall (fun t => is_token t = true) (split s).
Proof. apply split_from_tokens. constructor. Qed.

Lemma tokens_cons_space c s l :
  isspace c = true ->
  whitespace_separated_tokens s l ->
  whitespace_separated_tokens (String c s) l.
Proof.
  intros Hc H. destruct H as [ws Hws | ws t rest toks Hws Ht Hb Hrest].
  - apply tokens_none. simpl. by rewrite Hc, Hws.
  - rewrite <- app_cons. apply tokens_more; try done.
    simpl. by rewrite Hc, Hws.
Qed.

Lemma split_from_sound s : forall tok,
  clean tok ->
  whitespace_separated_tokens (rev_to_string tok "" +:+ s) (split_from tok s).
Proof.
  induction s as [|c s IH]; intros tok Hc; simpl.
  - destruct tok as [|a tok]; simpl.
    + by apply tokens_none.
    + rewrite app_empty_r.
      pose proof (tokens_more "" (rev_to_string (a :: tok) "") "" []) as H.
      simpl in H. rewrite app_empty_r in H.
      apply H; try done; [by apply is_token_flush | by apply tokens_none].
  - destruct (isspace c) eqn:Hsp.
    + assert (whitespace_separated_tokens (String c s) (split_from [] s)) as Hs.
      { apply tokens_cons_space; [done|]. apply (IH []). constructor. }
      destruct tok as [|a tok]; simpl; [done|].
      apply (tokens_more "" (rev_to_string (a :: tok) "") (String c s));
        try done. by apply is_token_flush.
    + specialize (IH (c :: tok)). simpl in IH.
      rewrite (rev_to_string_app tok (String c "")), app_assoc_str in IH.
      apply IH. by constructor.
Qed.

(** [s.split()] gives the whitespace-separated tokens of [s]. *)
Lemma split_sound s : whitespace_separated_tokens s (split s).
Proof. apply (split_from_sound s []). constructor. Qed.

Lemma split_from_skip ws s :
  all_space ws = true -> split_from [] (ws +:+ s) = split_from [] s.
Proof.
  induction ws as [|c ws IH]; intros H; [done|].
  simpl in H. apply andb_prop in H as [Hc Hws].
  rewrite app_cons. simpl. rewrite Hc. simpl. by apply IH.
Qed.

Lemma split_from_take t : forall tok rest,
  no_space t = true ->
  split_from tok (t +:+ rest)
  = split_from (rev (list_ascii_of_string t) ++ tok) rest.
Proof.
  induction t as [|c t IH]; intros tok rest H; [done|].
  simpl in H. apply andb_prop in H as [Hc Ht].
  rewrite app_cons. simpl. apply negb_true_iff in Hc. rewrite Hc.
  rewrite IH by done. by rewrite <- app_assoc.
Qed.

Lemma flush_token t rest :
  t <> "" ->
  flush (rev (list_ascii_of_string t) ++ []) rest = t :: rest.
Proof.
  intros Hne. unfold flush.
  destruct (rev (list_ascii_of_string t) ++ []) as [|a l] eqn:E.
  - destruct t as [|c t]; [done|]. simpl in E.
    rewrite app_nil_r in E. by apply app_eq_nil in E as [_ ?].
  - rewrite <- E, rev_to_string_rev. simpl.
    by rewrite app_empty_r, string_of_list_ascii_of_string.
Qed.

(** The whitespace-separated tokens of a text are those [s.split()] gives,
    and no others. *)
Lemma split_complete s l : whitespace_separated_tokens s l -> split s = l.
Proof.
  unfold split. induction 1 as [ws Hws | ws t rest toks Hws Ht Hb Hrest IH].
  - rewrite <- (app_empty_r ws). by rewrite split_from_skip.
  - rewrite split_from_skip by done.
    assert (t <> "") as Hne by (by destruct t).
    assert (no_space t = true) as Hns by (by destruct t).
    rewrite split_from_take by done.
    destruct rest as [|c rest].
    + simpl in *. rewrite flush_token by done. by rewrite <- IH.
    + simpl in Hb. simpl. rewrite Hb. rewrite flush_token by done.
      f_equal. rewrite <- IH. simpl. by rewrite Hb.
Qed.

Lemma split_blank s : all_space s = true -> split s = [].
Proof. intros H. apply split_complete. by apply tokens_none. Qed.

Lemma isspace_lower_char c : isspace (lower_char c) = isspace c.
Proof.
  destruct c as [[] [] [] [] [] [] [] []]; reflexivity.
Qed.

Lemma all_space_lower s : all_space (lower s) = all_space s.
Proof.
  induction s as [|c s IH]; [done|]. simpl. by rewrite isspace_lower_char, IH.
Qed.

Lemma lines_from_readline s : forall cur,
  s <> "" ->
  lines_from cur s
  = rev_to_string cur (readline s).1 :: lines_from [] (readline s).2.
Proof.
  induction s as [|c s IH]; intros cur Hne; [done|]. simpl.
  destruct (Ascii.eqb c LF); [done|].
  destruct (Ascii.eqb c CR).
  - destruct s as [|c' s]; [done|]. by destruct (Ascii.eqb c' LF).
  - destruct s as [|c' s]; [done|].
    rewrite IH by done. by destruct (readline (String c' s)).
Qed.

End StringFacts.

(** ** The monad *)

Section MonadFacts.

Lemma read_only_ret {A} (a : A) : read_only (ret a).
Proof. by intros s. Qed.

Lemma read_only_raise {A} e : read_only (@raise A e).
Proof. by intros s. Qed.

Lemma read_only_timeout {A} : read_only (@timeout A).
Proof. by intros s. Qed.

Lemma read_only_reading {A} (f : state -> outcome A) : read_only (reading f).
Proof. by intros s. Qed.

Lemma read_only_bind {A B} (m : Py A) (k : A -> Py B) :
  read_only m -> (forall a, read_only (k a)) -> read_only (bind m k).
Proof.
  intros Hm Hk s. unfold bind. specialize (Hm s).
  destruct (m s) as [[a| |] s1]; simpl in *; subst; try done. apply Hk.
Qed.

End MonadFacts.

Create HintDb read_only.
#[local] Hint Resolve read_only_ret read_only_raise read_only_timeout
  read_only_reading : read_only.

(** ** The generators *)

Section GeneratorFacts.
Import PyStr Notebook.

Lemma file_next_none u : file_next u = None -> lines u = [].
Proof. by destruct u. Qed.

Lemma file_next_some u line rest :
  file_next u = Some (line, rest) -> lines u = line :: lines rest.
Proof.
  destruct u as [|c u]; [done|]. intros H.
  assert (readline (String c u) = (line, rest)) as E by (by injection H).
  unfold lines. rewrite lines_from_readline by done. by rewrite E.
Qed.

Lemma read_only_get_dirname self : read_only (get_dirname self).
Proof. apply read_only_reading. Qed.

Lemma read_only_get_lee_train_file : read_only get_lee_train_file.
Proof. apply read_only_reading. Qed.

Lemma read_only_listdir p : read_only (OS.listdir p).
Proof. apply read_only_reading. Qed.

Lemma read_only_open p : read_only (OS.open p).
Proof. apply read_only_reading. Qed.

Lemma read_only_path_exists p : read_only (OS.path_exists p).
Proof. apply read_only_reading. Qed.

Lemma read_only_iter self : read_only (iter self).
Proof. apply read_only_reading. Qed.

Hint Resolve read_only_get_dirname read_only_get_lee_train_file
  read_only_listdir read_only_open read_only_path_exists read_only_iter
  : read_only.

Lemma read_only_MS_outer self names : read_only (MS_outer self names).
Proof.
  induction names as [|n names IH]; simpl; [auto with read_only|].
  apply read_only_bind; [auto with read_only|]. intros d.
  apply read_only_bind; [auto with read_only|]. intros text.
  destruct (file_next text) as [[line rest]|]; auto with read_only.
Qed.

Lemma read_only_MT_loop u : read_only (MT_loop u).
Proof.
  unfold MT_loop. destruct (file_next u) as [[line rest]|]; auto with read_only.
Qed.

(** [next] leaves the interpreter state, the file system included, as it
    was. *)
Lemma read_only_next g : read_only (next g).
Proof.
  destruct g as [self|self names u| |u]; simpl; auto with read_only.
  - apply read_only_bind; [auto with read_only|]. intros d.
    apply read_only_bind; [auto with read_only|]. intros ns.
    apply read_only_MS_outer.
  - unfold MS_inner. destruct (file_next u) as [[line rest]|];
      auto using read_only_MS_outer with read_only.
  - apply read_only_bind; [auto with read_only|]. intros p.
    apply read_only_bind; [auto with read_only|]. intros text.
    apply read_only_MT_loop.
  - apply read_only_MT_loop.
Qed.

Lemma read_only_drain fuel : forall g, read_only (drain fuel g).
Proof.
  induction fuel as [|fuel IH]; intros g; simpl; [auto with read_only|].
  apply read_only_bind; [apply read_only_next|].
  intros [sentence g'|]; [|auto with read_only].
  apply read_only_bind; [apply IH|]. auto with read_only.
Qed.

Lemma read_only_list_of fuel self : read_only (list_of fuel self).
Proof.
  apply read_only_bind; [auto with read_only|].
  intros g. apply read_only_drain.
Qed.

(** More fuel does not change what a finished loop returned. *)
Lemma drain_more_fuel fuel : forall fuel' g s r s',
  drain fuel g s = (Ok r, s') -> (fuel <= fuel')%nat ->
  drain fuel' g s = (Ok r, s').
Proof.
  induction fuel as [|fuel IH]; intros fuel' g s r s' H Hle; [done|].
  destruct fuel' as [|fuel']; [lia|]. simpl in *. unfold bind in *.
  destruct (next g s) as [[[sentence g'|]| |] s1]; try done.
  destruct (drain fuel g' s1) as [[r1| |] s2] eqn:E; try done.
  by rewrite (IH fuel' g' s1 r1 s2 E) by lia.
Qed.

Lemma sentences_of_none u : file_next u = None -> sentences_of u = [].
Proof. intros H. unfold sentences_of. by rewrite (file_next_none u H). Qed.

Lemma sentences_of_some u line rest :
  file_next u = Some (line, rest) ->
  sentences_of u = split line :: sentences_of rest.
Proof.
  intros H. unfold sentences_of. by rewrite (file_next_some u line rest H).
Qed.

Lemma get_dirname_run self d s :
  heap s !! self = Some (MySentences d) -> get_dirname self s = (Ok d, s).
Proof. intros H. unfold get_dirname, reading. by rewrite H. Qed.

(** What [list] collects from a generator of [MyText.__iter__] that has the
    text [u] of its file left to read. *)
Lemma drain_MT_suspended fuel : forall u s,
  (length (lines u) < fuel)%nat ->
  drain fuel (MT_suspended u) s = (Ok (lowered_sentences_of u), s).
Proof.
  induction fuel as [|fuel IH]; intros u s Hlen; [lia|].
  simpl. unfold bind, MT_loop, lowered_sentences_of.
  destruct (file_next u) as [[line rest]|] eqn:E.
  - rewrite (file_next_some u line rest E) in *. simpl in *.
    rewrite IH by lia. done.
  - by rewrite (file_next_none u E).
Qed.

Section MySentencesRun.

Context (self : nat) (d : string) (s : state).
Hypothesis Hself : heap s !! self = Some (MySentences d).

(** The outer loop followed by the rest of [drain], given what [drain] does
    with less fuel from inside a file. *)
Lemma drain_MS_outer fuel names texts :
  opened s d names texts ->
  (forall names' texts' u,
     opened s d names' texts' ->
     (length (sentences_of u ++ concat (map sentences_of texts')) < fuel)%nat ->
     drain fuel (MS_suspended self names' u) s
     = (Ok (sentences_of u ++ concat (map sentences_of texts')), s)) ->
  (length (concat (map sentences_of texts)) < S fuel)%nat ->
  (st <- MS_outer self names ;;
   match st with
   | StopIteration => ret []
   | Yield sentence g' => r <- drain fuel g' ;; ret (sentence :: r)
   end) s
  = (Ok (concat (map sentences_of texts)), s).
Proof.
  intros Hopen Hrec. induction Hopen as [|name text names texts Ho Hrest IH];
    intros Hlen; [done|].
  simpl in *. unfold bind in *. rewrite (get_dirname_run self d s Hself), Ho.
  destruct (file_next text) as [[line rest]|] eqn:E.
  - rewrite (sentences_of_some text line rest E) in *. simpl in *.
    rewrite (Hrec names texts rest Hrest) by lia. done.
  - rewrite (sentences_of_none text E) in *. simpl in *. by apply IH.
Qed.

Lemma drain_MS_suspended fuel : forall names texts u,
  opened s d names texts ->
  (length (sentences_of u ++ concat (map sentences_of texts)) < fuel)%nat ->
  drain fuel (MS_suspended self names u) s
  = (Ok (sentences_of u ++ concat (map sentences_of texts)), s).
Proof.
  induction fuel as [|fuel IH]; intros names texts u Hopen Hlen; [lia|].
  simpl drain. unfold next, MS_inner.
  destruct (file_next u) as [[line rest]|] eqn:E.
  - rewrite (sentences_of_some u line rest E) in *. simpl in *.
    unfold bind, ret. rewrite (IH names texts rest Hopen) by lia. done.
  - rewrite (sentences_of_none u E) in *. simpl in Hlen |- *.
    apply drain_MS_outer; [done| |lia].
    intros names' texts' u' Hopen' Hlen'. by apply IH.
Qed.

(** [list(MySentences(d))] when the listing succeeds and every name opens. *)
Lemma list_of_MySentences fuel names texts :
  OS.listdir d s = (Ok names, s) ->
  opened s d names texts ->
  (length (concat (map sentences_of texts)) < fuel)%nat ->
  list_of fuel self s = (Ok (concat (map sentences_of texts)), s).
Proof.
  intros Hls Hopen Hlen. destruct fuel as [|fuel]; [lia|].
  unfold list_of, iter, reading. unfold bind at 1. rewrite Hself.
  simpl drain. unfold next. unfold bind at 1. unfold bind at 1.
  rewrite (get_dirname_run self d s Hself).
  unfold bind at 1. rewrite Hls.
  apply (drain_MS_outer fuel names texts Hopen); [|done].
  intros names' texts' u Hopen' Hlen'. by apply drain_MS_suspended.
Qed.

End MySentencesRun.

(** [list(MyText())] when the training file opens. *)
Lemma list_of_MyText fuel self s p text :
  heap s !! self = Some MyText ->
  lee_train_file s = Some p ->
  OS.open p s = (Ok text, s) ->
  (length (lines text) < fuel)%nat ->
  list_of fuel self s = (Ok (lowered_sentences_of text), s).
Proof.
  intros Hself Hp Hopen Hlen. destruct fuel as [|fuel]; [lia|].
  unfold list_of, iter, reading. unfold bind at 1. rewrite Hself.
  simpl drain. unfold next, get_lee_train_file, reading.
  unfold bind at 1. unfold bind at 1. unfold bind at 1. rewrite Hp.
  unfold bind at 1. rewrite Hopen.
  pose proof (drain_MT_suspended (S fuel) text s Hlen) as H.
  simpl in H. exact H.
Qed.

End GeneratorFacts.

#[local] Hint Resolve read_only_get_dirname read_only_get_lee_train_file
  read_only_listdir read_only_open read_only_path_exists read_only_iter
  : read_only.

(** ** The file system *)

Section FileSystemFacts.
Import Posix.

Lemma find_set_entry_same name f es :
  find_entry name (set_entry name f es) = Some (f (find_entry name es)).
Proof.
  induction es as [|[k v] es IH]; simpl.
  - by rewrite String.eqb_refl.
  - destruct (String.eqb k name) eqn:E; simpl; rewrite E; [done | apply IH].
Qed.

Lemma find_set_entry_other name name' f es :
  name <> name' ->
  find_entry name' (set_entry name f es) = find_entry name' es.
Proof.
  intros Hne. apply String.eqb_neq in Hne.
  induction es as [|[k v] es IH]; simpl.
  - by rewrite Hne.
  - destruct (String.eqb k name) eqn:E; simpl.
    + apply String.eqb_eq in E as ->. by rewrite Hne.
    + destruct (String.eqb k name'); [done | apply IH].
Qed.

(** A name put into an existing directory is found there. *)
Lemma lookup_put_new q : forall r es c new,
  lookup_path r q = Some (Dir es) ->
  lookup_path (put_path (q ++ [c]) new r) (q ++ [c]) = Some new.
Proof.
  induction q as [|a q IH]; intros r es c new H; simpl in *.
  - injection H as ->. by rewrite find_set_entry_same.
  - destruct r as [|es0]; [done|].
    destruct (find_entry a es0) as [child|] eqn:E; [|done].
    rewrite find_set_entry_same, E. simpl. by eapply IH.
Qed.

(** The other names of that directory are as they were. *)
Lemma lookup_put_other q : forall r es c c' rest new,
  lookup_path r q = Some (Dir es) -> c <> c' ->
  lookup_path (put_path (q ++ [c]) new r) (q ++ c' :: rest)
  = lookup_path r (q ++ c' :: rest).
Proof.
  induction q as [|a q IH]; intros r es c c' rest new H Hne; simpl in *.
  - injection H as ->. by rewrite find_set_entry_other.
  - destruct r as [|es0]; [done|].
    destruct (find_entry a es0) as [child|] eqn:E; [|done].
    rewrite find_set_entry_same, E. simpl. by eapply IH.
Qed.

(** The directories above it are still directories. *)
Lemma lookup_put_above q1 : forall q2 r es c new,
  lookup_path r (q1 ++ q2) = Some (Dir es) ->
  exists es',
    lookup_path (put_path ((q1 ++ q2) ++ [c]) new r) q1 = Some (Dir es').
Proof.
  induction q1 as [|a q1 IH]; intros q2 r es c new H; simpl in *.
  - destruct q2 as [|b q2]; simpl in *.
    + injection H as ->. eauto.
    + destruct r as [|es0]; [done|]. eauto.
  - destruct r as [|es0]; [done|].
    destruct (find_entry a es0) as [child|] eqn:E; [|done].
    rewrite find_set_entry_same, E. simpl. by eapply IH.
Qed.

Lemma walk_outcome r : forall comps cur,
  (exists cp, walk r cur comps = Ok cp)
  \/ (exists e, walk r cur comps = Raise e /\ is_OSError e = true).
Proof.
  induction comps as [|c comps IH]; intros cur; simpl; [eauto|].
  destruct (lookup_path r cur) as [[|es]|]; [eauto..| |eauto].
  destruct (is_dot c); [apply IH|]. destruct (is_dotdot c); apply IH.
Qed.

(** A path resolves, or resolution raises an [OSError]. *)
Lemma resolve_outcome s p :
  (exists r, OS.resolve s p = Ok r)
  \/ (exists e, OS.resolve s p = Raise e /\ is_OSError e = true).
Proof.
  unfold OS.resolve. destruct (String.eqb p ""); [eauto|].
  destruct (walk_outcome (root s) (components p) (OS.start s p))
    as [[cp ->]|[e [-> He]]]; [|eauto].
  destruct (lookup_path (root s) cp); eauto.
Qed.

(** What does not exist cannot be listed nor opened. *)
Lemma missing_raises s p :
  OS.path_exists p s = (Ok false, s) ->
  exists e, is_OSError e = true
    /\ OS.listdir p s = (Raise e, s) /\ OS.open p s = (Raise e, s).
Proof.
  unfold OS.path_exists, OS.listdir, OS.open, reading. intros H.
  destruct (resolve_outcome s p) as [[r Hr]|[e [Hr He]]]; rewrite Hr in *.
  - done.
  - eauto.
Qed.

End FileSystemFacts.

(** ** The data-creation cell *)

Section ToyData.
Import Posix Notebook.

(** What is below a name just put is what was put there. *)
Lemma lookup_put_below q : forall r es c new rest,
  lookup_path r q = Some (Dir es) ->
  lookup_path (put_path (q ++ [c]) new r) ((q ++ [c]) ++ rest)
  = lookup_path new rest.
Proof.
  induction q as [|a q IH]; intros r es c new rest H; simpl in *.
  - injection H as ->. by rewrite find_set_entry_same.
  - destruct r as [|es0]; [done|].
    destruct (find_entry a es0) as [child|] eqn:E; [|done].
    rewrite find_set_entry_same, E. simpl. by eapply IH.
Qed.

Lemma put_data_file s name text :
  has_data_dir s ->
  let s' := OS.set_root s
    (put_path ((cwd s ++ ["data"]) ++ [name]) (File text) (root s)) in
  has_data_dir s' /\ has_data_file s' name text
  /\ (forall name', name <> name' ->
        lookup_path (root s') ((cwd s ++ ["data"]) ++ [name'])
        = lookup_path (root s) ((cwd s ++ ["data"]) ++ [name'])).
Proof.
  intros [[es0 H0] [es H]]. simpl. split; [split|split].
  - apply (lookup_put_above (cwd s) ["data"] (root s) es name (File text) H).
  - simpl. rewrite <- (app_nil_r (cwd s ++ ["data"])) in H.
    destruct (lookup_put_above _ [] (root s) es name (File text) H) as [es' H'].
    rewrite app_nil_r in H'. eauto.
  - unfold has_data_file. simpl. by eapply lookup_put_new.
  - intros name' Hne. by rewrite (lookup_put_other _ _ es).
Qed.

Lemma walk_data r cur name es0 es :
  lookup_path r cur = Some (Dir es0) ->
  lookup_path r (cur ++ ["data"]) = Some (Dir es) ->
  is_dot name = false -> is_dotdot name = false ->
  walk r cur ["."; "data"; name] = Ok ((cur ++ ["data"]) ++ [name]).
Proof.
  intros H0 H Hd Hdd. simpl. rewrite H0. simpl. rewrite ?H0. simpl.
  by rewrite ?H, ?Hd, ?Hdd.
Qed.

Lemma open_data_file s p name text :
  has_data_dir s -> in_data_dir p name -> has_data_file s name text ->
  OS.open p s = (Ok text, s).
Proof.
  intros [[es0 H0] [es H]] (Hp & Habs & Hcomps & Hd & Hdd) Hfile.
  unfold OS.open, reading, OS.resolve, OS.start.
  rewrite Hp, Habs, Hcomps, (walk_data _ _ _ es0 es) by done.
  by rewrite Hfile.
Qed.

(** Opening a file of [./data/] for writing: it succeeds unless the name is
    that of a directory, and leaves the file empty and the other names as
    they were. *)
Lemma smart_open_data s p name :
  has_data_dir s -> in_data_dir p name ->
  match lookup_path (root s) ((cwd s ++ ["data"]) ++ [name]) with
  | Some (Dir _) => OS.smart_open p s = (Raise IsADirectoryError, s)
  | _ =>
      exists s2,
        OS.smart_open p s = (Ok ((cwd s ++ ["data"]) ++ [name]), s2)
        /\ cwd s2 = cwd s /\ has_data_dir s2 /\ has_data_file s2 name ""
        /\ (forall name', name <> name' ->
              lookup_path (root s2) ((cwd s ++ ["data"]) ++ [name'])
              = lookup_path (root s) ((cwd s ++ ["data"]) ++ [name']))
  end.
Proof.
  intros Hdir (Hp & Habs & Hcomps & Hd & Hdd).
  pose proof Hdir as [[es0 H0] [es H]].
  unfold OS.smart_open, OS.start.
  rewrite Hp, Habs, Hcomps, (walk_data _ _ _ es0 es) by done.
  pose proof (put_data_file s name "" Hdir) as Hput. simpl in Hput.
  destruct (lookup_path (root s) ((cwd s ++ ["data"]) ++ [name]))
    as [[c|es1]|]; [|done|]; eexists; (split; [reflexivity|done]).
Qed.

(** The inner loop of the cell appends its lines to the file. *)
Lemma write_lines_data name ls : forall s text,
  has_data_dir s -> has_data_file s name text ->
  exists s', write_lines ((cwd s ++ ["data"]) ++ [name]) ls s = (Ok tt, s')
    /\ cwd s' = cwd s /\ has_data_dir s'
    /\ has_data_file s' name (text +:+ text_of_lines ls)
    /\ (forall name', name <> name' ->
          lookup_path (root s') ((cwd s ++ ["data"]) ++ [name'])
          = lookup_path (root s) ((cwd s ++ ["data"]) ++ [name'])).
Proof.
  induction ls as [|l ls IH]; intros s text Hdir Hfile; simpl.
  - exists s. rewrite app_empty_r. done.
  - unfold bind, OS.write at 1. rewrite Hfile.
    destruct (put_data_file s name (text +:+ l +:+ NL) Hdir)
      as (Hdir1 & Hfile1 & Hothers1).
    destruct (IH _ _ Hdir1 Hfile1) as (s' & Hrun & Hcwd & Hdir' & Hfile' & Ho).
    simpl in Hrun, Hcwd, Ho. exists s'. rewrite Hrun.
    rewrite !app_assoc_str in Hfile'.
    split; [done|]. split; [done|]. split; [done|]. split; [done|].
    intros name' Hne. by rewrite Ho, Hothers1.
Qed.

(** One turn of the outer loop of the cell, without what follows it. *)
Lemma write_file_data s p name ls :
  has_data_dir s -> in_data_dir p name ->
  match lookup_path (root s) ((cwd s ++ ["data"]) ++ [name]) with
  | Some (Dir _) => OS.smart_open p s = (Raise IsADirectoryError, s)
  | _ =>
      exists s2 s',
        OS.smart_open p s = (Ok ((cwd s ++ ["data"]) ++ [name]), s2)
        /\ write_lines ((cwd s ++ ["data"]) ++ [name]) ls s2 = (Ok tt, s')
        /\ cwd s' = cwd s /\ has_data_dir s'
        /\ has_data_file s' name (text_of_lines ls)
        /\ (forall name', name <> name' ->
              lookup_path (root s') ((cwd s ++ ["data"]) ++ [name'])
              = lookup_path (root s) ((cwd s ++ ["data"]) ++ [name']))
  end.
Proof.
  intros Hdir Hin. pose proof (smart_open_data s p name Hdir Hin) as Hopen.
  destruct (lookup_path (root s) ((cwd s ++ ["data"]) ++ [name]))
    as [[c|es1]|]; [|done|];
    destruct Hopen as (s2 & Ho & Hcwd2 & Hdir2 & Hfile2 & Hkeep2);
    destruct (write_lines_data name ls s2 "" Hdir2 Hfile2)
      as (s' & Hw & Hcwd' & Hdir' & Hfile' & Hkeep');
    rewrite Hcwd2 in Hw, Hkeep'; exists s2, s';
    (split; [done|]; split; [done|]; split; [congruence|];
     split; [done|]; split; [done|]);
    intros name' Hne; by rewrite Hkeep', Hkeep2.
Qed.

Lemma makedirs_data s :
  match lookup_path (root s) (cwd s), lookup_path (root s) (cwd s ++ ["data"])
  with
  | Some (Dir _), None =>
      exists s1,
        OS.makedirs "./data/" s = (Ok tt, s1)
        /\ cwd s1 = cwd s /\ has_data_dir s1
        /\ (forall rest,
              lookup_path (root s1) ((cwd s ++ ["data"]) ++ rest)
              = lookup_path (Dir []) rest)
  | _, _ => exists e, OS.makedirs "./data/" s = (Raise e, s)
  end.
Proof.
  unfold OS.makedirs, OS.start. simpl String.eqb. simpl is_absolute.
  change (strip_trailing (components "./data/")) with ["."; "data"].
  simpl. destruct (lookup_path (root s) (cwd s)) as [[c|es0]|] eqn:H0;
    [eauto| |eauto].
  simpl. rewrite ?H0. simpl.
  destruct (lookup_path (root s) (cwd s ++ ["data"])) as [n|] eqn:H;
    [eauto|].
  eexists. split; [reflexivity|]. split; [done|]. split; [split|]; simpl.
  - rewrite <- (app_nil_r (cwd s)) in H0.
    destruct (lookup_put_above _ [] (root s) es0 "data" (Dir []) H0) as [es' H'].
    rewrite app_nil_r in H'. eauto.
  - exists []. by eapply lookup_put_new.
  - intros rest. by eapply lookup_put_below.
Qed.

Lemma path_exists_data s :
  OS.path_exists "./data/" s = (Ok true, s) <-> has_data_dir s.
Proof.
  unfold OS.path_exists, reading, OS.resolve, OS.start, has_data_dir.
  simpl String.eqb. simpl is_absolute.
  change (components "./data/") with ["."; "data"; ""]. simpl.
  destruct (lookup_path (root s) (cwd s)) as [[c|es0]|] eqn:H0; simpl;
    try (split; [done | by intros [[? ?] _]]).
  rewrite ?H0.
  destruct (lookup_path (root s) (cwd s ++ ["data"])) as [[c|es]|] eqn:H;
    simpl; try rewrite H; try (split; [done | by intros [_ [? ?]]]).
  split; eauto.
Qed.

Lemma path_exists_bool s : exists e, OS.path_exists "./data/" s = (Ok e, s).
Proof.
  unfold OS.path_exists, reading. destruct (OS.resolve s "./data/"); eauto.
Qed.

Lemma listdir_data s :
  has_data_dir s -> exists names, OS.listdir "./data/" s = (Ok names, s).
Proof.
  intros [[es0 H0] [es H]].
  unfold OS.listdir, reading, OS.resolve, OS.start.
  simpl String.eqb. simpl is_absolute.
  change (components "./data/") with ["."; "data"; ""]. simpl.
  rewrite ?H0. simpl. rewrite ?H0. simpl. rewrite ?H. simpl. rewrite ?H. eauto.
Qed.

Lemma in_data_dir_f1 : in_data_dir "./data/f1.txt" "f1.txt".
Proof. by repeat split. Qed.

Lemma in_data_dir_f2 : in_data_dir "./data/f2.txt" "f2.txt".
Proof. by repeat split. Qed.

(** The loop over the two file names, from a state in which [./data/] is
    a directory: it raises when one of the names is a directory, and else
    leaves the two files with the words of the two sentences. *)
Lemma write_files_data s :
  has_data_dir s ->
  match lookup_path (root s) ((cwd s ++ ["data"]) ++ ["f1.txt"]),
        lookup_path (root s) ((cwd s ++ ["data"]) ++ ["f2.txt"])
  with
  | Some (Dir _), _ | _, Some (Dir _) =>
      exists s1, write_files 0 filenames sentences s
                 = (Raise IsADirectoryError, s1)
  | _, _ =>
      exists s', write_files 0 filenames sentences s = (Ok tt, s')
        /\ cwd s' = cwd s /\ has_data_dir s'
        /\ has_data_file s' "f1.txt" (text_of_lines ["first"; "sentence"])
        /\ has_data_file s' "f2.txt" (text_of_lines ["second"; "sentence"])
  end.
Proof.
  intros Hdir.
  pose proof (write_file_data s "./data/f1.txt" "f1.txt" ["first"; "sentence"]
                Hdir in_data_dir_f1) as H1.
  assert (forall s3,
    cwd s3 = cwd s -> has_data_dir s3 ->
    has_data_file s3 "f1.txt" (text_of_lines ["first"; "sentence"]) ->
    lookup_path (root s3) ((cwd s ++ ["data"]) ++ ["f2.txt"])
    = lookup_path (root s) ((cwd s ++ ["data"]) ++ ["f2.txt"]) ->
    match lookup_path (root s) ((cwd s ++ ["data"]) ++ ["f2.txt"]) with
    | Some (Dir _) =>
        exists s1, write_files 1 ["./data/f2.txt"] sentences s3
                   = (Raise IsADirectoryError, s1)
    | _ =>
        exists s', write_files 1 ["./data/f2.txt"] sentences s3 = (Ok tt, s')
          /\ cwd s' = cwd s /\ has_data_dir s'
          /\ has_data_file s' "f1.txt" (text_of_lines ["first"; "sentence"])
          /\ has_data_file s' "f2.txt" (text_of_lines ["second"; "sentence"])
    end) as Hsecond.
  { intros s3 Hcwd3 Hdir3 Hfile3 Hsame.
    pose proof (write_file_data s3 "./data/f2.txt" "f2.txt"
                  ["second"; "sentence"] Hdir3 in_data_dir_f2) as H2.
    rewrite Hcwd3, Hsame in H2. simpl write_files.
    destruct (lookup_path (root s) ((cwd s ++ ["data"]) ++ ["f2.txt"]))
      as [[c|es2]|].
    - destruct H2 as (s4 & s' & Ho & Hw & Hcwd' & Hdir' & Hfile' & Hkeep').
      exists s'. unfold bind at 1. rewrite Ho. unfold bind at 1. simpl.
      unfold bind at 1. simpl in Hw. rewrite Hw.
      split; [done|]. split; [congruence|]. split; [done|]. split; [|done].
      unfold has_data_file in *. rewrite Hcwd', Hkeep' by done.
      by rewrite Hcwd3 in Hfile3.
    - exists s3. unfold bind at 1. by rewrite H2.
    - destruct H2 as (s4 & s' & Ho & Hw & Hcwd' & Hdir' & Hfile' & Hkeep').
      exists s'. unfold bind at 1. rewrite Ho. unfold bind at 1. simpl.
      unfold bind at 1. simpl in Hw. rewrite Hw.
      split; [done|]. split; [congruence|]. split; [done|]. split; [|done].
      unfold has_data_file in *. rewrite Hcwd', Hkeep' by done.
      by rewrite Hcwd3 in Hfile3. }
  destruct (lookup_path (root s) ((cwd s ++ ["data"]) ++ ["f1.txt"]))
    as [[c|es1]|].
  - destruct H1 as (s2 & s3 & Ho & Hw & Hcwd3 & Hdir3 & Hfile3 & Hkeep3).
    specialize (Hsecond s3 Hcwd3 Hdir3 Hfile3 (Hkeep3 "f2.txt" ltac:(done))).
    assert (write_files 0 filenames sentences s
            = write_files 1 ["./data/f2.txt"] sentences s3) as ->.
    { change (write_files 0 filenames sentences s)
        with ((fout <- OS.smart_open "./data/f1.txt" ;;
               sent <- index sentences 0 ;;
               write_lines fout sent ;;;
               write_files 1 ["./data/f2.txt"] sentences) s).
      unfold bind at 1. rewrite Ho. unfold bind at 1.
      change (index sentences 0 s2) with (Ok ["first"; "sentence"], s2).
      cbv beta iota. unfold bind at 1. by rewrite Hw. }
    by destruct (lookup_path (root s) ((cwd s ++ ["data"]) ++ ["f2.txt"]))
      as [[c2|es2]|].
  - assert (write_files 0 filenames sentences s
            = (Raise IsADirectoryError, s)) as ->.
    { change (write_files 0 filenames sentences s)
        with ((fout <- OS.smart_open "./data/f1.txt" ;;
               sent <- index sentences 0 ;;
               write_lines fout sent ;;;
               write_files 1 ["./data/f2.txt"] sentences) s).
      unfold bind at 1. by rewrite H1. }
    destruct (lookup_path (root s) ((cwd s ++ ["data"]) ++ ["f2.txt"]))
      as [[c2|es2]|]; eauto.
  - destruct H1 as (s2 & s3 & Ho & Hw & Hcwd3 & Hdir3 & Hfile3 & Hkeep3).
    specialize (Hsecond s3 Hcwd3 Hdir3 Hfile3 (Hkeep3 "f2.txt" ltac:(done))).
    assert (write_files 0 filenames sentences s
            = write_files 1 ["./data/f2.txt"] sentences s3) as ->.
    { change (write_files 0 filenames sentences s)
        with ((fout <- OS.smart_open "./data/f1.txt" ;;
               sent <- index sentences 0 ;;
               write_lines fout sent ;;;
               write_files 1 ["./data/f2.txt"] sentences) s).
      unfold bind at 1. rewrite Ho. unfold bind at 1.
      change (index sentences 0 s2) with (Ok ["first"; "sentence"], s2).
      cbv beta iota. unfold bind at 1. by rewrite Hw. }
    by destruct (lookup_path (root s) ((cwd s ++ ["data"]) ++ ["f2.txt"]))
      as [[c2|es2]|].
Qed.

(** The cell as a whole. It runs to its end from a state in which the
    working directory exists and [data] is either absent or a directory in
    which neither [f1.txt] nor [f2.txt] is a directory. *)
Lemma create_toy_data_runs s :
  can_create_toy_data s ->
  exists s', create_toy_data sentences s = (Ok tt, s').
Proof.
  intros [[es0 H0] Hdata]. unfold create_toy_data. unfold bind at 1.
  destruct (lookup_path (root s) (cwd s ++ ["data"])) as [[c|es]|] eqn:H;
    [done| |].
  - assert (has_data_dir s) as Hdir by (split; eauto).
    rewrite (proj2 (path_exists_data s) Hdir). unfold bind at 1. simpl.
    pose proof (write_files_data s Hdir) as Hw. destruct Hdata as [Hn1 Hn2].
    destruct (lookup_path (root s) ((cwd s ++ ["data"]) ++ ["f1.txt"]))
      as [[c1|es1]|];
      destruct (lookup_path (root s) ((cwd s ++ ["data"]) ++ ["f2.txt"]))
        as [[c2|es2]|]; try done;
      destruct Hw as (s' & Hw & _); eauto.
  - destruct (path_exists_bool s) as [e He]. rewrite He.
    destruct e.
    { apply path_exists_data in He as [_ [es Hes]]. congruence. }
    unfold bind at 1. pose proof (makedirs_data s) as Hmk.
    rewrite H0, H in Hmk.
    destruct Hmk as (s1 & Hmk & Hcwd1 & Hdir1 & Hbelow). rewrite Hmk.
    pose proof (write_files_data s1 Hdir1) as Hw.
    rewrite Hcwd1, !Hbelow in Hw. simpl in Hw.
    destruct Hw as (s' & Hw & _). eauto.
Qed.

(** After the cell has run, [./data/] is a directory and the two files hold
    the words of the two sentences, one on each line. *)
Lemma create_toy_data_post s s' :
  create_toy_data sentences s = (Ok tt, s') ->
  cwd s' = cwd s /\ has_data_dir s'
  /\ has_data_file s' "f1.txt" (text_of_lines ["first"; "sentence"])
  /\ has_data_file s' "f2.txt" (text_of_lines ["second"; "sentence"]).
Proof.
  unfold create_toy_data. unfold bind at 1.
  destruct (path_exists_bool s) as [e He]. rewrite He. unfold bind at 1.
  assert (forall s1, cwd s1 = cwd s -> has_data_dir s1 ->
            write_files 0 filenames sentences s1 = (Ok tt, s') ->
            cwd s' = cwd s /\ has_data_dir s'
            /\ has_data_file s' "f1.txt" (text_of_lines ["first"; "sentence"])
            /\ has_data_file s' "f2.txt" (text_of_lines ["second"; "sentence"]))
    as Hloop.
  { intros s1 Hcwd1 Hdir1 Hrun.
    pose proof (write_files_data s1 Hdir1) as Hw. rewrite Hrun in Hw.
    destruct (lookup_path (root s1) ((cwd s1 ++ ["data"]) ++ ["f1.txt"]))
      as [[c1|es1]|];
      destruct (lookup_path (root s1) ((cwd s1 ++ ["data"]) ++ ["f2.txt"]))
        as [[c2|es2]|];
      destruct Hw as [s'' Hw]; try done;
      destruct Hw as (Hw & Hc & ? & ? & ?); injection Hw as ->;
      (split; [congruence | done]). }
  destruct e.
  - simpl. apply Hloop; [done|]. by apply path_exists_data.
  - pose proof (makedirs_data s) as Hmk.
    destruct (lookup_path (root s) (cwd s)) as [[c|es0]|];
      try (destruct Hmk as [e Hmk]; by rewrite Hmk).
    destruct (lookup_path (root s) (cwd s ++ ["data"])) as [n|];
      try (destruct Hmk as [e Hmk]; by rewrite Hmk).
    destruct Hmk as (s1 & Hmk & Hcwd1 & Hdir1 & _). rewrite Hmk.
    by apply Hloop.
Qed.

End ToyData.

(** ** The sentence iterators *)

Section IteratorFacts.
Import PyStr Notebook.

Lemma list_of_more_fuel fuel fuel' self s r s' :
  list_of fuel self s = (Ok r, s') -> (fuel <= fuel')%nat ->
  list_of fuel' self s = (Ok r, s').
Proof.
  unfold list_of, bind. destruct (iter self s) as [[g| |] s1]; try done.
  intros H Hle. by apply (drain_more_fuel fuel).
Qed.

(** Two complete iterations from the same state collect the same sentences,
    whatever fuel each was given. *)
Lemma list_of_agree fuel1 fuel2 self s r1 s1 r2 s2 :
  list_of fuel1 self s = (Ok r1, s1) ->
  list_of fuel2 self s = (Ok r2, s2) ->
  r1 = r2.
Proof.
  intros H1 H2.
  apply (list_of_more_fuel _ (max fuel1 fuel2)) in H1; [|lia].
  apply (list_of_more_fuel _ (max fuel1 fuel2)) in H2; [|lia].
  congruence.
Qed.

Lemma bind_same {A B} (m : Py A) (k : A -> Py B) s t :
  read_only m -> (m s).1 = (m t).1 ->
  (forall a, (k a s).1 = (k a t).1) ->
  (bind m k s).1 = (bind m k t).1.
Proof.
  intros Hro Hm Hk. unfold bind.
  pose proof (Hro s) as Hs. pose proof (Hro t) as Ht.
  destruct (m s) as [o s1], (m t) as [o' t1]. simpl in *. subst.
  destruct o'; [apply Hk | done..].
Qed.

Lemma resolve_same self s t p :
  same_inputs self s t -> OS.resolve s p = OS.resolve t p.
Proof.
  intros (_ & _ & Hroot & Hcwd). unfold OS.resolve, OS.start.
  by rewrite Hroot, Hcwd.
Qed.

Lemma MS_outer_same self names s t :
  same_inputs self s t -> (MS_outer self names s).1 = (MS_outer self names t).1.
Proof.
  intros Hsame. induction names as [|n names IH]; simpl; [done|].
  apply bind_same; [auto with read_only| |].
  { destruct Hsame as [Hh _]. unfold get_dirname, reading. by rewrite Hh. }
  intros d. apply bind_same; [auto with read_only| |].
  { unfold OS.open, reading. by rewrite (resolve_same self s t). }
  intros text. by destruct (file_next text) as [[line rest]|].
Qed.

Lemma next_same self g s t :
  same_inputs self s t ->
  match g with
  | MS_created self' | MS_suspended self' _ _ => self' = self
  | _ => True
  end ->
  (next g s).1 = (next g t).1.
Proof.
  intros Hsame Hg. destruct g as [self'|self' names u| |u]; simpl.
  - subst. apply bind_same; [auto with read_only| |].
    { destruct Hsame as [Hh _]. unfold get_dirname, reading. by rewrite Hh. }
    intros d. apply bind_same; [auto with read_only| |].
    { unfold OS.listdir, reading. by rewrite (resolve_same self s t). }
    intros names. by apply MS_outer_same.
  - subst. unfold MS_inner. destruct (file_next u) as [[line rest]|]; [done|].
    by apply MS_outer_same.
  - apply bind_same; [auto with read_only| |].
    { destruct Hsame as (_ & Hl & _).
      unfold get_lee_train_file, reading. by rewrite Hl. }
    intros p. apply bind_same; [auto with read_only| |].
    { unfold OS.open, reading. by rewrite (resolve_same self s t). }
    intros text. unfold MT_loop. by destruct (file_next text) as [[line rest]|].
  - unfold MT_loop. by destruct (file_next u) as [[line rest]|].
Qed.

(** A generator of the instance at [self] stays one of that instance. *)
Lemma MS_outer_owner self names s st s' :
  MS_outer self names s = (Ok st, s') ->
  match st with
  | Yield _ (MS_suspended self' _ _) => self' = self
  | Yield _ (MS_created _) => False
  | _ => True
  end.
Proof.
  revert s. induction names as [|n names IH]; intros s; simpl.
  - by intros [= <- _].
  - unfold bind. destruct (get_dirname self s) as [[d| |] s1]; try done.
    destruct (OS.open (Posix.join d n) s1) as [[text| |] s2]; try done.
    destruct (file_next text) as [[line rest]|]; [|apply IH].
    by intros [= <- _].
Qed.

Lemma drain_same self fuel : forall g s t,
  same_inputs self s t ->
  match g with
  | MS_created self' | MS_suspended self' _ _ => self' = self
  | _ => True
  end ->
  (drain fuel g s).1 = (drain fuel g t).1.
Proof.
  induction fuel as [|fuel IH]; intros g s t Hsame Hg; [done|]. simpl.
  pose proof (next_same self g s t Hsame Hg) as Hnext.
  pose proof (read_only_next g s) as Hs. pose proof (read_only_next g t) as Ht.
  unfold bind. destruct (next g s) as [o s1] eqn:Es, (next g t) as [o' t1].
  simpl in *. subst. destruct o' as [[sentence g'|]| |]; try done.
  assert (match g' with
          | MS_created self' | MS_suspended self' _ _ => self' = self
          | _ => True
          end) as Hg'.
  { destruct g as [self'|self' names u| |u]; simpl in Es.
    - subst. unfold bind in Es.
      destruct (get_dirname self s) as [[d| |] s1]; try done.
      destruct (OS.listdir d s1) as [[names| |] s2]; try done.
      apply MS_outer_owner in Es. by destruct g'.
    - subst. unfold MS_inner in Es.
      destruct (file_next u) as [[line rest]|].
      + by injection Es as <- <-.
      + apply MS_outer_owner in Es. by destruct g'.
    - unfold bind in Es.
      destruct (get_lee_train_file s) as [[p| |] s1]; try done.
      destruct (OS.open p s1) as [[text| |] s2]; try done.
      unfold MT_loop in Es. destruct (file_next text) as [[line rest]|];
        [|done]. by injection Es as <- <-.
    - unfold MT_loop in Es. destruct (file_next u) as [[line rest]|];
        [|done]. by injection Es as <- <-. }
  specialize (IH g' s t Hsame Hg').
  pose proof (read_only_drain fuel g' s) as Hs.
  pose proof (read_only_drain fuel g' t) as Ht.
  destruct (drain fuel g' s) as [r s1], (drain fuel g' t) as [r' t1].
  simpl in *. subst. by destruct r'.
Qed.

(** What an iteration collects depends on the state through its inputs
    only. *)
Lemma list_of_same self fuel s t :
  same_inputs self s t -> (list_of fuel self s).1 = (list_of fuel self t).1.
Proof.
  intros Hsame. pose proof Hsame as [Hh _].
  unfold list_of, bind, iter, reading. rewrite Hh.
  destruct (heap t !! self) as [[d|]|]; [| |done].
  - by apply (drain_same self).
  - by apply (drain_same self).
Qed.

Lemma concat_sentences_of texts :
  concat (map sentences_of texts) = map split (concat (map lines texts)).
Proof.
  induction texts as [|t texts IH]; [done|].
  simpl. by rewrite map_app, IH.
Qed.

Lemma Forall2_split ls :
  Forall2 whitespace_separated_tokens ls (map split ls).
Proof.
  induction ls as [|l ls IH]; constructor; [apply split_sound | done].
Qed.

Lemma Forall2_split_lower ls :
  Forall2 (fun line sent => whitespace_separated_tokens (lower line) sent)
    ls (map (fun line => split (lower line)) ls).
Proof.
  induction ls as [|l ls IH]; constructor; [apply split_sound | done].
Qed.

Lemma MS_outer_yields self : forall names s sent g' s',
  MS_outer self names s = (Ok (Yield sent g'), s') ->
  exists line, sent = split line.
Proof.
  induction names as [|n names IH]; intros s sent g' s'; simpl; [done|].
  unfold bind. destruct (get_dirname self s) as [[d| |] s1]; try done.
  destruct (OS.open (Posix.join d n) s1) as [[text| |] s2]; try done.
  destruct (file_next text) as [[line rest]|]; [|apply IH].
  intros [= <- _ _]. eauto.
Qed.

Lemma MT_loop_yields u s sent g' s' :
  MT_loop u s = (Ok (Yield sent g'), s') ->
  exists line, sent = split (lower line).
Proof.
  unfold MT_loop. destruct (file_next u) as [[line rest]|]; [|done].
  intros [= <- _ _]. eauto.
Qed.

(** Whatever [next] yields is some string split at whitespace. *)
Lemma next_yields_split g s sent g' s' :
  next g s = (Ok (Yield sent g'), s') -> exists line, sent = split line.
Proof.
  destruct g as [self|self names u| |u]; simpl.
  - unfold bind. destruct (get_dirname self s) as [[d| |] s1]; try done.
    destruct (OS.listdir d s1) as [[names| |] s2]; try done.
    apply MS_outer_yields.
  - unfold MS_inner. destruct (file_next u) as [[line rest]|].
    + intros [= <- _ _]. eauto.
    + apply MS_outer_yields.
  - unfold bind. destruct (get_lee_train_file s) as [[p| |] s1]; try done.
    destruct (OS.open p s1) as [[text| |] s2]; try done.
    intros H. apply MT_loop_yields in H as [line ->]. eauto.
  - intros H. apply MT_loop_yields in H as [line ->]. eauto.
Qed.

End IteratorFacts.

(** * The claims *)

Section Claims.
Import PyStr Notebook Examples.

(** C1, as amended. For every directory name [d] whose listing succeeds and
    each of whose entries opens as a file, iterating [MySentences(d)] yields
    exactly one sentence per line of each file listed in [d], files in
    listing order and lines in file order; each sentence is [line.split()],
    the list of the whitespace-separated tokens of its line, and nothing else
    is done to it. The iteration leaves the state as it was. *)
Theorem MySentences_iter_lines s self d names texts fuel :
  heap s !! self = Some (MySentences d) ->
  OS.listdir d s = (Ok names, s) ->
  opened s d names texts ->
  (length (concat (map lines texts)) < fuel)%nat ->
  exists sents,
    list_of fuel self s = (Ok sents, s)
    /\ sents = map split (concat (map lines texts))
    /\ Forall2 whitespace_separated_tokens (concat (map lines texts)) sents.
Proof.
  intros Hself Hls Hopen Hlen.
  exists (map split (concat (map lines texts))).
  split; [|split; [done | apply Forall2_split]].
  rewrite <- concat_sentences_of.
  apply (list_of_MySentences self d s Hself fuel names texts Hls Hopen).
  by rewrite concat_sentences_of, length_map.
Qed.

Lemma MySentences_iter_lines_witness :
  heap toy_state !! toy_self = Some (MySentences "./data/")
  /\ OS.listdir "./data/" toy_state = (Ok ["f1.txt"; "f2.txt"], toy_state)
  /\ opened toy_state "./data/" ["f1.txt"; "f2.txt"]
       [text_of_lines ["first"; "sentence"];
        text_of_lines ["second"; "sentence"]]
  /\ exists sents,
       list_of 5 toy_self toy_state = (Ok sents, toy_state)
       /\ sents = [["first"]; ["sentence"]; ["second"]; ["sentence"]].
Proof.
  assert (opened toy_state "./data/" ["f1.txt"; "f2.txt"]
            [text_of_lines ["first"; "sentence"];
             text_of_lines ["second"; "sentence"]]) as Hopen.
  { repeat constructor. }
  split; [reflexivity|]. split; [reflexivity|]. split; [exact Hopen|].
  destruct (MySentences_iter_lines toy_state toy_self "./data/"
              ["f1.txt"; "f2.txt"]
              [text_of_lines ["first"; "sentence"];
               text_of_lines ["second"; "sentence"]] 5)
    as (sents & Hrun & Heq & _);
    [reflexivity | reflexivity | exact Hopen | vm_compute; lia |].
  exists sents. split; [exact Hrun | exact Heq].
Defined.

(** C1, as stated, fails: the directory [d] lists the subdirectory [sub] and
    then the file [a.txt], whose one line is "x"; the claim has [["x"]]
    yielded, but opening [d/sub] raises and nothing is yielded. *)
Lemma MySentences_subdirectory_counterexample :
  OS.listdir "d" subdir_state = (Ok ["sub"; "a.txt"], subdir_state)
  /\ OS.open (Posix.join "d" "a.txt") subdir_state
     = (Ok ("x" +:+ NL), subdir_state)
  /\ map split (lines ("x" +:+ NL)) = [["x"]]
  /\ list_of 5 0 subdir_state = (Raise IsADirectoryError, subdir_state)
  /\ ~ (exists fuel, list_of fuel 0 subdir_state = (Ok [["x"]], subdir_state)).
Proof.
  repeat split; try reflexivity.
  intros [fuel H]. destruct fuel as [|fuel]; [done|].
  vm_compute in H. discriminate H.
Qed.

(** C2, as amended. For every line of the training file, the sentence
    [MyText] yields is that line lowercased and then split into its
    whitespace-separated tokens: [line.lower().split()], one sentence per
    line in file order, provided the file opens. *)
Theorem MyText_iter_lines s self p text fuel :
  heap s !! self = Some MyText ->
  lee_train_file s = Some p ->
  OS.open p s = (Ok text, s) ->
  (length (lines text) < fuel)%nat ->
  exists sents,
    list_of fuel self s = (Ok sents, s)
    /\ sents = map (fun line => split (lower line)) (lines text)
    /\ Forall2 (fun line sent => whitespace_separated_tokens (lower line) sent)
         (lines text) sents.
Proof.
  intros Hself Hp Hopen Hlen.
  exists (map (fun line => split (lower line)) (lines text)).
  split; [|split; [done | apply Forall2_split_lower]].
  by apply (list_of_MyText fuel self s p text).
Qed.

Lemma MyText_iter_lines_witness :
  heap capitals_state !! 0%nat = Some MyText
  /\ lee_train_file capitals_state = Some "/corpus/lee.cor"
  /\ OS.open "/corpus/lee.cor" capitals_state
     = (Ok ("Hundreds of people" +:+ NL +:+ "in New South Wales" +:+ NL),
        capitals_state)
  /\ exists sents,
       list_of 3 0 capitals_state = (Ok sents, capitals_state)
       /\ sents = [["hundreds"; "of"; "people"];
                   ["in"; "new"; "south"; "wales"]].
Proof.
  split; [reflexivity|]. split; [reflexivity|]. split; [reflexivity|].
  destruct (MyText_iter_lines capitals_state 0 "/corpus/lee.cor"
              ("Hundreds of people" +:+ NL +:+ "in New South Wales" +:+ NL) 3)
    as (sents & Hrun & Heq & _);
    [reflexivity | reflexivity | reflexivity | vm_compute; lia |].
  exists sents. split; [exact Hrun | exact Heq].
Defined.

(** C2, as stated, fails: the line "Hundreds of people" split into its tokens
    is ["Hundreds"; "of"; "people"], and [MyText] yields
    ["hundreds"; "of"; "people"]. *)
Lemma MyText_lowers_counterexample :
  OS.open "/corpus/lee.cor" capitals_state
  = (Ok ("Hundreds of people" +:+ NL +:+ "in New South Wales" +:+ NL),
     capitals_state)
  /\ map split
       (lines ("Hundreds of people" +:+ NL +:+ "in New South Wales" +:+ NL))
     = [["Hundreds"; "of"; "people"]; ["in"; "New"; "South"; "Wales"]]
  /\ list_of 3 0 capitals_state
     = (Ok [["hundreds"; "of"; "people"]; ["in"; "new"; "south"; "wales"]],
        capitals_state)
  /\ ~ (exists fuel,
          list_of fuel 0 capitals_state
          = (Ok [["Hundreds"; "of"; "people"]; ["in"; "New"; "South"; "Wales"]],
             capitals_state)).
Proof.
  repeat split; try reflexivity.
  intros [fuel H].
  assert (list_of 3 0 capitals_state
          = (Ok [["hundreds"; "of"; "people"]; ["in"; "new"; "south"; "wales"]],
             capitals_state)) as H3 by reflexivity.
  pose proof (list_of_agree _ _ _ _ _ _ _ _ H H3) as Heq. discriminate Heq.
Qed.

(** C5. The iterators handle no error. When the directory [d] does not
    exist, iterating [MySentences(d)] fails: the listing raises an [OSError]
    that nothing catches, so [list] raises it. When the training file does
    not exist, iterating [MyText] fails in the same way at [open]. *)
Theorem missing_input_raises s :
  (forall self d fuel,
     heap s !! self = Some (MySentences d) ->
     OS.path_exists d s = (Ok false, s) ->
     exists e, is_OSError e = true
       /\ OS.listdir d s = (Raise e, s)
       /\ list_of (S fuel) self s = (Raise e, s))
  /\ (forall self p fuel,
        heap s !! self = Some MyText ->
        lee_train_file s = Some p ->
        OS.path_exists p s = (Ok false, s) ->
        exists e, is_OSError e = true
          /\ OS.open p s = (Raise e, s)
          /\ list_of (S fuel) self s = (Raise e, s)).
Proof.
  split.
  - intros self d fuel Hself Hmiss.
    destruct (missing_raises s d Hmiss) as (e & He & Hls & _).
    exists e. split; [done|]. split; [done|].
    unfold list_of, iter, reading. unfold bind at 1. rewrite Hself.
    simpl drain. unfold next. unfold bind at 1. unfold bind at 1.
    rewrite (get_dirname_run self d s Hself). unfold bind at 1.
    by rewrite Hls.
  - intros self p fuel Hself Hp Hmiss.
    destruct (missing_raises s p Hmiss) as (e & He & _ & Hopen).
    exists e. split; [done|]. split; [done|].
    unfold list_of, iter, reading. unfold bind at 1. rewrite Hself.
    simpl drain. unfold next, get_lee_train_file, reading.
    unfold bind at 1. unfold bind at 1. unfold bind at 1. rewrite Hp.
    unfold bind at 1. by rewrite Hopen.
Qed.

Lemma missing_input_raises_witness :
  (heap missing_state !! 0%nat = Some (MySentences "nowhere")
   /\ OS.path_exists "nowhere" missing_state = (Ok false, missing_state)
   /\ list_of 1 0 missing_state = (Raise FileNotFoundError, missing_state))
  /\ (heap missing_state !! 1%nat = Some MyText
      /\ lee_train_file missing_state = Some "nowhere/lee.cor"
      /\ OS.path_exists "nowhere/lee.cor" missing_state
         = (Ok false, missing_state)
      /\ list_of 1 1 missing_state = (Raise FileNotFoundError, missing_state)).
Proof.
  destruct (missing_input_raises missing_state) as [Hdir Hfile].
  split.
  - split; [reflexivity|]. split; [reflexivity|].
    destruct (Hdir 0%nat "nowhere" 0%nat eq_refl eq_refl)
      as (e & _ & Hls & Hrun).
    assert (e = FileNotFoundError) as <-; [|exact Hrun].
    vm_compute in Hls. by injection Hls.
  - split; [reflexivity|]. split; [reflexivity|]. split; [reflexivity|].
    destruct (Hfile 1%nat "nowhere/lee.cor" 0%nat eq_refl eq_refl eq_refl)
      as (e & _ & Hopen & Hrun).
    assert (e = FileNotFoundError) as <-; [|exact Hrun].
    vm_compute in Hopen. by injection Hopen.
Defined.

(** C8. Fixture round trip. After the data-creation cell has run with
    [sentences = [['first', 'sentence'], ['second', 'sentence']]], the
    directory [./data/] exists and [./data/f1.txt] and [./data/f2.txt] hold
    the tokens of the first and of the second sentence, each token on a line
    of its own ended by a newline. Then, provided the listing of [./data/]
    returns [f1.txt] and then [f2.txt] and nothing else,
    [list(MySentences('./data/'))] is
    [[['first'], ['sentence'], ['second'], ['sentence']]]: every yielded
    sentence is a singleton and the yielded tokens, concatenated, are the
    tokens of the original sentences, concatenated. The cell does run to its
    end when the working directory exists and [data] is absent, or is a
    directory in which neither file name is that of a directory. *)
Theorem toy_data_round_trip s :
  (can_create_toy_data s ->
   exists s', create_toy_data sentences s = (Ok tt, s'))
  /\ (forall s',
        create_toy_data sentences s = (Ok tt, s') ->
        OS.path_exists "./data/" s' = (Ok true, s')
        /\ (exists names, OS.listdir "./data/" s' = (Ok names, s'))
        /\ OS.open "./data/f1.txt" s'
           = (Ok ("first" +:+ NL +:+ "sentence" +:+ NL), s')
        /\ OS.open "./data/f2.txt" s'
           = (Ok ("second" +:+ NL +:+ "sentence" +:+ NL), s')
        /\ (forall self fuel,
              heap s' !! self = Some (MySentences "./data/") ->
              OS.listdir "./data/" s' = (Ok ["f1.txt"; "f2.txt"], s') ->
              (4 < fuel)%nat ->
              exists sents,
                list_of fuel self s' = (Ok sents, s')
                /\ sents = [["first"]; ["sentence"]; ["second"]; ["sentence"]]
                /\ Forall (fun sent => length sent = 1%nat) sents
                /\ concat sents = concat sentences)).
Proof.
  split; [apply create_toy_data_runs|]. intros s' Hrun.
  destruct (create_toy_data_post s s' Hrun) as (_ & Hdir & Hf1 & Hf2).
  pose proof (open_data_file s' _ _ _ Hdir in_data_dir_f1 Hf1) as Ho1.
  pose proof (open_data_file s' _ _ _ Hdir in_data_dir_f2 Hf2) as Ho2.
  split; [by apply path_exists_data|].
  split; [by apply listdir_data|].
  split; [rewrite Ho1; simpl; by rewrite !app_empty_r|].
  split; [rewrite Ho2; simpl; by rewrite !app_empty_r|].
  intros self fuel Hself Hls Hfuel.
  exists [["first"]; ["sentence"]; ["second"]; ["sentence"]].
  split; [|split; [done | split; [by repeat constructor | done]]].
  apply (list_of_MySentences self "./data/" s' Hself fuel
           ["f1.txt"; "f2.txt"]
           [text_of_lines ["first"; "sentence"];
            text_of_lines ["second"; "sentence"]] Hls).
  - by repeat constructor.
  - vm_compute. lia.
Qed.

Lemma toy_data_round_trip_witness :
  can_create_toy_data blank_state
  /\ create_toy_data sentences blank_state = (Ok tt, data_state)
  /\ OS.open "./data/f1.txt" data_state
     = (Ok ("first" +:+ NL +:+ "sentence" +:+ NL), data_state)
  /\ OS.open "./data/f2.txt" data_state
     = (Ok ("second" +:+ NL +:+ "sentence" +:+ NL), data_state)
  /\ OS.listdir "./data/" data_state = (Ok ["f1.txt"; "f2.txt"], data_state)
  /\ exists sents,
       list_of 5 toy_self toy_state = (Ok sents, toy_state)
       /\ sents = [["first"]; ["sentence"]; ["second"]; ["sentence"]].
Proof.
  assert (can_create_toy_data blank_state) as Hcan.
  { split; [by exists [] | exact I]. }
  split; [exact Hcan|].
  destruct (toy_data_round_trip blank_state) as [Hruns Hpost].
  destruct (Hruns Hcan) as [s' Hrun].
  assert (s' = data_state) as ->.
  { vm_compute in Hrun. injection Hrun as <-. reflexivity. }
  split; [exact Hrun|].
  destruct (Hpost data_state Hrun) as (_ & _ & Ho1 & Ho2 & _).
  split; [exact Ho1|]. split; [exact Ho2|]. split; [reflexivity|].
  destruct (toy_data_round_trip
              (mkState {[ toy_self := MySentences "./data/" ]} None
                 (Posix.Dir []) [])) as [_ Hpost'].
  destruct (Hpost' toy_state eq_refl) as (_ & _ & _ & _ & Hlist).
  destruct (Hlist toy_self 5%nat eq_refl eq_refl ltac:(lia))
    as (sents & Hl & Heq & _).
  exists sents. split; [exact Hl | exact Heq].
Defined.

(** C9. Token well-formedness. Every token of every sentence a generator
    of [MySentences] or [MyText] yields is a nonempty string without
    whitespace. A line that is empty or holds only whitespace is yielded as
    the empty sentence [[]] at its place, not skipped: the iteration yields as
    many sentences as there are lines. *)
Theorem yielded_tokens_well_formed :
  (forall g s sent g' s',
     next g s = (Ok (Yield sent g'), s') ->
     Forall (fun t => t <> "" /\ no_space t = true) sent)
  /\ (forall line,
        all_space line = true -> split line = [] /\ split (lower line) = [])
  /\ (forall s self d names texts fuel i line,
        heap s !! self = Some (MySentences d) ->
        OS.listdir d s = (Ok names, s) ->
        opened s d names texts ->
        (length (concat (map lines texts)) < fuel)%nat ->
        concat (map lines texts) !! i = Some line ->
        all_space line = true ->
        exists sents,
          list_of fuel self s = (Ok sents, s)
          /\ length sents = length (concat (map lines texts))
          /\ sents !! i = Some [])
  /\ (forall s self p text fuel i line,
        heap s !! self = Some MyText ->
        lee_train_file s = Some p ->
        OS.open p s = (Ok text, s) ->
        (length (lines text) < fuel)%nat ->
        lines text !! i = Some line ->
        all_space line = true ->
        exists sents,
          list_of fuel self s = (Ok sents, s)
          /\ length sents = length (lines text)
          /\ sents !! i = Some []).
Proof.
  split; [|split; [|split]].
  - intros g s sent g' s' H.
    apply next_yields_split in H as [line ->].
    eapply Forall_impl; [apply split_tokens|].
    intros t Ht. simpl in Ht. by destruct t.
  - intros line H. split; apply split_blank; [done|].
    by rewrite all_space_lower.
  - intros s self d names texts fuel i line Hself Hls Hopen Hlen Hi Hblank.
    exists (concat (map sentences_of texts)).
    split.
    { apply (list_of_MySentences self d s Hself fuel names texts);
        [done | done |]. by rewrite concat_sentences_of, length_map. }
    rewrite concat_sentences_of, length_map. split; [done|].
    by rewrite list_lookup_fmap, Hi, <- (split_blank line Hblank).
  - intros s self p text fuel i line Hself Hp Hopen Hlen Hi Hblank.
    exists (lowered_sentences_of text).
    split; [by apply (list_of_MyText fuel self s p text)|].
    unfold lowered_sentences_of. rewrite length_map. split; [done|].
    rewrite list_lookup_fmap, Hi. simpl.
    rewrite split_blank; [done|]. by rewrite all_space_lower.
Qed.

Lemma yielded_tokens_well_formed_witness :
  next (MS_created 0) blanks_state
  = (Ok (Yield ["One"; "two"] (MS_suspended 0 []
           (NL +:+ "   " +:+ NL +:+ "three"))), blanks_state)
  /\ Forall (fun t => t <> "" /\ no_space t = true) ["One"; "two"]
  /\ all_space ("   " +:+ NL) = true
  /\ split ("   " +:+ NL) = []
  /\ (exists sents,
        list_of 5 0 blanks_state = (Ok sents, blanks_state)
        /\ length sents = 4%nat /\ sents !! 1%nat = Some [])
  /\ (exists sents,
        list_of 5 1 blanks_state = (Ok sents, blanks_state)
        /\ length sents = 4%nat /\ sents !! 2%nat = Some []).
Proof.
  destruct yielded_tokens_well_formed as (Htok & Hblank & Hms & Hmt).
  split; [reflexivity|].
  split; [exact (Htok (MS_created 0) blanks_state _ _ _ eq_refl)|].
  split; [reflexivity|].
  split; [exact (proj1 (Hblank ("   " +:+ NL) eq_refl))|].
  split.
  - apply (Hms blanks_state 0%nat "docs" ["a.txt"]
             ["One two" +:+ NL +:+ NL +:+ "   " +:+ NL +:+ "three"]
             5%nat 1%nat NL); try reflexivity.
    + repeat constructor.
    + vm_compute. lia.
  - apply (Hmt blanks_state 1%nat "docs/a.txt"
             ("One two" +:+ NL +:+ NL +:+ "   " +:+ NL +:+ "three")
             5%nat 2%nat ("   " +:+ NL)); try reflexivity.
    vm_compute. lia.
Defined.

(** C10. Re-iterability and determinism. With the file contents and the
    directory listing held fixed, two complete iterations of the same
    [MySentences] or [MyText] object yield the same sequence of sentences:
    each call of [iter] starts a new generator, so a second pass sees what the
    first saw, and what is collected depends on the state only through the
    object, the global [lee_train_file] and the file system. An iteration
    leaves the state as it found it, the object's own attributes ([dirname])
    included. *)
Theorem iteration_repeatable s self fuel sents s1 :
  list_of fuel self s = (Ok sents, s1) ->
  s1 = s
  /\ heap s1 !! self = heap s !! self
  /\ list_of fuel self s1 = (Ok sents, s1)
  /\ (forall fuel' sents' s2,
        list_of fuel' self s1 = (Ok sents', s2) -> sents' = sents /\ s2 = s)
  /\ (forall t fuel' sents' t',
        same_inputs self s t ->
        list_of fuel' self t = (Ok sents', t') -> sents' = sents /\ t' = t).
Proof.
  intros H.
  assert (s1 = s) as ->.
  { pose proof (read_only_list_of fuel self s) as Hs. by rewrite H in Hs. }
  split; [done|]. split; [done|]. split; [done|]. split.
  - intros fuel' sents' s2 H'. split.
    + by eapply list_of_agree.
    + pose proof (read_only_list_of fuel' self s) as Hs. by rewrite H' in Hs.
  - intros t fuel' sents' t' Hsame H'. split.
    + pose proof (list_of_same self fuel' s t Hsame) as Hst.
      rewrite H' in Hst. simpl in Hst.
      destruct (list_of fuel' self s) as [o s3] eqn:E. simpl in Hst. subst o.
      by eapply list_of_agree.
    + pose proof (read_only_list_of fuel' self t) as Ht. by rewrite H' in Ht.
Qed.

Lemma iteration_repeatable_witness :
  list_of 5 toy_self toy_state
  = (Ok [["first"]; ["sentence"]; ["second"]; ["sentence"]], toy_state)
  /\ heap toy_state !! toy_self = Some (MySentences "./data/")
  /\ list_of 9 toy_self toy_state
     = (Ok [["first"]; ["sentence"]; ["second"]; ["sentence"]], toy_state)
  /\ same_inputs toy_self toy_state busy_state
  /\ list_of 6 toy_self busy_state
     = (Ok [["first"]; ["sentence"]; ["second"]; ["sentence"]], busy_state).
Proof.
  destruct (iteration_repeatable toy_state toy_self 5
              [["first"]; ["sentence"]; ["second"]; ["sentence"]] toy_state
              eq_refl) as (_ & _ & Hagain & Hall & Hother).
  split; [exact Hagain|]. split; [reflexivity|]. split.
  - destruct (list_of 9 toy_self toy_state) as [[r| |] s2] eqn:E;
      try discriminate E.
    destruct (Hall 9%nat r s2 E) as [-> ->]. reflexivity.
  - assert (same_inputs toy_self toy_state busy_state) as Hsame.
    { repeat split. }
    split; [exact Hsame|].
    destruct (list_of 6 toy_self busy_state) as [[r| |] t'] eqn:E;
      try discriminate E.
    destruct (Hother busy_state 6%nat r t' Hsame E) as [-> ->]. reflexivity.
Defined.

End Claims.

(** ** The calls of the notebook in order *)

Section CallFacts.
Import Fixtures Cells.

Lemma existsb_false_lookup (b : event -> bool) evs j e :
  existsb b evs = false -> evs !! j = Some e -> b e = false.
Proof.
  intros Hex Hj. destruct (b e) eqn:E; [|done].
  assert (existsb b evs = true) as Ht; [|congruence].
  apply existsb_exists. exists e. split; [|done].
  apply list_elem_of_In. by eapply list_elem_of_lookup_2.
Qed.

(** The decision procedure is sound for the order it decides. *)
Lemma none_precedes_sound a b evs :
  none_precedes a b evs = true -> never_precedes a b evs.
Proof.
  induction evs as [|e evs IH]; intros H i j e1 e2 Hi Hj Hlt Ha; [done|].
  simpl in H. apply andb_prop in H as [Hhead Hrest].
  destruct j as [|j]; [lia|]. simpl in Hj.
  destruct i as [|i]; simpl in Hi.
  - injection Hi as ->. rewrite Ha in Hhead.
    apply negb_true_iff in Hhead. by eapply existsb_false_lookup.
  - eapply (IH Hrest i j); eauto. lia.
Qed.

End CallFacts.

Section LibraryClaims.
Import PyStr Notebook Examples Fixtures Cells.

(** C4, on the code. Of the corpus values the notebook passes to the
    constructor, to [build_vocab] and to [train], all are sequences of
    tokenized sentences but the last: [more_sentences], passed to
    [model.train] in cell 15, is a flat list of words, so that each of its
    sentences is a bare string. *)
Theorem more_sentences_is_flat :
  exists evs,
    run ∅ notebook = Ok evs
    /\ map (fun c => (c.1, well_formed_corpus c.2)) (corpora evs)
       = [(2, true); (6, true); (7, true); (7, true); (10, true);
          (11, true); (12, true); (15, false)]%nat
    /\ corpora evs !! 7%nat = Some (15%nat, V_data more_sentences)
    /\ is_corpus more_sentences = false
    /\ is_sentence more_sentences = true
    /\ Forall (fun v => is_word v = true /\ is_sentence v = false)
         (items_of more_sentences)
    /\ Fixtures.sentences = of_sentences Notebook.sentences
    /\ is_corpus Fixtures.sentences = true.
Proof.
  eexists. split; [vm_compute; reflexivity|].
  repeat split; try reflexivity.
  repeat constructor.
Qed.

(** C6, as amended. Executed top to bottom, the notebook is a linear
    narrative of library calls in the order: construct model, then save/load
    model, then query model. The first call constructs [model] and every call
    on a variable comes after the variable is bound to a model; no save/load
    call precedes a constructor call or the [accuracy] evaluation; no query
    call ([most_similar], [doesnt_match], [similarity], [model[word]])
    precedes a save/load call or a constructor call. *)
Theorem notebook_call_order :
  exists evs,
    run ∅ notebook = Ok evs
    /\ head evs
       = Some (mkEvent 2 Construct "model" (Some (V_data Fixtures.sentences)))
    /\ never_precedes is_save_load (is_kind Construct) evs
    /\ never_precedes is_save_load (is_kind Evaluate) evs
    /\ never_precedes (is_kind Query) is_save_load evs
    /\ never_precedes (is_kind Query) (is_kind Construct) evs.
Proof.
  eexists. split; [vm_compute; reflexivity|].
  split; [reflexivity|].
  repeat split; apply none_precedes_sound; reflexivity.
Qed.

(** C6, as stated, fails: the save call of cell 14 (call number 13) precedes
    the query of cell 16 (call number 17). *)
Lemma save_precedes_query_counterexample :
  exists evs,
    run ∅ notebook = Ok evs
    /\ evs !! 13%nat = Some (mkEvent 14 Save "model" None)
    /\ evs !! 17%nat = Some (mkEvent 16 Query "model" None)
    /\ ~ never_precedes is_save_load (is_kind Query) evs.
Proof.
  eexists. split; [vm_compute; reflexivity|].
  split; [reflexivity|]. split; [reflexivity|].
  intros H.
  assert (is_kind Query (mkEvent 16 Query "model" None) = false) as Hq.
  { apply (H 13%nat 17%nat (mkEvent 14 Save "model" None)); [done..|lia|done]. }
  discriminate Hq.
Qed.

End LibraryClaims.

(** * Further properties of the cells *)

(** ** Lower case and splitting *)

Section LowerFacts.
Import PyStr.

Lemma lower_rev_to_string tok : forall tail,
  lower (rev_to_string tok tail) = rev_to_string (map lower_char tok) (lower tail).
Proof.
  induction tok as [|c tok IH]; intros tail; simpl; [done|]. by rewrite IH.
Qed.

Lemma flush_lower tok rest :
  flush (map lower_char tok) (map lower rest) = map lower (flush tok rest).
Proof.
  destruct tok as [|c tok]; simpl; [done|].
  by rewrite (lower_rev_to_string tok (String c "")).
Qed.

Lemma split_from_lower s : forall tok,
  split_from (map lower_char tok) (lower s) = map lower (split_from tok s).
Proof.
  induction s as [|c s IH]; intros tok; simpl.
  - apply (flush_lower tok []).
  - rewrite isspace_lower_char. destruct (isspace c).
    + rewrite <- flush_lower. f_equal. apply (IH []).
    + apply (IH (c :: tok)).
Qed.

(** Lowering and splitting commute. *)
Lemma split_lower s : split (lower s) = map lower (split s).
Proof. apply (split_from_lower s []). Qed.

Lemma lower_char_idem c : lower_char (lower_char c) = lower_char c.
Proof. destruct c as [[] [] [] [] [] [] [] []]; reflexivity. Qed.

Lemma lower_idem s : lower (lower s) = lower s.
Proof.
  induction s as [|c s IH]; [done|]. simpl. by rewrite lower_char_idem, IH.
Qed.

End LowerFacts.

(** ** Lines and words *)

Section WordFacts.
Import PyStr.

Lemma flush_app tok rest : flush tok rest = flush tok [] ++ rest.
Proof. by destruct tok. Qed.

Lemma isspace_eqb_LF c : Ascii.eqb c LF = true -> isspace c = true.
Proof. intros H. by apply Ascii.eqb_eq in H as ->. Qed.

Lemma isspace_eqb_CR c : Ascii.eqb c CR = true -> isspace c = true.
Proof. intros H. by apply Ascii.eqb_eq in H as ->. Qed.

(** Splitting a text is splitting its first line, then the rest. *)
Lemma split_from_readline s : forall tok,
  s <> "" ->
  split_from tok s = split_from tok (readline s).1 ++ split (readline s).2.
Proof.
  induction s as [|c s IH]; intros tok Hne; [done|]. simpl.
  destruct (Ascii.eqb c LF) eqn:Elf.
  { rewrite (isspace_eqb_LF c Elf). simpl. apply flush_app. }
  destruct (Ascii.eqb c CR) eqn:Ecr.
  { rewrite (isspace_eqb_CR c Ecr).
    destruct s as [|c' s]; simpl; [apply flush_app|].
    destruct (Ascii.eqb c' LF) eqn:Elf'; simpl.
    - rewrite (isspace_eqb_LF c' Elf'). simpl. apply flush_app.
    - apply flush_app. }
  destruct s as [|c' s].
  { simpl. destruct (isspace c) eqn:Esp; simpl; rewrite ?Esp; simpl;
      by rewrite ?app_nil_r. }
  remember (String c' s) as s' eqn:Es'.
  assert (s' <> "") as Hne' by (by subst).
  specialize (IH [] Hne') as IH0. specialize (IH (c :: tok) Hne') as IH1.
  destruct (readline s') as [l r] eqn:E. simpl in *.
  destruct (isspace c).
  - rewrite IH0.
    rewrite (flush_app tok (split_from [] l ++ split r)).
    rewrite (flush_app tok (split_from [] l)). by rewrite app_assoc.
  - by rewrite IH1.
Qed.

Lemma readline_shorter s :
  s <> "" -> (String.length (readline s).2 < String.length s)%nat.
Proof.
  induction s as [|c s IH]; intros Hne; [done|]. simpl.
  destruct (Ascii.eqb c LF); [simpl; lia|].
  destruct (Ascii.eqb c CR).
  - destruct s as [|c' s]; [simpl; lia|].
    destruct (Ascii.eqb c' LF); simpl; lia.
  - destruct s as [|c' s]; [simpl; lia|].
    specialize (IH ltac:(done)).
    destruct (readline (String c' s)) as [l r]. simpl in *. lia.
Qed.

Lemma lines_split_bounded n : forall s,
  (String.length s <= n)%nat -> concat (map split (lines s)) = split s.
Proof.
  induction n as [|n IH]; intros s Hlen.
  - destruct s; [done | simpl in Hlen; lia].
  - destruct (String.eqb_spec s "") as [->|Hne]; [done|].
    unfold lines. rewrite lines_from_readline by done.
    unfold split at 2. rewrite split_from_readline by done.
    pose proof (readline_shorter s Hne) as Hsh.
    simpl concat. f_equal. apply IH. lia.
Qed.

(** The words of the lines of a text are the words of the text. *)
Lemma lines_split s : concat (map split (lines s)) = split s.
Proof. by apply (lines_split_bounded (String.length s)). Qed.

End WordFacts.

(** ** Paths *)

Section PathFacts.
Import Posix Flat.

Lemma components_from_app_sep a : forall cur b,
  components_from cur (a +:+ String SEP b)
  = components_from cur a ++ components_from [] b.
Proof.
  induction a as [|c a IH]; intros cur b.
  - reflexivity.
  - rewrite app_cons. simpl. destruct (Ascii.eqb c SEP); [|apply IH].
    by rewrite IH.
Qed.

(** The components of [a/b] are those of [a], then those of [b]. *)
Lemma components_app_sep a b :
  components (a +:+ String SEP b) = components a ++ components b.
Proof. apply components_from_app_sep. Qed.

Lemma components_from_plain name : forall cur,
  no_sep name = true ->
  components_from cur name = [PyStr.rev_to_string cur name].
Proof.
  induction name as [|c name IH]; intros cur H; [done|].
  simpl in H. apply andb_prop in H as [Hc Hn]. apply negb_true_iff in Hc.
  simpl. rewrite Hc. by rewrite IH.
Qed.

Lemma components_plain name : no_sep name = true -> components name = [name].
Proof. apply (components_from_plain name []). Qed.

Lemma ends_with_sep_inv d :
  ends_with_sep d = true -> exists d0, d = d0 +:+ String SEP "".
Proof.
  induction d as [|c d IH]; [done|]. simpl. destruct d as [|c' d].
  - intros H. apply Ascii.eqb_eq in H as ->. by exists "".
  - intros H. destruct (IH H) as [d0 ->]. by exists (String c d0).
Qed.

Lemma is_absolute_app a b : a <> "" -> is_absolute (a +:+ b) = is_absolute a.
Proof. by destruct a. Qed.

Lemma is_absolute_app_sep a b :
  is_absolute (a +:+ String SEP b) = is_absolute (a +:+ String SEP "").
Proof. by destruct a. Qed.

Lemma append_sep_nonempty a b : String.eqb (a +:+ String SEP b) "" = false.
Proof. by destruct a. Qed.

Lemma append_nonempty a b : a <> "" -> String.eqb (a +:+ b) "" = false.
Proof. by destruct a. Qed.

Lemma plain_not_absolute name : no_sep name = true -> is_absolute name = false.
Proof.
  destruct name as [|c name]; [done|]. simpl. intros H.
  apply andb_prop in H as [Hc _]. by apply negb_true_iff in Hc.
Qed.

Lemma walk_app r xs : forall cur ys,
  walk r cur (xs ++ ys)
  = match walk r cur xs with
    | Ok c => walk r c ys
    | Raise e => Raise e
    | Timeout => Timeout
    end.
Proof.
  induction xs as [|x xs IH]; intros cur ys; simpl; [done|].
  destruct (lookup_path r cur) as [[|es]|]; try done.
  destruct (is_dot x); [apply IH|]. destruct (is_dotdot x); apply IH.
Qed.

Lemma lookup_path_app p : forall r q,
  lookup_path r (p ++ q)
  = match lookup_path r p with
    | Some n => lookup_path n q
    | None => None
    end.
Proof.
  induction p as [|c p IH]; intros r q; simpl; [done|].
  destruct r as [|es]; [done|]. destruct (find_entry c es); [apply IH | done].
Qed.

(** A resolved path: its components walk to the canonical path. *)
Lemma resolve_inv s p cp n :
  OS.resolve s p = Ok (cp, n) ->
  p <> "" /\ walk (root s) (OS.start s p) (components p) = Ok cp
  /\ lookup_path (root s) cp = Some n.
Proof.
  unfold OS.resolve. destruct (String.eqb_spec p "") as [->|Hne]; [done|].
  destruct (walk (root s) (OS.start s p) (components p)) as [c| |]; try done.
  destruct (lookup_path (root s) c) as [m|] eqn:E; [|done].
  by intros [= -> ->].
Qed.

(** A trailing "/" changes nothing to the listing of a path. *)
Lemma listdir_trailing_sep s d :
  d <> "" -> OS.listdir (d +:+ String SEP "") s = OS.listdir d s.
Proof.
  intros Hne. unfold OS.listdir, reading, OS.resolve, OS.start. f_equal.
  rewrite append_nonempty, is_absolute_app by done.
  destruct (String.eqb_spec d "") as [|_]; [done|].
  rewrite components_app_sep, walk_app.
  destruct (walk (root s) (if is_absolute d then [] else cwd s) (components d))
    as [cp| |]; try done.
  change (components "") with [""]. simpl.
  destruct (lookup_path (root s) cp) as [[c|es]|] eqn:E; try done.
  by rewrite E.
Qed.

(** [os.path.join(d, name)] names the entry [name] of the directory [d]. *)
Lemma resolve_join s d cp es name :
  OS.resolve s d = Ok (cp, Dir es) -> plain_name name = true ->
  OS.resolve s (join d name)
  = match find_entry name es with
    | Some n => Ok (cp ++ [name], n)
    | None => Raise FileNotFoundError
    end.
Proof.
  intros Hres Hplain. apply resolve_inv in Hres as (Hne & Hwalk & Hcp).
  unfold plain_name in Hplain.
  apply andb_prop in Hplain as [Hplain Hdd]. apply andb_prop in Hplain as [Hns Hd].
  apply negb_true_iff in Hd, Hdd.
  assert (exists d0,
            join d name = d0 +:+ String SEP name
            /\ is_absolute (d0 +:+ String SEP name) = is_absolute d
            /\ walk (root s) (OS.start s d) (components d0) = Ok cp)
    as (d0 & Hjoin & Habs & Hw0).
  { unfold join. rewrite (plain_not_absolute name Hns).
    destruct (String.eqb_spec d "") as [|_]; [done|]. simpl.
    destruct (ends_with_sep d) eqn:Eend.
    - apply ends_with_sep_inv in Eend as [d0 ->]. exists d0.
      rewrite components_app_sep, walk_app in Hwalk.
      destruct (walk (root s) (OS.start s (d0 +:+ String SEP ""))
                  (components d0)) as [c0| |]; try done.
      change (components "") with [""] in Hwalk. simpl in Hwalk.
      destruct (lookup_path (root s) c0) as [[c|es0]|] eqn:E; try done.
      injection Hwalk as <-.
      rewrite app_assoc_str. split; [done|].
      split; [apply is_absolute_app_sep | done].
    - exists d. split; [done|]. split; [by apply is_absolute_app | done]. }
  unfold OS.resolve, OS.start in *. rewrite Hjoin.
  rewrite append_sep_nonempty, Habs.
  rewrite components_app_sep, walk_app, Hw0, (components_plain name Hns).
  simpl. rewrite Hcp, Hd, Hdd. rewrite lookup_path_app, Hcp. simpl.
  by destruct (find_entry name es).
Qed.

End PathFacts.

(** ** Directories as [MySentences] reads them *)

Section DirectoryFacts.
Import Posix Flat PyStr Notebook.

Lemma find_entry_first k v es :
  NoDup (map fst es) -> (k, v) ∈ es -> find_entry k es = Some v.
Proof.
  induction es as [|[k' v'] es IH]; intros Hnd Hin; [by apply elem_of_nil in Hin|].
  simpl in *. apply NoDup_cons in Hnd as [Hnotin Hnd].
  apply elem_of_cons in Hin as [[= -> ->]|Hin].
  - by rewrite String.eqb_refl.
  - destruct (String.eqb_spec k' k) as [->|_]; [|by apply IH].
    exfalso. apply Hnotin. apply list_elem_of_fmap. by exists (k, v).
Qed.

Lemma flat_opened_from s d cp es : forall es' texts,
  OS.resolve s d = Ok (cp, Dir es) ->
  (forall k v, (k, v) ∈ es' ->
     plain_name k = true /\ find_entry k es = Some v) ->
  file_texts es' = Some texts ->
  opened s d (map fst es') texts.
Proof.
  intros es' texts Hres. revert texts.
  induction es' as [|[k v] es' IH]; intros texts Hall Htexts; simpl in *.
  - injection Htexts as <-. constructor.
  - destruct v as [text|]; [|done].
    destruct (file_texts es') as [texts'|]; [|done].
    injection Htexts as <-.
    destruct (Hall k (File text) ltac:(by left)) as [Hplain Hfind].
    constructor.
    + unfold OS.open, reading. by rewrite (resolve_join s d cp es k), Hfind.
    + apply IH; [|done]. intros k' v' Hin. apply Hall. by right.
Qed.

(** A directory of regular files with proper, distinct names: every name
    the listing returns opens, through [os.path.join], as the file of that
    name. *)
Lemma flat_opened s d cp es texts :
  OS.resolve s d = Ok (cp, Dir es) ->
  Forall (fun name => plain_name name = true) (map fst es) ->
  NoDup (map fst es) ->
  file_texts es = Some texts ->
  OS.listdir d s = (Ok (map fst es), s) /\ opened s d (map fst es) texts.
Proof.
  intros Hres Hplain Hnd Htexts. split.
  - unfold OS.listdir, reading. by rewrite Hres.
  - apply (flat_opened_from s d cp es es texts Hres); [|done].
    intros k v Hin. split; [|by apply find_entry_first].
    rewrite Forall_forall in Hplain. apply Hplain.
    apply list_elem_of_fmap. by exists (k, v).
Qed.

Lemma ends_with_sep_app d : ends_with_sep (d +:+ String SEP "") = true.
Proof.
  induction d as [|c d IH]; [done|]. rewrite app_cons. simpl.
  destruct (d +:+ String SEP "") eqn:E; [by destruct d | done].
Qed.

Lemma walk_skip_empty r cur rest :
  rest <> [] -> walk r cur ("" :: rest) = walk r cur rest.
Proof.
  intros Hne. destruct rest as [|c rest]; [done|]. simpl.
  by destruct (lookup_path r cur) as [[|es]|].
Qed.

Lemma components_nonempty p : components p <> [].
Proof.
  unfold components. generalize (@nil ascii).
  induction p as [|c p IH]; intros cur; simpl; [done|].
  destruct (Ascii.eqb c SEP); [done | apply IH].
Qed.

(** With or without a trailing "/" on the directory, [os.path.join] names
    the same object. *)
Lemma resolve_join_trailing_sep s d name :
  d <> "" ->
  OS.resolve s (join (d +:+ String SEP "") name) = OS.resolve s (join d name).
Proof.
  intros Hne. unfold join. destruct (is_absolute name); [done|].
  rewrite ends_with_sep_app, (append_nonempty d) by done.
  destruct (String.eqb_spec d "") as [|_]; [done|]. simpl.
  destruct (ends_with_sep d) eqn:Eend; [|by rewrite app_assoc_str].
  apply ends_with_sep_inv in Eend as [d0 ->].
  rewrite !app_assoc_str. simpl.
  change (d0 +:+ String SEP "" +:+ String SEP "" +:+ name)
    with (d0 +:+ String SEP (String SEP name)).
  change (d0 +:+ String SEP "" +:+ name) with (d0 +:+ String SEP name).
  unfold OS.resolve, OS.start. rewrite !append_sep_nonempty.
  rewrite (is_absolute_app_sep d0 (String SEP name)).
  rewrite (is_absolute_app_sep d0 name).
  rewrite !components_app_sep, !walk_app.
  destruct (walk (root s)
              (if is_absolute (d0 +:+ String SEP "") then [] else cwd s)
              (components d0)) as [c0| |]; try done.
  change (components (String SEP name)) with ("" :: components name).
  by rewrite walk_skip_empty by apply components_nonempty.
Qed.

End DirectoryFacts.

(** ** Iterations that stop early *)

Section EarlyStop.
Import PyStr Notebook.

Context (self : nat) (d : string) (s : state).
Hypothesis Hself : heap s !! self = Some (MySentences d).

(** The outer loop when a name after the good ones fails to open. *)
Lemma drain_MS_outer_error fuel good texts bad rest e :
  opened s d good texts ->
  OS.open (Posix.join d bad) s = (Raise e, s) ->
  (forall good' texts' u,
     opened s d good' texts' ->
     (length (sentences_of u ++ concat (map sentences_of texts')) < fuel)%nat ->
     drain fuel (MS_suspended self (good' ++ bad :: rest) u) s = (Raise e, s)) ->
  (length (concat (map sentences_of texts)) < S fuel)%nat ->
  (st <- MS_outer self (good ++ bad :: rest) ;;
   match st with
   | StopIteration => ret []
   | Yield sentence g' => r <- drain fuel g' ;; ret (sentence :: r)
   end) s
  = (Raise e, s).
Proof.
  intros Hopen Hbad Hrec.
  induction Hopen as [|name text names texts Ho Hrest IH]; intros Hlen.
  - simpl. unfold bind. by rewrite (get_dirname_run self d s Hself), Hbad.
  - simpl in *. unfold bind in *. rewrite (get_dirname_run self d s Hself), Ho.
    destruct (file_next text) as [[line unread]|] eqn:E.
    + rewrite (sentences_of_some text line unread E) in *. simpl in *.
      by rewrite (Hrec names texts unread Hrest) by lia.
    + rewrite (sentences_of_none text E) in *. simpl in *. by apply IH.
Qed.

Lemma drain_MS_suspended_error fuel bad rest e :
  OS.open (Posix.join d bad) s = (Raise e, s) ->
  forall good texts u,
  opened s d good texts ->
  (length (sentences_of u ++ concat (map sentences_of texts)) < fuel)%nat ->
  drain fuel (MS_suspended self (good ++ bad :: rest) u) s = (Raise e, s).
Proof.
  intros Hbad.
  induction fuel as [|fuel IH]; intros good texts u Hopen Hlen; [lia|].
  simpl drain. unfold next, MS_inner.
  destruct (file_next u) as [[line unread]|] eqn:E.
  - rewrite (sentences_of_some u line unread E) in *. simpl in *.
    unfold bind, ret. by rewrite (IH good texts unread Hopen) by lia.
  - rewrite (sentences_of_none u E) in *. simpl in Hlen |- *.
    apply (drain_MS_outer_error fuel good texts bad rest e); [done..| |lia].
    intros good' texts' u' Hopen' Hlen'. by apply (IH good' texts').
Qed.

(** The outer loop when the fuel runs out among the good names. *)
Lemma drain_MS_outer_timeout fuel good texts rest :
  opened s d good texts ->
  (forall good' texts' u,
     opened s d good' texts' ->
     (fuel <= length (sentences_of u ++ concat (map sentences_of texts')))%nat ->
     drain fuel (MS_suspended self (good' ++ rest) u) s = (Timeout, s)) ->
  (S fuel <= length (concat (map sentences_of texts)))%nat ->
  (st <- MS_outer self (good ++ rest) ;;
   match st with
   | StopIteration => ret []
   | Yield sentence g' => r <- drain fuel g' ;; ret (sentence :: r)
   end) s
  = (Timeout, s).
Proof.
  intros Hopen Hrec.
  induction Hopen as [|name text names texts Ho Hrest IH]; intros Hlen.
  - simpl in Hlen. lia.
  - simpl in *. unfold bind in *. rewrite (get_dirname_run self d s Hself), Ho.
    destruct (file_next text) as [[line unread]|] eqn:E.
    + rewrite (sentences_of_some text line unread E) in *. simpl in *.
      by rewrite (Hrec names texts unread Hrest) by lia.
    + rewrite (sentences_of_none text E) in *. simpl in *. by apply IH.
Qed.

Lemma drain_MS_suspended_timeout fuel rest : forall good texts u,
  opened s d good texts ->
  (fuel <= length (sentences_of u ++ concat (map sentences_of texts)))%nat ->
  drain fuel (MS_suspended self (good ++ rest) u) s = (Timeout, s).
Proof.
  induction fuel as [|fuel IH]; intros good texts u Hopen Hlen; [done|].
  simpl drain. unfold next, MS_inner.
  destruct (file_next u) as [[line unread]|] eqn:E.
  - rewrite (sentences_of_some u line unread E) in *. simpl in *.
    unfold bind, ret. by rewrite (IH good texts unread Hopen) by lia.
  - rewrite (sentences_of_none u E) in *. simpl in Hlen |- *.
    apply (drain_MS_outer_timeout fuel good texts rest); [done| |lia].
    intros good' texts' u' Hopen' Hlen'. by apply (IH good' texts').
Qed.

(** [list(MySentences(d))] when the name [bad] does not open: the sentences
    of the files before it are yielded, then the error is raised. *)
Lemma list_of_MySentences_error fuel good texts bad rest e :
  OS.listdir d s = (Ok (good ++ bad :: rest), s) ->
  opened s d good texts ->
  OS.open (Posix.join d bad) s = (Raise e, s) ->
  list_of fuel self s
  = (if (fuel <=? length (concat (map sentences_of texts)))%nat
     then Timeout else Raise e, s).
Proof.
  intros Hls Hopen Hbad. unfold list_of, iter, reading.
  unfold bind at 1. rewrite Hself.
  destruct fuel as [|fuel]; [done|].
  simpl drain. unfold next, MySentences__iter__.
  unfold bind at 1. unfold bind at 1.
  rewrite (get_dirname_run self d s Hself). unfold bind at 1. rewrite Hls.
  destruct (Nat.leb_spec (S fuel) (length (concat (map sentences_of texts)))).
  - apply (drain_MS_outer_timeout fuel good texts (bad :: rest) Hopen); [|done].
    intros good' texts' u Hopen' Hlen'.
    by apply (drain_MS_suspended_timeout fuel (bad :: rest) good' texts').
  - apply (drain_MS_outer_error fuel good texts bad rest e Hopen Hbad); [|lia].
    intros good' texts' u Hopen' Hlen'.
    by apply (drain_MS_suspended_error fuel bad rest e Hbad good' texts').
Qed.

End EarlyStop.

(** The first step of [list(MySentences(d))]: the directory is listed, then
    the outer loop runs over the names. *)
Lemma list_of_MS_unfold self d s fuel :
  heap s !! self = Some (MySentences d) ->
  Notebook.list_of (S fuel) self s
  = match OS.listdir d s with
    | (Ok names, _) =>
        (st <- Notebook.MS_outer self names ;;
         match st with
         | Notebook.StopIteration => ret []
         | Notebook.Yield sentence g' =>
             r <- Notebook.drain fuel g' ;; ret (sentence :: r)
         end) s
    | (Raise e, _) => (Raise e, s)
    | (Timeout, _) => (Timeout, s)
    end.
Proof.
  intros Hself. unfold Notebook.list_of, Notebook.iter, reading.
  unfold bind at 1. rewrite Hself.
  simpl Notebook.drain. unfold Notebook.next, Notebook.MySentences__iter__.
  unfold bind at 1. unfold bind at 1.
  rewrite (get_dirname_run self d s Hself). unfold bind at 1.
  pose proof (read_only_listdir d s) as H.
  by destruct (OS.listdir d s) as [[names| |] s1]; simpl in H; subst s1.
Qed.

(** ** The directory name with and without a trailing "/" *)

Section TrailingSep.
Import Posix PyStr Notebook.

Context (a b : nat) (d : string) (s : state).
Hypothesis Hd : d <> "".
Hypothesis Ha : heap s !! a = Some (MySentences d).
Hypothesis Hb : heap s !! b = Some (MySentences (d +:+ String SEP "")).

Lemma open_join_trailing_sep name :
  OS.open (join (d +:+ String SEP "") name) s = OS.open (join d name) s.
Proof.
  unfold OS.open, reading. by rewrite resolve_join_trailing_sep.
Qed.

Lemma drain_MS_outer_pair fuel names :
  (forall names' u,
     drain fuel (MS_suspended a names' u) s
     = drain fuel (MS_suspended b names' u) s) ->
  (st <- MS_outer a names ;;
   match st with
   | StopIteration => ret []
   | Yield sentence g' => r <- drain fuel g' ;; ret (sentence :: r)
   end) s
  = (st <- MS_outer b names ;;
     match st with
     | StopIteration => ret []
     | Yield sentence g' => r <- drain fuel g' ;; ret (sentence :: r)
     end) s.
Proof.
  intros Hrec. induction names as [|name names IH]; [done|].
  simpl. unfold bind in *.
  rewrite (get_dirname_run a d s Ha), (get_dirname_run b _ s Hb).
  rewrite open_join_trailing_sep.
  destruct (OS.open (join d name) s) as [[text| |] s1] eqn:E; try done.
  assert (s1 = s) as -> by (pose proof (read_only_open (join d name) s) as H;
                            by rewrite E in H).
  destruct (file_next text) as [[line unread]|]; [|apply IH].
  simpl. by rewrite Hrec.
Qed.

Lemma drain_MS_suspended_pair fuel : forall names u,
  drain fuel (MS_suspended a names u) s = drain fuel (MS_suspended b names u) s.
Proof.
  induction fuel as [|fuel IH]; intros names u; [done|].
  simpl drain. unfold next, MS_inner.
  destruct (file_next u) as [[line unread]|].
  - unfold bind, ret. by rewrite IH.
  - by apply drain_MS_outer_pair.
Qed.

Lemma list_of_trailing_sep fuel : list_of fuel a s = list_of fuel b s.
Proof.
  destruct fuel as [|fuel].
  - unfold list_of, iter, reading, bind. by rewrite Ha, Hb.
  - rewrite (list_of_MS_unfold a d s fuel Ha).
    rewrite (list_of_MS_unfold b _ s fuel Hb).
    rewrite (listdir_trailing_sep s d Hd).
    destruct (OS.listdir d s) as [[names| |] s1] eqn:E; try done.
    apply drain_MS_outer_pair. apply drain_MS_suspended_pair.
Qed.

End TrailingSep.

(** ** What the iterations collect, as a stream of tokens *)

Section TokenStream.
Import PyStr Notebook.

Lemma split_lower_fixed line : Forall (fun t => lower t = t) (split (lower line)).
Proof.
  rewrite split_lower. apply Forall_forall. intros t Hin.
  apply list_elem_of_fmap in Hin as [u [-> _]]. apply lower_idem.
Qed.

Lemma MT_loop_lowered u s st s' :
  MT_loop u s = (Ok st, s') ->
  match st with
  | StopIteration => True
  | Yield sent g' =>
      Forall (fun t => lower t = t) sent /\ exists u', g' = MT_suspended u'
  end.
Proof.
  unfold MT_loop. destruct (file_next u) as [[line rest]|].
  - intros [= <- _]. split; [apply split_lower_fixed | eauto].
  - by intros [= <- _].
Qed.

Lemma next_MT_lowered g s st s' :
  (g = MT_created \/ exists u, g = MT_suspended u) ->
  next g s = (Ok st, s') ->
  match st with
  | StopIteration => True
  | Yield sent g' =>
      Forall (fun t => lower t = t) sent /\ exists u', g' = MT_suspended u'
  end.
Proof.
  intros [->|[u ->]]; simpl.
  - unfold bind. destruct (get_lee_train_file s) as [[p| |] s1]; try done.
    destruct (OS.open p s1) as [[text| |] s2]; try done.
    apply MT_loop_lowered.
  - apply MT_loop_lowered.
Qed.

(** Whatever a generator of [MyText.__iter__] yields holds lowered tokens
    only. *)
Lemma drain_MT_lowered fuel : forall g s sents s',
  (g = MT_created \/ exists u, g = MT_suspended u) ->
  drain fuel g s = (Ok sents, s') ->
  Forall (Forall (fun t => lower t = t)) sents.
Proof.
  induction fuel as [|fuel IH]; intros g s sents s' Hg; [done|].
  simpl drain. unfold bind at 1.
  destruct (next g s) as [[st| |] s1] eqn:En; try done.
  apply (next_MT_lowered g s st s1 Hg) in En.
  destruct st as [sent g'|]; [|intros [= <- _]; constructor].
  destruct En as [Hsent [u' ->]]. unfold bind.
  destruct (drain fuel (MT_suspended u') s1) as [[r| |] s2] eqn:Ed; try done.
  intros [= <- _]. constructor; [done|].
  apply (IH (MT_suspended u') s1 r s2); [eauto | done].
Qed.

Lemma concat_sentences_of_text text : concat (sentences_of text) = split text.
Proof. apply lines_split. Qed.

Lemma concat_sentences_of_texts texts :
  concat (concat (map sentences_of texts)) = concat (map split texts).
Proof.
  induction texts as [|t texts IH]; [done|].
  simpl. by rewrite concat_app, concat_sentences_of_text, IH.
Qed.

Lemma concat_map_map {A B} (f : A -> B) (ls : list (list A)) :
  concat (map (map f) ls) = map f (concat ls).
Proof.
  induction ls as [|l ls IH]; [done|]. simpl. by rewrite map_app, IH.
Qed.

Lemma concat_lowered_sentences_of text :
  concat (lowered_sentences_of text) = split (lower text).
Proof.
  unfold lowered_sentences_of.
  rewrite (map_ext _ (fun line => map lower (split line)))
    by (intros line; apply split_lower).
  rewrite <- (map_map split (map lower)), concat_map_map, lines_split.
  symmetry. apply split_lower.
Qed.

End TokenStream.

(** ** The data-creation cell, state by state *)

Section ToyDataExact.
Import Posix PyStr Notebook ToyFiles.

Lemma set_root_root s : OS.set_root s (root s) = s.
Proof. by destruct s. Qed.

Lemma set_entry_ext c f g es :
  (forall o, f o = g o) -> set_entry c f es = set_entry c g es.
Proof.
  intros H. induction es as [|[k v] es IH]; simpl; [by rewrite H|].
  destruct (String.eqb k c); [by rewrite H | by rewrite IH].
Qed.

Lemma set_entry_twice c f g es :
  set_entry c g (set_entry c f es) = set_entry c (fun o => g (Some (f o))) es.
Proof.
  induction es as [|[k v] es IH]; simpl.
  - by rewrite String.eqb_refl.
  - destruct (String.eqb k c) eqn:E; simpl; rewrite E; [done | by rewrite IH].
Qed.

Lemma set_entry_id c f es v :
  find_entry c es = Some v -> f (Some v) = v -> set_entry c f es = es.
Proof.
  intros Hfind Hf. induction es as [|[k v'] es IH]; simpl in *; [done|].
  destruct (String.eqb k c).
  - injection Hfind as ->. by rewrite Hf.
  - by rewrite IH.
Qed.

(** Of two objects put at the same path, the second stays. *)
Lemma put_put p : forall n1 n2 r,
  put_path p n2 (put_path p n1 r) = put_path p n2 r.
Proof.
  induction p as [|c p IH]; intros n1 n2 r; simpl; [done|].
  destruct r as [t|es]; [done|]. f_equal.
  rewrite set_entry_twice. apply set_entry_ext. intros o. apply IH.
Qed.

(** Putting at a path what is there changes nothing. *)
Lemma put_same p : forall r n, lookup_path r p = Some n -> put_path p n r = r.
Proof.
  induction p as [|c p IH]; intros r n H; simpl in *; [congruence|].
  destruct r as [t|es]; [done|].
  destruct (find_entry c es) as [child|] eqn:E; [|done].
  f_equal. apply (set_entry_id c _ es child E). simpl. by apply IH.
Qed.

Lemma diverge_nonempty p q : diverge p q = true -> q <> [].
Proof. by destruct p, q. Qed.

(** What is put at a path is not seen from a path that parts ways with it. *)
Lemma lookup_put_diverge p : forall q new r,
  diverge p q = true ->
  lookup_path (put_path p new r) q = lookup_path r q.
Proof.
  induction p as [|c p IH]; intros q new r H; [done|].
  destruct q as [|c' q]; [done|]. simpl in H.
  destruct r as [t|es]; [done|]. simpl.
  destruct (String.eqb_spec c c') as [<-|Hne].
  - rewrite find_set_entry_same.
    destruct (find_entry c es) as [child|]; simpl; [by apply IH|].
    rewrite IH by done.
    pose proof (diverge_nonempty p q H). by destruct q.
  - by rewrite find_set_entry_other.
Qed.

Lemma diverge_snoc p x : forall q,
  diverge (p ++ [x]) q = true ->
  diverge p q = true \/ exists c rest, q = p ++ c :: rest.
Proof.
  induction p as [|a p IH]; intros q H; simpl in *.
  - destruct q as [|c' q']; [done|]. right. by exists c', q'.
  - destruct q as [|c' q']; [done|].
    destruct (String.eqb_spec a c') as [<-|Hne]; [|by left].
    destruct (IH q' H) as [Hd|(c & rest & ->)]; [by left|].
    right. by exists c, rest.
Qed.

Lemma with_file_twice s name t1 t2 :
  with_file (with_file s name t1) name t2 = with_file s name t2.
Proof. unfold with_file, data_path, OS.set_root. simpl. by rewrite put_put. Qed.

Lemma with_file_same s name t :
  has_data_file s name t -> with_file s name t = s.
Proof.
  intros H. unfold with_file, data_path.
  rewrite (put_same _ _ _ H). apply set_root_root.
Qed.

Lemma with_file_data s name t :
  has_data_dir s ->
  has_data_dir (with_file s name t)
  /\ has_data_file (with_file s name t) name t
  /\ (forall name', name <> name' ->
        lookup_path (root (with_file s name t)) (data_path s name')
        = lookup_path (root s) (data_path s name')).
Proof. exact (put_data_file s name t). Qed.

Lemma with_data_dir_data s es0 :
  lookup_path (root s) (cwd s) = Some (Dir es0) ->
  has_data_dir (with_data_dir s)
  /\ (forall rest,
        lookup_path (root (with_data_dir s)) ((cwd s ++ ["data"]) ++ rest)
        = lookup_path (Dir []) rest).
Proof.
  intros H0. split; [split|]; simpl.
  - rewrite <- (app_nil_r (cwd s)) in H0.
    destruct (lookup_put_above _ [] (root s) es0 "data" (Dir []) H0) as [es' H'].
    rewrite app_nil_r in H'. eauto.
  - exists []. by eapply lookup_put_new.
  - intros rest. by eapply lookup_put_below.
Qed.

(** The inner loop of the cell, exactly. *)
Lemma write_lines_exact name ls : forall s text,
  has_data_dir s -> has_data_file s name text ->
  write_lines (data_path s name) ls s
  = (Ok tt, with_file s name (text +:+ text_of_lines ls)).
Proof.
  induction ls as [|l ls IH]; intros s text Hdir Hfile.
  - simpl. by rewrite app_empty_r, (with_file_same s name text Hfile).
  - simpl write_lines. unfold bind, OS.write at 1.
    pose proof Hfile as Hfile0. unfold has_data_file in Hfile0.
    unfold data_path at 1. rewrite Hfile0.
    destruct (with_file_data s name (text +:+ l +:+ NL) Hdir)
      as (Hdir1 & Hfile1 & _).
    refine (eq_trans (IH (with_file s name (text +:+ l +:+ NL)) _ Hdir1 Hfile1) _).
    rewrite with_file_twice. simpl text_of_lines. by rewrite !app_assoc_str.
Qed.

(** Opening a file of [./data/] for writing, exactly. *)
Lemma smart_open_exact s p name :
  has_data_dir s -> in_data_dir p name ->
  OS.smart_open p s
  = match lookup_path (root s) (data_path s name) with
    | Some (Dir _) => (Raise IsADirectoryError, s)
    | _ => (Ok (data_path s name), with_file s name "")
    end.
Proof.
  intros [[es0 H0] [es H]] (Hp & Habs & Hcomps & Hd & Hdd).
  unfold OS.smart_open, OS.start.
  rewrite Hp, Habs, Hcomps, (walk_data _ _ _ es0 es) by done.
  unfold data_path, with_file.
  by destruct (lookup_path (root s) ((cwd s ++ ["data"]) ++ [name]))
    as [[c|es1]|].
Qed.

(** One turn of the outer loop of the cell, exactly. *)
Lemma write_files_turn s p name i rest sents :
  has_data_dir s -> in_data_dir p name ->
  write_files i (p :: rest) sents s
  = match lookup_path (root s) (data_path s name) with
    | Some (Dir _) => (Raise IsADirectoryError, s)
    | _ =>
        match sents !! i with
        | None => (Raise IndexError, with_file s name "")
        | Some sent =>
            write_files (S i) rest sents (with_file s name (text_of_lines sent))
        end
    end.
Proof.
  intros Hdir Hin.
  change (write_files i (p :: rest) sents s)
    with ((fout <- OS.smart_open p ;;
           sent <- index sents i ;;
           write_lines fout sent ;;;
           write_files (S i) rest sents) s).
  unfold bind at 1. rewrite (smart_open_exact s p name Hdir Hin).
  destruct (with_file_data s name "" Hdir) as (Hdir1 & Hfile1 & _).
  assert (forall sent,
            write_lines (data_path s name) sent (with_file s name "")
            = (Ok tt, with_file s name (text_of_lines sent))) as Hw.
  { intros sent.
    refine (eq_trans (write_lines_exact name sent _ "" Hdir1 Hfile1) _).
    by rewrite with_file_twice. }
  destruct (lookup_path (root s) (data_path s name)) as [[c|es1]|]; [|done|];
    unfold bind at 1, index; destruct (sents !! i) as [sent|]; try done;
    unfold ret; unfold bind at 1; by rewrite Hw.
Qed.

(** The loop over the two file names, exactly. *)
Lemma write_files_exact s sents :
  has_data_dir s ->
  write_files 0 filenames sents s
  = match lookup_path (root s) (data_path s "f1.txt") with
    | Some (Dir _) => (Raise IsADirectoryError, s)
    | _ =>
        match sents with
        | [] => (Raise IndexError, with_file s "f1.txt" "")
        | a :: sents' =>
            match lookup_path (root s) (data_path s "f2.txt") with
            | Some (Dir _) =>
                (Raise IsADirectoryError, with_file s "f1.txt" (text_of_lines a))
            | _ =>
                match sents' with
                | [] =>
                    (Raise IndexError,
                     with_file (with_file s "f1.txt" (text_of_lines a))
                       "f2.txt" "")
                | b :: _ =>
                    (Ok tt,
                     with_file (with_file s "f1.txt" (text_of_lines a))
                       "f2.txt" (text_of_lines b))
                end
            end
        end
    end.
Proof.
  intros Hdir. unfold filenames.
  rewrite (write_files_turn s _ "f1.txt" 0 _ sents Hdir in_data_dir_f1).
  destruct sents as [|a sents'].
  { by destruct (lookup_path (root s) (data_path s "f1.txt")) as [[c|es1]|]. }
  simpl lookup.
  destruct (with_file_data s "f1.txt" (text_of_lines a) Hdir)
    as (Hdir1 & _ & Hkeep).
  rewrite (write_files_turn _ _ "f2.txt" 1 _ (a :: sents') Hdir1 in_data_dir_f2).
  change (data_path (with_file s "f1.txt" (text_of_lines a)) "f2.txt")
    with (data_path s "f2.txt").
  rewrite (Hkeep "f2.txt") by done.
  change ((a :: sents') !! 1%nat) with (sents' !! 0%nat).
  destruct (lookup_path (root s) (data_path s "f1.txt")) as [[c|es1]|];
    [|done|];
    destruct (lookup_path (root s) (data_path s "f2.txt")) as [[c2|es2]|];
    by destruct sents'.
Qed.

(** [os.path.exists('./data/')], exactly. *)
Lemma path_exists_data_exact s :
  OS.path_exists "./data/" s
  = (Ok match lookup_path (root s) (cwd s),
              lookup_path (root s) (cwd s ++ ["data"])
        with
        | Some (Dir _), Some (Dir _) => true
        | _, _ => false
        end, s).
Proof.
  unfold OS.path_exists, reading, OS.resolve, OS.start.
  simpl String.eqb. simpl is_absolute.
  change (components "./data/") with ["."; "data"; ""]. simpl.
  destruct (lookup_path (root s) (cwd s)) as [[c0|es0]|] eqn:H0; simpl;
    rewrite ?H0; try done.
  destruct (lookup_path (root s) (cwd s ++ ["data"])) as [[c|es]|] eqn:H;
    simpl; rewrite ?H; done.
Qed.

(** [os.makedirs('./data/')], exactly. *)
Lemma makedirs_data_exact s :
  OS.makedirs "./data/" s
  = match lookup_path (root s) (cwd s),
          lookup_path (root s) (cwd s ++ ["data"])
    with
    | Some (Dir _), None => (Ok tt, with_data_dir s)
    | Some (Dir _), Some _ => (Raise FileExistsError, s)
    | Some (File _), _ => (Raise NotADirectoryError, s)
    | None, _ => (Raise FileNotFoundError, s)
    end.
Proof.
  unfold OS.makedirs, OS.start. simpl String.eqb. simpl is_absolute.
  change (strip_trailing (components "./data/")) with ["."; "data"]. simpl.
  destruct (lookup_path (root s) (cwd s)) as [[c0|es0]|] eqn:H0; simpl;
    rewrite ?H0; try done.
  by destruct (lookup_path (root s) (cwd s ++ ["data"])) as [[c|es]|] eqn:H.
Qed.

(** The cell as a whole, exactly: what it does depends on what the working
    directory and [data] are. *)
Lemma create_toy_data_exact s sents :
  create_toy_data sents s
  = match lookup_path (root s) (cwd s),
          lookup_path (root s) (cwd s ++ ["data"])
    with
    | Some (Dir _), Some (Dir _) => write_files 0 filenames sents s
    | Some (Dir _), None => write_files 0 filenames sents (with_data_dir s)
    | Some (Dir _), Some (File _) => (Raise FileExistsError, s)
    | Some (File _), _ => (Raise NotADirectoryError, s)
    | None, _ => (Raise FileNotFoundError, s)
    end.
Proof.
  unfold create_toy_data. unfold bind at 1. rewrite path_exists_data_exact.
  destruct (lookup_path (root s) (cwd s)) as [[c0|es0]|] eqn:H0;
    [| destruct (lookup_path (root s) (cwd s ++ ["data"])) as [[c|es]|] eqn:H
     |];
    unfold bind at 1; try done;
    by rewrite makedirs_data_exact, H0, ?H.
Qed.

(** The state the cell ends in when it runs to its end. *)
Lemma two_files_data s ta tb :
  has_data_dir s ->
  has_data_dir (with_file (with_file s "f1.txt" ta) "f2.txt" tb)
  /\ has_data_file (with_file (with_file s "f1.txt" ta) "f2.txt" tb) "f1.txt" ta
  /\ has_data_file (with_file (with_file s "f1.txt" ta) "f2.txt" tb) "f2.txt" tb.
Proof.
  intros Hdir.
  destruct (with_file_data s "f1.txt" ta Hdir) as (Hdir1 & Hf1 & _).
  destruct (with_file_data _ "f2.txt" tb Hdir1) as (Hdir2 & Hf2 & Hkeep).
  split; [done|]. split; [|done].
  unfold has_data_file in *. specialize (Hkeep "f1.txt" ltac:(done)).
  unfold data_path in Hkeep. simpl in *. by rewrite Hkeep.
Qed.

(** A run of the cell to its end: there were two sentences at least, and the
    two files hold the words of the first two. *)
Lemma create_toy_data_inv s sents s' :
  create_toy_data sents s = (Ok tt, s') ->
  exists a b rest,
    sents = a :: b :: rest
    /\ has_data_dir s'
    /\ has_data_file s' "f1.txt" (text_of_lines a)
    /\ has_data_file s' "f2.txt" (text_of_lines b).
Proof.
  rewrite create_toy_data_exact.
  assert (forall s0, has_data_dir s0 ->
            write_files 0 filenames sents s0 = (Ok tt, s') ->
            exists a b rest,
              sents = a :: b :: rest
              /\ has_data_dir s'
              /\ has_data_file s' "f1.txt" (text_of_lines a)
              /\ has_data_file s' "f2.txt" (text_of_lines b)) as Hloop.
  { intros s0 Hdir0. rewrite (write_files_exact s0 sents Hdir0).
    assert (forall a b rest, sents = a :: b :: rest ->
              (Ok tt, with_file (with_file s0 "f1.txt" (text_of_lines a))
                        "f2.txt" (text_of_lines b)) = (Ok tt, s') ->
              exists a b rest,
                sents = a :: b :: rest
                /\ has_data_dir s'
                /\ has_data_file s' "f1.txt" (text_of_lines a)
                /\ has_data_file s' "f2.txt" (text_of_lines b)) as Hend.
    { intros a b rest -> [= <-]. exists a, b, rest.
      split; [done | by apply two_files_data]. }
    destruct (lookup_path (root s0) (data_path s0 "f1.txt")) as [[c|es1]|];
      try done;
      (destruct sents as [|a [|b rest]]; try done;
       destruct (lookup_path (root s0) (data_path s0 "f2.txt")) as [[c2|es2]|];
       try done; by apply (Hend a b rest)). }
  destruct (lookup_path (root s) (cwd s)) as [[c0|es0]|] eqn:H0; try done.
  destruct (lookup_path (root s) (cwd s ++ ["data"])) as [[c|es]|] eqn:H;
    try done.
  - apply Hloop. split; eauto.
  - apply Hloop. by apply (with_data_dir_data s es0).
Qed.

(** A state in which the two files hold the words of the first two
    sentences is one the cell leaves as it is. *)
Lemma create_toy_data_settled s a b rest :
  has_data_dir s ->
  has_data_file s "f1.txt" (text_of_lines a) ->
  has_data_file s "f2.txt" (text_of_lines b) ->
  create_toy_data (a :: b :: rest) s = (Ok tt, s).
Proof.
  intros Hdir Hf1 Hf2. rewrite create_toy_data_exact.
  pose proof Hdir as [[es0 H0] [es H]]. rewrite H0, H.
  rewrite (write_files_exact s _ Hdir).
  pose proof Hf1 as Hf1'. pose proof Hf2 as Hf2'.
  unfold has_data_file in Hf1', Hf2'. unfold data_path. rewrite Hf1', Hf2'.
  rewrite (with_file_same s "f1.txt" _ Hf1).
  by rewrite (with_file_same s "f2.txt" _ Hf2).
Qed.

(** The cell from a state that allows it: the state it works from once
    [./data/] is there. *)
Lemma create_toy_data_from s sents :
  can_create_toy_data s ->
  exists s0,
    has_data_dir s0 /\ cwd s0 = cwd s
    /\ not_dir (lookup_path (root s0) (data_path s0 "f1.txt"))
    /\ not_dir (lookup_path (root s0) (data_path s0 "f2.txt"))
    /\ create_toy_data sents s = write_files 0 filenames sents s0.
Proof.
  intros [[es0 H0] Hdata]. rewrite create_toy_data_exact, H0.
  destruct (lookup_path (root s) (cwd s ++ ["data"])) as [[c|es]|] eqn:H;
    [done| |].
  - exists s. destruct Hdata as [Hn1 Hn2]. repeat split; eauto.
  - exists (with_data_dir s).
    destruct (with_data_dir_data s es0 H0) as [Hdir Hbelow].
    split; [done|]. split; [done|].
    unfold data_path. simpl cwd. by rewrite !Hbelow.
Qed.

End ToyDataExact.

(** ** Words written one per line, read back *)

Section WordsReadBack.
Import PyStr Notebook.

Lemma no_space_not_LF c : isspace c = false -> Ascii.eqb c LF = false.
Proof.
  intros H. destruct (Ascii.eqb c LF) eqn:E; [|done].
  by rewrite (isspace_eqb_LF c E) in H.
Qed.

Lemma no_space_not_CR c : isspace c = false -> Ascii.eqb c CR = false.
Proof.
  intros H. destruct (Ascii.eqb c CR) eqn:E; [|done].
  by rewrite (isspace_eqb_CR c E) in H.
Qed.

Lemma readline_word w rest :
  no_space w = true -> readline (w +:+ NL +:+ rest) = (w +:+ NL, rest).
Proof.
  induction w as [|c w IH]; intros H; [done|].
  simpl in H. apply andb_prop in H as [Hc Hw]. apply negb_true_iff in Hc.
  rewrite !app_cons. simpl.
  rewrite (no_space_not_LF c Hc), (no_space_not_CR c Hc).
  by rewrite (IH Hw).
Qed.

Lemma split_word w : is_token w = true -> split (w +:+ NL) = [w].
Proof.
  intros H. apply split_complete.
  apply (tokens_more "" w NL []); [done | done | done |].
  by apply tokens_none.
Qed.

Lemma is_token_no_space w : is_token w = true -> no_space w = true.
Proof. by destruct w. Qed.

(** A file written one word per line reads back as one sentence per word. *)
Lemma sentences_of_text_of_lines ws :
  Forall (fun w => is_token w = true) ws ->
  sentences_of (text_of_lines ws) = map (fun w => [w]) ws.
Proof.
  induction 1 as [|w ws Hw Hws IH]; [done|].
  unfold sentences_of, lines in *. simpl text_of_lines.
  rewrite lines_from_readline by (by destruct w).
  rewrite (readline_word w _ (is_token_no_space w Hw)). simpl.
  by rewrite (split_word w Hw), IH.
Qed.

End WordsReadBack.

(** ** What the data-creation cell leaves alone *)

Section ToyDataFrame.
Import Posix Notebook ToyFiles.

Lemma same_outside_refl T s : same_outside T s s.
Proof. by repeat split. Qed.

Lemma same_outside_trans T s1 s2 s3 :
  same_outside T s1 s2 -> same_outside T s2 s3 -> same_outside T s1 s3.
Proof.
  intros (Hh & Hl & Hc & Hq) (Hh' & Hl' & Hc' & Hq').
  repeat split; try congruence.
  intros q HT. by rewrite Hq', Hq.
Qed.

Lemma same_outside_with_file T s name t :
  data_path s name ∈ T -> same_outside T s (with_file s name t).
Proof.
  intros Hin. repeat split. intros q HT.
  rewrite Forall_forall in HT. simpl.
  apply lookup_put_diverge. by apply HT.
Qed.

Lemma same_outside_with_data_dir T s es0 name :
  lookup_path (root s) (cwd s) = Some (Dir es0) ->
  lookup_path (root s) (cwd s ++ ["data"]) = None ->
  data_path s name ∈ T ->
  same_outside T s (with_data_dir s).
Proof.
  intros H0 H Hin. repeat split. intros q HT.
  rewrite Forall_forall in HT. specialize (HT _ Hin). simpl.
  destruct (diverge_snoc _ _ _ HT) as [Hd|(c & rest & ->)].
  - by apply lookup_put_diverge.
  - rewrite (lookup_put_below _ _ es0) by done.
    by rewrite lookup_path_app, H.
Qed.

Lemma write_files_frame s sents :
  has_data_dir s ->
  same_outside [data_path s "f1.txt"; data_path s "f2.txt"] s
    (write_files 0 filenames sents s).2.
Proof.
  intros Hdir. rewrite (write_files_exact s sents Hdir).
  assert (forall t, same_outside [data_path s "f1.txt"; data_path s "f2.txt"] s
                      (with_file s "f1.txt" t)) as H1.
  { intros t. apply same_outside_with_file. by left. }
  assert (forall t u,
            same_outside [data_path s "f1.txt"; data_path s "f2.txt"] s
              (with_file (with_file s "f1.txt" t) "f2.txt" u)) as H2.
  { intros t u. apply (same_outside_trans _ _ _ _ (H1 t)).
    apply same_outside_with_file. right. by left. }
  destruct (lookup_path (root s) (data_path s "f1.txt")) as [[c|es1]|];
    [|apply same_outside_refl|];
    (destruct sents as [|a [|b rest]]; [apply H1|..];
     destruct (lookup_path (root s) (data_path s "f2.txt")) as [[c2|es2]|];
     simpl; auto).
Qed.

Lemma create_toy_data_same_outside s sents :
  same_outside [data_path s "f1.txt"; data_path s "f2.txt"] s
    (create_toy_data sents s).2.
Proof.
  rewrite create_toy_data_exact.
  destruct (lookup_path (root s) (cwd s)) as [[c0|es0]|] eqn:H0;
    try apply same_outside_refl.
  destruct (lookup_path (root s) (cwd s ++ ["data"])) as [[c|es]|] eqn:H;
    try apply same_outside_refl.
  - apply write_files_frame. split; eauto.
  - apply (same_outside_trans _ _ (with_data_dir s)).
    + apply (same_outside_with_data_dir _ s es0 "f1.txt" H0 H). by left.
    + apply (write_files_frame (with_data_dir s)).
      by apply (with_data_dir_data s es0).
Qed.

End ToyDataFrame.

(** ** The path cell 8 builds *)

Section LeeCorpusFacts.
Import Posix Flat PyStr Notebook LeeCorpus.

(** The name [name] below a directory, written with a "/". *)
Lemma resolve_sep s d cp es name :
  OS.resolve s d = Ok (cp, Dir es) -> plain_name name = true ->
  OS.resolve s (d +:+ String SEP name)
  = match find_entry name es with
    | Some n => Ok (cp ++ [name], n)
    | None => Raise FileNotFoundError
    end.
Proof.
  intros Hres Hplain. apply resolve_inv in Hres as (Hne & Hwalk & Hcp).
  unfold plain_name in Hplain.
  apply andb_prop in Hplain as [Hplain Hdd].
  apply andb_prop in Hplain as [Hns Hd].
  apply negb_true_iff in Hd, Hdd.
  unfold OS.resolve, OS.start in *.
  rewrite append_sep_nonempty, (is_absolute_app d _ Hne).
  rewrite components_app_sep, walk_app, Hwalk, (components_plain name Hns).
  simpl. rewrite Hcp, Hd, Hdd. rewrite lookup_path_app, Hcp. simpl.
  by destruct (find_entry name es).
Qed.

Lemma lee_train_file_value_eq g :
  lee_train_file_value g
  = ((g +:+ String SEP "test") +:+ String SEP "test_data")
    +:+ String SEP "lee_background.cor".
Proof.
  unfold lee_train_file_value, test_data_dir, format_field, os_sep.
  simpl str_join. by rewrite !app_assoc_str.
Qed.

Lemma test_data_dir_eq g :
  test_data_dir g
  = ((g +:+ String SEP "test") +:+ String SEP "test_data") +:+ String SEP "".
Proof.
  unfold test_data_dir, format_field, os_sep.
  simpl str_join. by rewrite !app_assoc_str.
Qed.

Lemma ends_with_sep_app_nonempty a b :
  b <> "" -> ends_with_sep (a +:+ b) = ends_with_sep b.
Proof.
  intros Hb. induction a as [|c a IH]; [done|].
  rewrite app_cons. simpl. rewrite IH.
  destruct (a +:+ b) eqn:E; [|done].
  by destruct a, b.
Qed.

Lemma join_plain a b :
  a <> "" -> ends_with_sep a = false -> is_absolute b = false ->
  join a b = a +:+ String SEP b.
Proof.
  intros Ha Hend Hb. unfold join. rewrite Hb, Hend.
  by destruct (String.eqb_spec a "").
Qed.

Lemma append_sep_name_nonempty a b : a +:+ String SEP b <> "".
Proof. by destruct a. Qed.

(** The training file below the directory of the package. *)
Lemma open_lee_train_file s g cp es text :
  OS.resolve s g = Ok (cp, Dir es) ->
  lookup_path (root s) (cp ++ ["test"; "test_data"; "lee_background.cor"])
  = Some (File text) ->
  OS.open (lee_train_file_value g) s = (Ok text, s).
Proof.
  intros Hres Hfile. pose proof Hres as Hres0.
  apply resolve_inv in Hres0 as (_ & _ & Hcp).
  rewrite lookup_path_app, Hcp in Hfile. simpl in Hfile.
  destruct (find_entry "test" es) as [[c1|es1]|] eqn:E1; try done.
  destruct (find_entry "test_data" es1) as [[c2|es2]|] eqn:E2; try done.
  destruct (find_entry "lee_background.cor" es2) as [n|] eqn:E3; [|done].
  injection Hfile as ->.
  pose proof (resolve_sep s g cp es "test" Hres eq_refl) as H1.
  rewrite E1 in H1.
  pose proof (resolve_sep s _ _ es1 "test_data" H1 eq_refl) as H2.
  rewrite E2 in H2.
  pose proof (resolve_sep s _ _ es2 "lee_background.cor" H2 eq_refl) as H3.
  rewrite E3 in H3.
  unfold OS.open, reading. by rewrite lee_train_file_value_eq, H3.
Qed.

End LeeCorpusFacts.

(** ** The calls of [next] before the entry that does not open *)

Section EarlyStopSteps.
Import PyStr Notebook Stepping.

Context (self : nat) (d : string) (s : state).
Context (bad : string) (rest : list string) (e : exn).
Hypothesis Hself : heap s !! self = Some (MySentences d).
Hypothesis Hbad : OS.open (Posix.join d bad) s = (Raise e, s).

(** The outer loop from the names [good ++ bad :: rest]: it raises when the
    files of [good] have no line, and else yields their first line. *)
Lemma MS_outer_step good texts :
  opened s d good texts ->
  (concat (map sentences_of texts) = []
   /\ MS_outer self (good ++ bad :: rest) s = (Raise e, s))
  \/ (exists sent good' texts' u,
        opened s d good' texts'
        /\ concat (map sentences_of texts)
           = sent :: sentences_of u ++ concat (map sentences_of texts')
        /\ MS_outer self (good ++ bad :: rest) s
           = (Ok (Yield sent (MS_suspended self (good' ++ bad :: rest) u)), s)).
Proof.
  induction 1 as [|name text names texts Ho Hrest IH].
  - left. split; [done|]. simpl. unfold bind.
    by rewrite (get_dirname_run self d s Hself), Hbad.
  - simpl. unfold bind. rewrite (get_dirname_run self d s Hself), Ho.
    destruct (file_next text) as [[line unread]|] eqn:E.
    + right. exists (split line), names, texts, unread.
      by rewrite (sentences_of_some text line unread E).
    + rewrite (sentences_of_none text E). exact IH.
Qed.

(** One call of [next] on a suspended generator. *)
Lemma next_suspended_step good texts u :
  opened s d good texts ->
  (sentences_of u ++ concat (map sentences_of texts) = []
   /\ next (MS_suspended self (good ++ bad :: rest) u) s = (Raise e, s))
  \/ (exists sent good' texts' u',
        opened s d good' texts'
        /\ sentences_of u ++ concat (map sentences_of texts)
           = sent :: sentences_of u' ++ concat (map sentences_of texts')
        /\ next (MS_suspended self (good ++ bad :: rest) u) s
           = (Ok (Yield sent (MS_suspended self (good' ++ bad :: rest) u')), s)).
Proof.
  intros Hopen. unfold next, MS_inner.
  destruct (file_next u) as [[line unread]|] eqn:E.
  - right. exists (split line), good, texts, unread.
    by rewrite (sentences_of_some u line unread E).
  - rewrite (sentences_of_none u E). by apply MS_outer_step.
Qed.

Lemma advance_yield k g sent g1 L o :
  next g s = (Ok (Yield sent g1), s) ->
  advance k g1 s = (Ok (L, o), s) ->
  advance (S k) g s = (Ok (sent :: L, o), s).
Proof.
  intros Hn Hadv. simpl. unfold bind at 1. rewrite Hn. unfold bind.
  by rewrite Hadv.
Qed.

(** As many calls of [next] as the files of [good] have lines left yield
    these lines, split; the call after them raises. *)
Lemma advance_suspended n : forall good texts u,
  opened s d good texts ->
  length (sentences_of u ++ concat (map sentences_of texts)) = n ->
  exists g',
    advance n (MS_suspended self (good ++ bad :: rest) u) s
    = (Ok (sentences_of u ++ concat (map sentences_of texts), Some g'), s)
    /\ next g' s = (Raise e, s).
Proof.
  induction n as [|n IH]; intros good texts u Hopen Hlen;
    destruct (next_suspended_step good texts u Hopen)
      as [[HL Hn]|(sent & good' & texts' & u' & Hopen' & HL & Hn)];
    rewrite HL in *; try done.
  - by exists (MS_suspended self (good ++ bad :: rest) u).
  - simpl in Hlen. injection Hlen as Hlen.
    destruct (IH good' texts' u' Hopen' Hlen) as (g' & Hadv & Hnext).
    exists g'. split; [|done]. by eapply advance_yield.
Qed.

(** The same from [iter]: the generator yields every line of the files of
    [good], and the call of [next] after the last of them raises. *)
Lemma advance_created good texts :
  OS.listdir d s = (Ok (good ++ bad :: rest), s) ->
  opened s d good texts ->
  exists g',
    (g <- iter self ;; advance (length (concat (map sentences_of texts))) g) s
    = (Ok (concat (map sentences_of texts), Some g'), s)
    /\ next g' s = (Raise e, s).
Proof.
  intros Hls Hopen. unfold iter, reading. unfold bind at 1. rewrite Hself.
  unfold MySentences__iter__.
  assert (next (MS_created self) s = MS_outer self (good ++ bad :: rest) s)
    as Hfirst.
  { simpl. unfold bind.
    by rewrite (get_dirname_run self d s Hself), Hls. }
  destruct (MS_outer_step good texts Hopen)
    as [[HL Ho]|(sent & good' & texts' & u & Hopen' & HL & Ho)];
    rewrite HL.
  - exists (MS_created self). split; [done|]. by rewrite Hfirst.
  - destruct (advance_suspended _ good' texts' u Hopen' eq_refl)
      as (g' & Hadv & Hnext).
    exists g'. split; [|done]. simpl length.
    eapply advance_yield; [by rewrite Hfirst | exact Hadv].
Qed.

End EarlyStopSteps.

(** * Further theorems *)

Section IteratorTheorems.
Import Posix Flat PyStr Notebook Stepping Examples MoreExamples.

(** X1. A directory of regular files. When [d] resolves to a directory whose
    entries are all regular files, with distinct names that are proper entry
    names (no "/", not empty, not "." nor ".."), [list(MySentences(d))]
    returns the lines of the files, split, files in the order of the entries
    and lines in file order, and leaves the state as it was: [os.listdir]
    and [os.path.join] compose to open every file of the directory. *)
Theorem MySentences_flat_directory s self d cp es texts fuel :
  heap s !! self = Some (MySentences d) ->
  OS.resolve s d = Ok (cp, Dir es) ->
  Forall (fun name => plain_name name = true) (map fst es) ->
  NoDup (map fst es) ->
  file_texts es = Some texts ->
  (length (concat (map lines texts)) < fuel)%nat ->
  list_of fuel self s = (Ok (map split (concat (map lines texts))), s).
Proof.
  intros Hself Hres Hplain Hnd Htexts Hlen.
  destruct (flat_opened s d cp es texts Hres Hplain Hnd Htexts) as [Hls Hopen].
  rewrite <- concat_sentences_of.
  apply (list_of_MySentences self d s Hself fuel (map fst es) texts Hls Hopen).
  by rewrite concat_sentences_of, length_map.
Qed.

Lemma MySentences_flat_directory_witness :
  list_of 5 toy_self toy_state
  = (Ok [["first"]; ["sentence"]; ["second"]; ["sentence"]], toy_state).
Proof.
  apply (MySentences_flat_directory toy_state toy_self "./data/" ["data"]
           [("f1.txt", File (text_of_lines ["first"; "sentence"]));
            ("f2.txt", File (text_of_lines ["second"; "sentence"]))]
           [text_of_lines ["first"; "sentence"];
            text_of_lines ["second"; "sentence"]] 5).
  - reflexivity.
  - reflexivity.
  - repeat constructor.
  - apply (bool_decide_unpack _). vm_compute. exact I.
  - reflexivity.
  - vm_compute. lia.
Defined.

(** X2. The first entry that does not open ends the iteration, and not
    before the files listed ahead of it have been read. When the listing of
    [d] is [good ++ bad :: rest], the names of [good] open as files and
    opening [bad] raises [e]: the generator of [MySentences(d)] yields the
    lines of the files of [good], split, one per call of [next], files in
    listing order and lines in file order, and the call of [next] after the
    last of them raises [e]; so [list(MySentences(d))] raises [e]. This
    holds whatever the entries of [rest] are, and the state is as it
    was. *)
Theorem MySentences_first_error s self d good texts bad rest e fuel :
  heap s !! self = Some (MySentences d) ->
  OS.listdir d s = (Ok (good ++ bad :: rest), s) ->
  opened s d good texts ->
  OS.open (join d bad) s = (Raise e, s) ->
  (length (concat (map lines texts)) < fuel)%nat ->
  list_of fuel self s = (Raise e, s)
  /\ exists g',
       (g <- iter self ;; advance (length (concat (map lines texts))) g) s
       = (Ok (map split (concat (map lines texts)), Some g'), s)
       /\ next g' s = (Raise e, s).
Proof.
  intros Hself Hls Hopen Hbad Hlen. split.
  - rewrite (list_of_MySentences_error self d s Hself fuel good texts bad rest
               e Hls Hopen Hbad).
    rewrite concat_sentences_of, length_map.
    by destruct (Nat.leb_spec fuel (length (concat (map lines texts))));
      [lia|].
  - destruct (advance_created self d s bad rest e Hself Hbad good texts
                Hls Hopen) as (g' & Hadv & Hnext).
    rewrite concat_sentences_of, length_map in Hadv. by exists g'.
Qed.

Lemma MySentences_first_error_witness :
  OS.listdir "d" late_subdir_state
  = (Ok (["a.txt"] ++ "sub" :: ["b.txt"]), late_subdir_state)
  /\ list_of 3 0 late_subdir_state
     = (Raise IsADirectoryError, late_subdir_state)
  /\ exists g',
       (g <- iter 0 ;; advance 2 g) late_subdir_state
       = (Ok ([["x"; "y"]; ["z"]], Some g'), late_subdir_state)
       /\ next g' late_subdir_state
          = (Raise IsADirectoryError, late_subdir_state).
Proof.
  split; [reflexivity|].
  destruct (MySentences_first_error late_subdir_state 0 "d" ["a.txt"]
              ["x y" +:+ NL +:+ "z" +:+ NL] "sub" ["b.txt"]
              IsADirectoryError 3)
    as (Hlist & g' & Hadv & Hnext);
    [reflexivity | reflexivity | repeat constructor | reflexivity
    | vm_compute; lia |].
  split; [exact Hlist|]. exists g'. split; [exact Hadv | exact Hnext].
Defined.

(** X3. A trailing "/" on the directory name makes no difference:
    [MySentences(d)] and [MySentences(d + '/')] list the same names and
    [os.path.join] names the same files, so the two iterations have the same
    outcome, sentences or error, in every state. *)
Theorem MySentences_trailing_sep s a b d fuel :
  d <> "" ->
  heap s !! a = Some (MySentences d) ->
  heap s !! b = Some (MySentences (d +:+ String SEP "")) ->
  list_of fuel a s = list_of fuel b s.
Proof. intros Hd Ha Hb. by apply (list_of_trailing_sep a b d s). Qed.

Lemma MySentences_trailing_sep_witness :
  list_of 5 0 two_names_state = list_of 5 1 two_names_state
  /\ list_of 5 1 two_names_state
     = (Ok [["first"]; ["sentence"]; ["second"]; ["sentence"]],
        two_names_state).
Proof.
  split; [|reflexivity].
  apply (MySentences_trailing_sep two_names_state 0 1 "./data" 5).
  - discriminate.
  - reflexivity.
  - reflexivity.
Defined.

(** X4. [MyText] yields what [MySentences] yields, in lower case. When the
    directory of a [MySentences] instance lists one name, and that file and
    the training file of [MyText] hold the same text, the sentences of
    [list(MyText())] are those of [list(MySentences(d))] with every token
    lowered, one for one. *)
Theorem MyText_lowers_MySentences s a b d name p text fuel :
  heap s !! a = Some (MySentences d) ->
  heap s !! b = Some MyText ->
  lee_train_file s = Some p ->
  OS.listdir d s = (Ok [name], s) ->
  OS.open (join d name) s = (Ok text, s) ->
  OS.open p s = (Ok text, s) ->
  (length (lines text) < fuel)%nat ->
  exists sents,
    list_of fuel a s = (Ok sents, s)
    /\ list_of fuel b s = (Ok (map (map lower) sents), s).
Proof.
  intros Ha Hb Hp Hls Hopen Hopen' Hlen. exists (sentences_of text).
  split.
  - rewrite (list_of_MySentences a d s Ha fuel [name] [text] Hls).
    + simpl. by rewrite app_nil_r.
    + by repeat constructor.
    + simpl. rewrite app_nil_r. unfold sentences_of. by rewrite length_map.
  - rewrite (list_of_MyText fuel b s p text Hb Hp Hopen' Hlen).
    unfold lowered_sentences_of, sentences_of. rewrite map_map.
    do 2 f_equal. apply map_ext. intros line. apply split_lower.
Qed.

Lemma MyText_lowers_MySentences_witness :
  list_of 5 0 blanks_state = (Ok [["One"; "two"]; []; []; ["three"]], blanks_state)
  /\ list_of 5 1 blanks_state
     = (Ok [["one"; "two"]; []; []; ["three"]], blanks_state).
Proof.
  destruct (MyText_lowers_MySentences blanks_state 0 1 "docs" "a.txt"
              "docs/a.txt"
              ("One two" +:+ NL +:+ NL +:+ "   " +:+ NL +:+ "three") 5)
    as (sents & Ha & Hb);
    [reflexivity | reflexivity | reflexivity | reflexivity | reflexivity
    | reflexivity | vm_compute; lia |].
  assert (sents = [["One"; "two"]; []; []; ["three"]]) as ->.
  { vm_compute in Ha. by injection Ha. }
  split; [exact Ha | exact Hb].
Defined.

End IteratorTheorems.

Section TokenTheorems.
Import Posix PyStr Notebook Examples MoreExamples.

(** X5. [MyText] never yields a token that lowering would change. Whatever
    [list(MyText())] returns, from any state and whatever the training file
    holds, every token of every sentence is its own lower-case form: no
    token has a capital letter left. *)
Theorem MyText_tokens_lowered s self fuel sents s' :
  heap s !! self = Some MyText ->
  list_of fuel self s = (Ok sents, s') ->
  Forall (Forall (fun t => lower t = t)) sents.
Proof.
  intros Hself. unfold list_of, iter, reading. unfold bind at 1.
  rewrite Hself. unfold MyText__iter__.
  apply drain_MT_lowered. by left.
Qed.

Lemma MyText_tokens_lowered_witness :
  list_of 3 0 capitals_state
  = (Ok [["hundreds"; "of"; "people"]; ["in"; "new"; "south"; "wales"]],
     capitals_state)
  /\ Forall (Forall (fun t => lower t = t))
       [["hundreds"; "of"; "people"]; ["in"; "new"; "south"; "wales"]].
Proof.
  split; [reflexivity|].
  apply (MyText_tokens_lowered capitals_state 0 3 _ capitals_state).
  - reflexivity.
  - reflexivity.
Defined.

(** X6. The tokens [MySentences] yields, in order, are the tokens of the
    files. When the listing of [d] succeeds and every name opens, the
    sentences of [list(MySentences(d))], concatenated, are the texts of the
    files, each split as a whole: reading line by line loses no token, adds
    none and keeps their order. *)
Theorem MySentences_token_stream s self d names texts fuel :
  heap s !! self = Some (MySentences d) ->
  OS.listdir d s = (Ok names, s) ->
  opened s d names texts ->
  (length (concat (map lines texts)) < fuel)%nat ->
  exists sents,
    list_of fuel self s = (Ok sents, s)
    /\ concat sents = concat (map split texts).
Proof.
  intros Hself Hls Hopen Hlen. exists (concat (map sentences_of texts)).
  split; [|apply concat_sentences_of_texts].
  apply (list_of_MySentences self d s Hself fuel names texts Hls Hopen).
  by rewrite concat_sentences_of, length_map.
Qed.

Lemma MySentences_token_stream_witness :
  exists sents,
    list_of 5 0 blanks_state = (Ok sents, blanks_state)
    /\ concat sents = ["One"; "two"; "three"].
Proof.
  destruct (MySentences_token_stream blanks_state 0 "docs" ["a.txt"]
              ["One two" +:+ NL +:+ NL +:+ "   " +:+ NL +:+ "three"] 5)
    as (sents & Hrun & Hcat);
    [reflexivity | reflexivity | repeat constructor | vm_compute; lia |].
  exists sents. split; [exact Hrun | exact Hcat].
Defined.

(** X7. The tokens [MyText] yields, in order, are the tokens of the lowered
    training file. When the training file opens with the text [text], the
    sentences of [list(MyText())], concatenated, are [text.lower().split()]:
    lowering and splitting line by line is lowering and splitting the whole
    text. *)
Theorem MyText_token_stream s self p text fuel :
  heap s !! self = Some MyText ->
  lee_train_file s = Some p ->
  OS.open p s = (Ok text, s) ->
  (length (lines text) < fuel)%nat ->
  exists sents,
    list_of fuel self s = (Ok sents, s)
    /\ concat sents = split (lower text).
Proof.
  intros Hself Hp Hopen Hlen. exists (lowered_sentences_of text).
  split; [|apply concat_lowered_sentences_of].
  by apply (list_of_MyText fuel self s p text).
Qed.

Lemma MyText_token_stream_witness :
  exists sents,
    list_of 3 0 capitals_state = (Ok sents, capitals_state)
    /\ concat sents
       = ["hundreds"; "of"; "people"; "in"; "new"; "south"; "wales"].
Proof.
  destruct (MyText_token_stream capitals_state 0 "/corpus/lee.cor"
              ("Hundreds of people" +:+ NL +:+ "in New South Wales" +:+ NL) 3)
    as (sents & Hrun & Hcat);
    [reflexivity | reflexivity | reflexivity | vm_compute; lia |].
  exists sents. split; [exact Hrun | exact Hcat].
Defined.

End TokenTheorems.

Section ToyDataTheorems.
Import Posix PyStr Notebook ToyFiles Examples MoreExamples.

(** X8. The data-creation cell with any corpus of two sentences or more.
    From a state that allows it (the working directory exists and [data] is
    absent, or is a directory in which neither file name is a directory),
    the cell runs to its end; [./data/f1.txt] then holds the words of the
    first sentence and [./data/f2.txt] those of the second, one per line,
    and the sentences after the second are written nowhere. Read back
    through [MySentences('./data/')], when the listing returns the two
    names in this order and every word is a token (not empty, without
    whitespace), the files yield one sentence per word:
    [[[w] for w in sentences[0] + sentences[1]]]. *)
Theorem create_toy_data_round_trip s a b rest :
  can_create_toy_data s ->
  exists s',
    create_toy_data (a :: b :: rest) s = (Ok tt, s')
    /\ OS.open "./data/f1.txt" s' = (Ok (text_of_lines a), s')
    /\ OS.open "./data/f2.txt" s' = (Ok (text_of_lines b), s')
    /\ (forall self fuel,
          heap s' !! self = Some (MySentences "./data/") ->
          OS.listdir "./data/" s' = (Ok ["f1.txt"; "f2.txt"], s') ->
          Forall (fun w => is_token w = true) (a ++ b) ->
          (length (a ++ b) < fuel)%nat ->
          list_of fuel self s' = (Ok (map (fun w => [w]) (a ++ b)), s')).
Proof.
  intros Hcan.
  destruct (create_toy_data_from s (a :: b :: rest) Hcan)
    as (s0 & Hdir0 & _ & Hn1 & Hn2 & ->).
  rewrite (write_files_exact s0 _ Hdir0).
  exists (with_file (with_file s0 "f1.txt" (text_of_lines a))
            "f2.txt" (text_of_lines b)).
  destruct (two_files_data s0 (text_of_lines a) (text_of_lines b) Hdir0)
    as (Hdir & Hf1 & Hf2).
  pose proof (open_data_file _ _ _ _ Hdir in_data_dir_f1 Hf1) as Ho1.
  pose proof (open_data_file _ _ _ _ Hdir in_data_dir_f2 Hf2) as Ho2.
  split; [|split; [done|split; [done|]]].
  - destruct (lookup_path (root s0) (data_path s0 "f1.txt")) as [[c|es1]|];
      try done;
      by destruct (lookup_path (root s0) (data_path s0 "f2.txt")) as [[c2|es2]|].
  - intros self fuel Hself Hls Hwords Hfuel.
    apply Forall_app in Hwords as [Ha Hb].
    rewrite (list_of_MySentences self "./data/" _ Hself fuel
               ["f1.txt"; "f2.txt"] [text_of_lines a; text_of_lines b] Hls).
    + simpl. rewrite app_nil_r, !sentences_of_text_of_lines by done.
      by rewrite map_app.
    + by repeat constructor.
    + simpl. rewrite app_nil_r, !sentences_of_text_of_lines by done.
      by rewrite <- map_app, length_map.
Qed.

Lemma create_toy_data_round_trip_witness :
  exists s',
    create_toy_data [["a"; "bc"]; ["d"]; ["left"; "out"]]
      (mkState {[ 0%nat := MySentences "./data/" ]} None (Dir []) [])
    = (Ok tt, s')
    /\ OS.open "./data/f1.txt" s' = (Ok ("a" +:+ NL +:+ "bc" +:+ NL), s')
    /\ OS.open "./data/f2.txt" s' = (Ok ("d" +:+ NL), s')
    /\ list_of 4 0 s' = (Ok [["a"]; ["bc"]; ["d"]], s').
Proof.
  destruct (create_toy_data_round_trip
              (mkState {[ 0%nat := MySentences "./data/" ]} None (Dir []) [])
              ["a"; "bc"] ["d"] [["left"; "out"]])
    as (s' & Hrun & Ho1 & Ho2 & Hlist).
  { split; [by exists [] | exact I]. }
  exists s'. split; [exact Hrun|].
  split; [rewrite Ho1; simpl; by rewrite !app_empty_r|].
  split; [rewrite Ho2; simpl; by rewrite !app_empty_r|].
  assert (s' = (create_toy_data [["a"; "bc"]; ["d"]; ["left"; "out"]]
                  (mkState {[ 0%nat := MySentences "./data/" ]} None (Dir [])
                     [])).2) as Hs' by (by rewrite Hrun).
  apply (Hlist 0%nat 4%nat).
  - rewrite Hs'. reflexivity.
  - rewrite Hs'. reflexivity.
  - repeat constructor.
  - simpl. lia.
Defined.

(** X9. The data-creation cell with fewer than two sentences. From a state
    that allows the cell, it raises [IndexError] at [sentences[i]] for the
    first file name that has no sentence, after that file has been opened
    for writing: [./data/f1.txt] is left with the words of the first
    sentence, or empty when there is none, and [./data/f2.txt] is left
    empty when there is one sentence. What the files held before is
    lost. *)
Theorem create_toy_data_too_few s sents :
  can_create_toy_data s ->
  (length sents < 2)%nat ->
  exists s',
    create_toy_data sents s = (Raise IndexError, s')
    /\ OS.open "./data/f1.txt" s'
       = (Ok (text_of_lines (default [] (head sents))), s')
    /\ (sents <> [] -> OS.open "./data/f2.txt" s' = (Ok "", s')).
Proof.
  intros Hcan Hlen.
  destruct (create_toy_data_from s sents Hcan)
    as (s0 & Hdir0 & _ & Hn1 & Hn2 & ->).
  rewrite (write_files_exact s0 _ Hdir0).
  destruct sents as [|a [|b rest]]; [| |simpl in Hlen; lia].
  - exists (with_file s0 "f1.txt" "").
    destruct (with_file_data s0 "f1.txt" "" Hdir0) as (Hdir & Hf1 & _).
    split; [|split; [|done]].
    + by destruct (lookup_path (root s0) (data_path s0 "f1.txt")) as [[c|es1]|].
    + apply (open_data_file _ _ _ _ Hdir in_data_dir_f1 Hf1).
  - exists (with_file (with_file s0 "f1.txt" (text_of_lines a)) "f2.txt" "").
    destruct (two_files_data s0 (text_of_lines a) "" Hdir0)
      as (Hdir & Hf1 & Hf2).
    split; [|split].
    + destruct (lookup_path (root s0) (data_path s0 "f1.txt")) as [[c|es1]|];
        try done;
        by destruct (lookup_path (root s0) (data_path s0 "f2.txt"))
          as [[c2|es2]|].
    + apply (open_data_file _ _ _ _ Hdir in_data_dir_f1 Hf1).
    + intros _. apply (open_data_file _ _ _ _ Hdir in_data_dir_f2 Hf2).
Qed.

Lemma create_toy_data_too_few_witness :
  exists s',
    create_toy_data [["only"; "one"]] data_state = (Raise IndexError, s')
    /\ OS.open "./data/f1.txt" s' = (Ok ("only" +:+ NL +:+ "one" +:+ NL), s')
    /\ OS.open "./data/f2.txt" s' = (Ok "", s').
Proof.
  destruct (create_toy_data_too_few data_state [["only"; "one"]])
    as (s' & Hrun & Ho1 & Ho2).
  { split; [|by split].
    by exists [("data",
                Dir [("f1.txt", File (text_of_lines ["first"; "sentence"]));
                     ("f2.txt", File (text_of_lines ["second"; "sentence"]))])]. }
  { simpl. lia. }
  exists s'. split; [exact Hrun|].
  split; [rewrite Ho1; simpl; by rewrite !app_empty_r|].
  by apply Ho2.
Defined.

(** X10. The data-creation cell is idempotent. When a run of the cell ends
    without error in the state [s'], a second run from [s'] ends without
    error in [s'] again: the directory is found, the two files are emptied
    and written with the same words. *)
Theorem create_toy_data_idempotent s sents s' :
  create_toy_data sents s = (Ok tt, s') ->
  create_toy_data sents s' = (Ok tt, s').
Proof.
  intros Hrun.
  destruct (create_toy_data_inv s sents s' Hrun)
    as (a & b & rest & -> & Hdir & Hf1 & Hf2).
  by apply create_toy_data_settled.
Qed.

Lemma create_toy_data_idempotent_witness :
  create_toy_data sentences blank_state = (Ok tt, data_state)
  /\ create_toy_data sentences data_state = (Ok tt, data_state).
Proof.
  split; [reflexivity|].
  apply (create_toy_data_idempotent blank_state). reflexivity.
Defined.

(** X11. The data-creation cell touches the two files only. Whatever the
    corpus and the state, and whether the cell ends or raises, it leaves the
    instances, the global [lee_train_file] and the working directory as they
    were, and the file system holds what it held at every path that is
    neither [data/f1.txt] nor [data/f2.txt] of the working directory, nor
    above or below one of them. *)
Theorem create_toy_data_frame s sents :
  same_outside [data_path s "f1.txt"; data_path s "f2.txt"] s
    (create_toy_data sents s).2.
Proof. apply create_toy_data_same_outside. Qed.

Lemma create_toy_data_frame_witness :
  lookup_path (root (create_toy_data sentences bystanders_state).2)
    ["notes.txt"] = Some (File "n")
  /\ lookup_path (root (create_toy_data sentences bystanders_state).2)
       ["data"; "keep.txt"] = Some (File "k")
  /\ lookup_path (root (create_toy_data sentences bystanders_state).2)
       ["data"; "f1.txt"] = Some (File ("first" +:+ NL +:+ "sentence" +:+ NL)).
Proof.
  destruct (create_toy_data_frame bystanders_state sentences)
    as (_ & _ & _ & Hq).
  split; [|split; [|reflexivity]].
  - rewrite (Hq ["notes.txt"]); [reflexivity | by repeat constructor].
  - rewrite (Hq ["data"; "keep.txt"]); [reflexivity | by repeat constructor].
Defined.

(** X12. [data] is a regular file. When the working directory holds a
    regular file named [data], [os.path.exists('./data/')] is false,
    [os.makedirs] finds the name taken, and the cell raises
    [FileExistsError] without changing anything. *)
Theorem create_toy_data_file_in_the_way s sents es0 c :
  lookup_path (root s) (cwd s) = Some (Dir es0) ->
  lookup_path (root s) (cwd s ++ ["data"]) = Some (File c) ->
  OS.path_exists "./data/" s = (Ok false, s)
  /\ create_toy_data sents s = (Raise FileExistsError, s).
Proof.
  intros H0 H. split.
  - by rewrite path_exists_data_exact, H0, H.
  - by rewrite create_toy_data_exact, H0, H.
Qed.

Lemma create_toy_data_file_in_the_way_witness :
  create_toy_data sentences (mkState ∅ None (Dir [("data", File "x")]) [])
  = (Raise FileExistsError, mkState ∅ None (Dir [("data", File "x")]) []).
Proof.
  apply (create_toy_data_file_in_the_way
           (mkState ∅ None (Dir [("data", File "x")]) []) sentences
           [("data", File "x")] "x").
  - reflexivity.
  - reflexivity.
Defined.

(** X13. A file name of the cell is taken by a directory. With [./data/] a
    directory: when [f1.txt] is a directory in it, the cell raises
    [IsADirectoryError] and changes nothing; when [f2.txt] is one and
    [f1.txt] is not, the cell raises [IsADirectoryError] after it has
    written the words of the first sentence to [f1.txt]. *)
Theorem create_toy_data_directory_in_the_way s a rest :
  has_data_dir s ->
  (forall es,
     lookup_path (root s) (data_path s "f1.txt") = Some (Dir es) ->
     create_toy_data (a :: rest) s = (Raise IsADirectoryError, s))
  /\ (forall es,
        not_dir (lookup_path (root s) (data_path s "f1.txt")) ->
        lookup_path (root s) (data_path s "f2.txt") = Some (Dir es) ->
        exists s',
          create_toy_data (a :: rest) s = (Raise IsADirectoryError, s')
          /\ OS.open "./data/f1.txt" s' = (Ok (text_of_lines a), s')).
Proof.
  intros Hdir. pose proof Hdir as [[es0 H0] [es' H]].
  rewrite create_toy_data_exact, H0, H, (write_files_exact s _ Hdir).
  split.
  - intros es ->. done.
  - intros es Hn1 ->. exists (with_file s "f1.txt" (text_of_lines a)).
    destruct (with_file_data s "f1.txt" (text_of_lines a) Hdir)
      as (Hdir1 & Hf1 & _).
    split; [|apply (open_data_file _ _ _ _ Hdir1 in_data_dir_f1 Hf1)].
    by destruct (lookup_path (root s) (data_path s "f1.txt")) as [[c|es1]|].
Qed.

Lemma create_toy_data_directory_in_the_way_witness :
  exists s',
    create_toy_data sentences
      (mkState ∅ None (Dir [("data", Dir [("f2.txt", Dir [])])]) [])
    = (Raise IsADirectoryError, s')
    /\ OS.open "./data/f1.txt" s'
       = (Ok ("first" +:+ NL +:+ "sentence" +:+ NL), s').
Proof.
  destruct (create_toy_data_directory_in_the_way
              (mkState ∅ None (Dir [("data", Dir [("f2.txt", Dir [])])]) [])
              ["first"; "sentence"] [["second"; "sentence"]])
    as [_ Hsecond].
  { split; [by exists [("data", Dir [("f2.txt", Dir [])])]
           | by exists [("f2.txt", Dir [])]]. }
  destruct (Hsecond [] I eq_refl) as (s' & Hrun & Ho1).
  exists s'. split; [exact Hrun|].
  rewrite Ho1. simpl. by rewrite !app_empty_r.
Defined.

End ToyDataTheorems.

Section LeeCorpusTheorems.
Import Posix PyStr Notebook LeeCorpus MoreExamples.

(** X14. The paths cell 8 builds by hand are those [os.path.join] builds.
    When the directory of the package is not empty and does not end with
    "/", [test_data_dir] is
    [os.path.join(gensim.__path__[0], 'test', 'test_data', '')] and
    [lee_train_file] is
    [os.path.join(gensim.__path__[0], 'test', 'test_data',
    'lee_background.cor')]. *)
Theorem lee_train_file_is_joined g :
  g <> "" -> ends_with_sep g = false ->
  test_data_dir g = join (join (join g "test") "test_data") ""
  /\ lee_train_file_value g
     = join (join (join g "test") "test_data") "lee_background.cor".
Proof.
  intros Hg Hend.
  rewrite (join_plain g "test" Hg Hend eq_refl).
  assert (ends_with_sep (g +:+ String SEP "test") = false) as Hend1.
  { by rewrite ends_with_sep_app_nonempty. }
  rewrite (join_plain _ "test_data" (append_sep_name_nonempty g "test")
             Hend1 eq_refl).
  assert (ends_with_sep ((g +:+ String SEP "test") +:+ String SEP "test_data")
          = false) as Hend2.
  { by rewrite ends_with_sep_app_nonempty. }
  rewrite (join_plain _ "" (append_sep_name_nonempty _ "test_data")
             Hend2 eq_refl).
  rewrite (join_plain _ "lee_background.cor"
             (append_sep_name_nonempty _ "test_data") Hend2 eq_refl).
  split; [apply test_data_dir_eq | apply lee_train_file_value_eq].
Qed.

Lemma lee_train_file_is_joined_witness :
  test_data_dir "/site/gensim" = "/site/gensim/test/test_data/"
  /\ lee_train_file_value "/site/gensim"
     = "/site/gensim/test/test_data/lee_background.cor"
  /\ lee_train_file_value "/site/gensim"
     = join (join (join "/site/gensim" "test") "test_data")
         "lee_background.cor".
Proof.
  destruct (lee_train_file_is_joined "/site/gensim") as [_ Hfile];
    [discriminate | reflexivity |].
  split; [reflexivity|]. split; [reflexivity | exact Hfile].
Defined.

(** X15. Cells 8 and 9 name the corpus of the package. When
    [gensim.__path__[0]] resolves to a directory, with or without a trailing
    "/", and the regular file [test/test_data/lee_background.cor] is below
    it, then after the two cells [list(sentences)] returns the lines of that
    file, lowered and split, and leaves the state as it is. *)
Theorem lee_corpus_sentences s g cp es text fuel :
  OS.resolve s g = Ok (cp, Dir es) ->
  lookup_path (root s) (cp ++ ["test"; "test_data"; "lee_background.cor"])
  = Some (File text) ->
  (length (lines text) < fuel)%nat ->
  exists self s',
    lee_corpus g s = (Ok self, s')
    /\ list_of fuel self s'
       = (Ok (map (fun line => split (lower line)) (lines text)), s').
Proof.
  intros Hres Hfile Hfuel.
  exists (fresh (dom (heap s))),
    (mkState (<[fresh (dom (heap s)) := MyText]> (heap s))
       (Some (lee_train_file_value g)) (root s) (cwd s)).
  split; [done|].
  apply (list_of_MyText fuel _ _ (lee_train_file_value g) text).
  - simpl. apply lookup_insert_eq.
  - done.
  - pose proof (open_lee_train_file s g cp es text Hres Hfile) as Hopen.
    unfold OS.open, reading, OS.resolve, OS.start in *. simpl.
    by injection Hopen as ->.
  - done.
Qed.

Lemma lee_corpus_sentences_witness :
  exists self s',
    lee_corpus "/site/gensim/" package_state = (Ok self, s')
    /\ list_of 2 self s' = (Ok [["hundreds"; "of"; "people"]], s').
Proof.
  destruct (lee_corpus_sentences package_state "/site/gensim/"
              ["site"; "gensim"] package_entries
              ("Hundreds of people" +:+ Notebook.NL) 2)
    as (self & s' & Hrun & Hlist);
    [reflexivity | reflexivity | vm_compute; lia |].
  exists self, s'. split; [exact Hrun | exact Hlist].
Defined.

End LeeCorpusTheorems.

Section LateBindingTheorems.
Import Posix PyStr Notebook LeeCorpus MoreExamples.

(** X16. [MyText] looks [lee_train_file] up when it is iterated, not when it
    is created. Iterating an instance while the global is unbound raises
    [NameError]; once cell 8 has bound it, the same instance yields the
    lines of the corpus below the directory of the package, lowered and
    split. *)
Theorem MyText_reads_global_late s self g cp es text fuel :
  heap s !! self = Some MyText ->
  lee_train_file s = None ->
  OS.resolve s g = Ok (cp, Dir es) ->
  lookup_path (root s) (cp ++ ["test"; "test_data"; "lee_background.cor"])
  = Some (File text) ->
  (length (lines text) < fuel)%nat ->
  list_of fuel self s = (Raise NameError, s)
  /\ exists s',
       set_file_names g s = (Ok tt, s')
       /\ list_of fuel self s'
          = (Ok (map (fun line => split (lower line)) (lines text)), s').
Proof.
  intros Hself Hnone Hres Hfile Hfuel. split.
  - destruct fuel as [|fuel]; [lia|].
    unfold list_of, iter, reading. unfold bind at 1. rewrite Hself.
    simpl drain. unfold next, get_lee_train_file, reading.
    unfold bind at 1. unfold bind at 1. unfold bind at 1. by rewrite Hnone.
  - exists (mkState (heap s) (Some (lee_train_file_value g)) (root s) (cwd s)).
    split; [done|].
    apply (list_of_MyText fuel _ _ (lee_train_file_value g) text);
      [done | done | | done].
    pose proof (open_lee_train_file s g cp es text Hres Hfile) as Hopen.
    unfold OS.open, reading, OS.resolve, OS.start in *. simpl.
    by injection Hopen as ->.
Qed.

Lemma MyText_reads_global_late_witness :
  list_of 2 0 package_state = (Raise NameError, package_state)
  /\ exists s',
       set_file_names "/site/gensim" package_state = (Ok tt, s')
       /\ list_of 2 0 s' = (Ok [["hundreds"; "of"; "people"]], s').
Proof.
  destruct (MyText_reads_global_late package_state 0 "/site/gensim"
              ["site"; "gensim"] package_entries
              ("Hundreds of people" +:+ Notebook.NL) 2)
    as (Hbefore & s' & Hrun & Hafter);
    [reflexivity | reflexivity | reflexivity | reflexivity | vm_compute; lia |].
  split; [exact Hbefore|].
  exists s'. split; [exact Hrun | exact Hafter].
Defined.

End LateBindingTheorems.

Section WrongKindTheorems.
Import Posix PyStr Notebook MoreExamples.

(** X17. A file where a directory is expected, and the reverse. When the
    directory name of a [MySentences] instance names a regular file,
    iterating it raises [NotADirectoryError] at [os.listdir]; when
    [lee_train_file] names a directory, iterating [MyText] raises
    [IsADirectoryError] at [open]. Nothing is yielded and the state is as it
    was. *)
Theorem wrong_kind_raises s :
  (forall self d cp c fuel,
     heap s !! self = Some (MySentences d) ->
     OS.resolve s d = Ok (cp, File c) ->
     list_of (S fuel) self s = (Raise NotADirectoryError, s))
  /\ (forall self p cp es fuel,
        heap s !! self = Some MyText ->
        lee_train_file s = Some p ->
        OS.resolve s p = Ok (cp, Dir es) ->
        list_of (S fuel) self s = (Raise IsADirectoryError, s)).
Proof.
  split.
  - intros self d cp c fuel Hself Hres.
    rewrite (list_of_MS_unfold self d s fuel Hself).
    unfold OS.listdir, reading. by rewrite Hres.
  - intros self p cp es fuel Hself Hp Hres.
    unfold list_of, iter, reading. unfold bind at 1. rewrite Hself.
    simpl drain. unfold next, get_lee_train_file, reading.
    unfold bind at 1. unfold bind at 1. unfold bind at 1. rewrite Hp.
    unfold bind at 1. unfold OS.open, reading. by rewrite Hres.
Qed.

Lemma wrong_kind_raises_witness :
  list_of 1 0 swapped_state = (Raise NotADirectoryError, swapped_state)
  /\ list_of 1 1 swapped_state = (Raise IsADirectoryError, swapped_state).
Proof.
  destruct (wrong_kind_raises swapped_state) as [Hfile Hdir].
  split.
  - apply (Hfile 0%nat "docs/a.txt" ["docs"; "a.txt"] ("One two" +:+ NL) 0%nat);
      reflexivity.
  - apply (Hdir 1%nat "docs" ["docs"]
             [("a.txt", File ("One two" +:+ NL))] 0%nat); reflexivity.
Defined.

End WrongKindTheorems.
